(** * The ChromeOS EC sysfs attributes (drivers/platform/chrome/cros_ec_sysfs.c)

    A shallow embedding of the attribute handlers of [cros_ec_sysfs.c] and the
    properties of their text parsing, text formatting and failure handling.

    - C strings are lists of characters; a string ends at its first NUL or at
      the end of the list, whichever comes first (the list stands for the
      bytes before the terminator that the caller guarantees).
    - The message buffer [msg->data] is a list of bytes when the handler reads
      a response through it, and the typed parameter struct when the handler
      only writes a request through it.
    - The embedded controller is an abstract state machine behind the two
      entry points of [cros_ec_proto.h]; every call is also recorded in a log,
      so that "no command is issued" is a statement about the log.
    - Constants, struct layouts and errno values of headers that are not part
      of this file are members of the class [ec_abi], and of [ec_abi_show] for
      flashinfo_show and kb_wake_angle_show.
    - [kmalloc] is an input of each handler: [None] when the allocation fails,
      otherwise the (uninitialised) object it returned. *)

From Stdlib Require Import ZArith Ascii String List Lia DecimalString.
From Stdlib Require DecimalPos DecimalZ.
From stdpp Require Import base list.
From Equations Require Import Equations.
Import ListNotations.
Open Scope Z_scope.

(** ** Characters, fixed-width integers and C strings *)

Definition NUL : ascii := "000"%char.

Definition code (c : ascii) : Z := Z.of_N (N_of_ascii c).

Definition lit (s : string) : list ascii := list_ascii_of_string s.

Definition u8 (z : Z) : Z := z mod 2 ^ 8.
Definition u16 (z : Z) : Z := z mod 2 ^ 16.
Definition u32 (z : Z) : Z := z mod 2 ^ 32.

(** The value of an [uint32_t] passed to a [%d] conversion. *)
Definition int_of_u32 (z : Z) : Z :=
  if u32 z <? 2 ^ 31 then u32 z else u32 z - 2 ^ 32.

(** [*s]: the character a [const char *] points at. *)
Definition deref (s : list ascii) : ascii := hd NUL s.

(** The characters of a C string, up to and without its terminator. *)
Fixpoint cstring (s : list ascii) : list ascii :=
  match s with
  | [] => []
  | c :: s' => if Ascii.eqb c NUL then [] else c :: cstring s'
  end.

Definition strlen (s : list ascii) : nat := length (cstring s).

(** Modelled from the spec: [isspace] of <linux/ctype.h> is not under src/.
    "Whitespace" is the white-space class of the kernel's character table:
    tab, line feed, vertical tab, form feed, carriage return, space and the
    Latin-1 no-break space. *)
Definition isspace (c : ascii) : bool :=
  let n := code c in
  ((9 <=? n) && (n <=? 13)) || (n =? 32) || (n =? 160).

(** Modelled from the spec: [isupper] and [tolower] of <linux/ctype.h> are not
    under src/. "Case-insensitively" folds the upper-case letters (ASCII and
    Latin-1) onto the character 32 positions later. *)
Definition isupper (c : ascii) : bool :=
  let n := code c in
  ((65 <=? n) && (n <=? 90)) || ((192 <=? n) && (n <=? 214))
  || ((216 <=? n) && (n <=? 222)).

Definition tolower (c : ascii) : ascii :=
  if isupper c then ascii_of_N (N_of_ascii c + 32) else c.

(** Modelled from the spec: [strncasecmp] of lib/string.c is not under src/.
    It compares at most [len] characters, case-insensitively, and stops at the
    first terminator; the result is the difference of the last pair compared.
    When the count runs out after an equal pair the difference is 0, which is
    the value of the recursive call at count 0. *)
Fixpoint strncasecmp (s1 s2 : list ascii) (len : nat) : Z :=
  match len with
  | O => 0
  | S len' =>
      let c1 := deref s1 in
      let c2 := deref s2 in
      if Ascii.eqb c1 NUL || Ascii.eqb c2 NUL then code c1 - code c2
      else if Ascii.eqb c1 c2 then strncasecmp (tl s1) (tl s2) len'
      else
        let c1 := tolower c1 in
        let c2 := tolower c2 in
        if negb (Ascii.eqb c1 c2) then code c1 - code c2
        else strncasecmp (tl s1) (tl s2) len'
  end.

(** Modelled from the spec: [strcmp] of lib/string.c is not under src/. It is
    0 exactly when the two strings are equal, and -1 or 1 by the first
    differing character. *)
Fixpoint strcmp (cs ct : list ascii) : Z :=
  let c1 := deref cs in
  let c2 := deref ct in
  if negb (Ascii.eqb c1 c2) then (if code c1 <? code c2 then -1 else 1)
  else if Ascii.eqb c1 NUL then 0
  else
    match cs with
    | [] => 0
    | _ :: cs' => strcmp cs' (tl ct)
    end.

(** Modelled from the spec: the [%d] conversion of the kernel's [vsnprintf] is
    not under src/; it prints a signed decimal number. *)
Definition fmt_d (z : Z) : list ascii :=
  lit (NilZero.string_of_int (Z.to_int z)).

(** Modelled from the spec: [sysfs_emit_at] of fs/sysfs/file.c is not under
    src/. It writes the formatted text into the output page at offset [at] and
    returns the number of characters written; the text before [at] is kept.
    The bound of the page size is not part of this model. *)
Definition sysfs_emit_at (buf : list ascii) (at_ : Z) (text : list ascii)
  : list ascii * Z :=
  (take (Z.to_nat at_) buf ++ text, Z.of_nat (length text)).

(** ** The interface of the absent headers *)

(** A [char] array member of a response struct: its offset in the struct and
    its size. *)
Record field := { offsetof : nat; sizeof : nat }.

(** The constants of <linux/platform_data/cros_ec_commands.h>,
    <linux/platform_data/cros_ec_proto.h>, <linux/device.h> and
    <uapi/asm-generic/errno-base.h> the handlers use. The file under
    verification fixes none of their values. *)
Class ec_abi := {
  (* errno *)
  EIO : Z;
  ENOMEM : Z;
  EINVAL : Z;
  (* host command codes *)
  EC_CMD_REBOOT_EC : Z;
  EC_CMD_GET_VERSION : Z;
  EC_CMD_GET_BUILD_INFO : Z;
  EC_CMD_GET_CHIP_INFO : Z;
  EC_CMD_GET_BOARD_VERSION : Z;
  EC_CMD_MOTION_SENSE_CMD : Z;
  EC_CMD_USB_PD_PORTS : Z;
  EC_CMD_USB_PD_MUX_INFO : Z;
  (* enum ec_reboot_cmd and the reboot flags *)
  EC_REBOOT_CANCEL : Z;
  EC_REBOOT_JUMP_RO : Z;
  EC_REBOOT_JUMP_RW : Z;
  EC_REBOOT_COLD : Z;
  EC_REBOOT_DISABLE_JUMP : Z;
  EC_REBOOT_HIBERNATE : Z;
  EC_REBOOT_COLD_AP_OFF : Z;
  EC_REBOOT_FLAG_ON_AP_SHUTDOWN : Z;
  (* motion sense *)
  MOTIONSENSE_CMD_KB_WAKE_ANGLE : Z;
  (* the bits of ec_response_usb_pd_mux_info.flags *)
  USB_PD_MUX_USB_ENABLED : Z;
  USB_PD_MUX_DP_ENABLED : Z;
  USB_PD_MUX_POLARITY_INVERTED : Z;
  USB_PD_MUX_HPD_IRQ : Z;
  USB_PD_MUX_HPD_LVL : Z;
  USB_PD_MUX_SAFE_MODE : Z;
  USB_PD_MUX_TBT_COMPAT_ENABLED : Z;
  USB_PD_MUX_USB4_ENABLED : Z;
  (* sizes *)
  EC_HOST_PARAM_SIZE : nat;
  sizeof_ec_params_reboot_ec : Z;
  sizeof_ec_params_motion_sense : Z;
  sizeof_ec_response_motion_sense : Z;
  sizeof_ec_response_get_version : Z;
  sizeof_ec_response_get_chip_info : Z;
  sizeof_ec_response_board_version : Z;
  sizeof_ec_params_usb_pd_mux_info : Z;
  sizeof_ec_response_usb_pd_ports : Z;
  sizeof_ec_response_usb_pd_mux_info : Z;
  (* struct ec_response_get_version *)
  version_string_ro : field;
  version_string_rw : field;
  current_image : nat;
  (* struct ec_response_get_chip_info *)
  vendor : field;
  name : field;
  revision : field;
  (* struct ec_response_board_version *)
  board_version : nat;
  (* the name of the primary controller and the attribute modes *)
  CROS_EC_DEV_NAME : list ascii;
  MODE_RW : Z;
  MODE_RO : Z;
}.

(** What reboot_store relies on: the shutdown flag is a non-zero [uint8_t]. *)
Definition shutdown_flag_ok `{ec_abi} : Prop :=
  u8 EC_REBOOT_FLAG_ON_AP_SHUTDOWN <> 0.

(** What version_show relies on: every member it reads lies inside the message
    buffer, and every string member has room for its terminator. *)
Record field_ok `{ec_abi} (f : field) : Prop := {
  field_room : (0 < sizeof f)%nat;
  field_fits : (offsetof f + sizeof f <= EC_HOST_PARAM_SIZE)%nat;
}.

Record layout_ok `{ec_abi} : Prop := {
  param_size_pos : (0 < EC_HOST_PARAM_SIZE)%nat;
  version_string_ro_ok : field_ok version_string_ro;
  version_string_rw_ok : field_ok version_string_rw;
  current_image_fits : (current_image + 4 <= EC_HOST_PARAM_SIZE)%nat;
  vendor_ok : field_ok vendor;
  name_ok : field_ok name;
  revision_ok : field_ok revision;
  board_version_fits : (board_version + 2 <= EC_HOST_PARAM_SIZE)%nat;
}.

(** ** Messages *)

Module ec_params_reboot_ec.
Record t := mk { cmd : Z; flags : Z }.
End ec_params_reboot_ec.

Module ec_params_motion_sense.
Record t := mk { cmd : Z; kb_wake_angle_data : Z }.
End ec_params_motion_sense.

Module ec_params_usb_pd_mux_info.
Record t := mk { port : Z }.
End ec_params_usb_pd_mux_info.

(** The payload of a request: nothing or raw bytes, or one of the parameter
    structs the handlers cast [data[]] to. *)
Inductive ec_data :=
| data_bytes (b : list ascii)
| data_reboot_ec (p : ec_params_reboot_ec.t)
| data_motion_sense (p : ec_params_motion_sense.t)
| data_usb_pd_mux_info (p : ec_params_usb_pd_mux_info.t).

(** [struct cros_ec_command], with the type of [data[]] as the handler sees
    it. *)
Record cros_ec_command (D : Type) := {
  version : Z;
  command : Z;
  outsize : Z;
  insize : Z;
  result : Z;
  data : D;
}.
Arguments version {D} _.
Arguments command {D} _.
Arguments outsize {D} _.
Arguments insize {D} _.
Arguments result {D} _.
Arguments data {D} _.

(** What the transport is asked to send: the header of the message and the
    first [outsize] bytes of its data. *)
Record ec_request := {
  rq_version : Z;
  rq_command : Z;
  rq_outsize : Z;
  rq_insize : Z;
  rq_data : ec_data;
}.

Definition request_of_bytes (msg : cros_ec_command (list ascii)) : ec_request :=
  {| rq_version := version msg; rq_command := command msg;
     rq_outsize := outsize msg; rq_insize := insize msg;
     rq_data := data_bytes (take (Z.to_nat (outsize msg)) (data msg)) |}.

Definition request_of_params {D} (inj : D -> ec_data)
    (msg : cros_ec_command D) : ec_request :=
  {| rq_version := version msg; rq_command := command msg;
     rq_outsize := outsize msg; rq_insize := insize msg;
     rq_data := inj (data msg) |}.

(** What an exchange leaves behind: the return value, [msg->result] and the
    bytes received into [msg->data]. *)
Record xfer_result := { xfer_ret : Z; ec_result : Z; payload : list ascii }.

(** The two entry points of the transport, over a controller state:
    [cros_ec_cmd_xfer_status] and [cros_ec_cmd], the latter returning its
    status and the bytes copied to [indata]. *)
Class cros_ec_proto (cros_ec_device : Type) := {
  transport_xfer_status : cros_ec_device -> ec_request -> cros_ec_device * xfer_result;
  transport_cmd : cros_ec_device -> ec_request -> cros_ec_device * (Z * list ascii);
}.

(** A call as the transport saw it. *)
Inductive ec_call :=
| call_xfer_status (rq : ec_request)
| call_cmd (rq : ec_request).

(** The controller and the calls made to it so far. *)
Record ec_io (cros_ec_device : Type) := {
  ec_dev : cros_ec_device;
  issued : list ec_call;
}.
Arguments ec_dev {cros_ec_device} _.
Arguments issued {cros_ec_device} _.

(** [struct cros_ec_dev] with the platform data of its device. *)
Record cros_ec_dev := {
  cmd_offset : Z;
  has_kb_wake_angle : bool;
  ec_name : list ascii;
}.

(** The received bytes overwrite the front of the buffer; its size stays. *)
Definition receive (payload old : list ascii) : list ascii :=
  take (length old) (payload ++ drop (length payload) old).

Section Transport.
Context {cros_ec_device : Type} `{cros_ec_proto cros_ec_device}.

Definition cros_ec_cmd_xfer_status (io : ec_io cros_ec_device)
    (rq : ec_request) : ec_io cros_ec_device * xfer_result :=
  let '(d, r) := transport_xfer_status (ec_dev io) rq in
  ({| ec_dev := d; issued := issued io ++ [call_xfer_status rq] |}, r).

Definition cros_ec_cmd (io : ec_io cros_ec_device) (version command : Z)
    (outdata : ec_data) (outsize insize : Z)
  : ec_io cros_ec_device * (Z * list ascii) :=
  let rq := {| rq_version := version; rq_command := command;
               rq_outsize := outsize; rq_insize := insize;
               rq_data := outdata |} in
  let '(d, r) := transport_cmd (ec_dev io) rq in
  ({| ec_dev := d; issued := issued io ++ [call_cmd rq] |}, r).

End Transport.

(** ** reboot_store *)

(** An entry of the table [words]. *)
Module reboot_word.
Record t := mk { str : list ascii; cmd : Z; flags : Z }.
End reboot_word.

(** The locals of [reboot_store] that the scan updates. *)
Record reboot_scan := {
  param : ec_params_reboot_ec.t;
  got_cmd : bool;
}.

(** [while (buf[offset] && isspace(buf[offset])) offset++;] over the rest of
    the buffer. *)
Fixpoint skip_spaces (s : list ascii) : list ascii :=
  match s with
  | [] => []
  | c :: s' =>
      if negb (Ascii.eqb c NUL) && isspace c then skip_spaces s' else s
  end.

(** [while (buf[offset] && !isspace(buf[offset])) offset++;] *)
Fixpoint skip_word (s : list ascii) : list ascii :=
  match s with
  | [] => []
  | c :: s' =>
      if negb (Ascii.eqb c NUL) && negb (isspace c) then skip_word s' else s
  end.

(** [!buf[offset]] *)
Definition at_end (s : list ascii) : bool := Ascii.eqb (deref s) NUL.

Lemma skip_spaces_length (s : list ascii) :
  (length (skip_spaces s) <= length s)%nat.
Proof.
  induction s as [|c s IH]; simpl; [lia|].
  destruct (negb (Ascii.eqb c NUL) && isspace c); simpl; lia.
Qed.

Lemma skip_word_length (s : list ascii) :
  (length (skip_word s) <= length s)%nat.
Proof.
  induction s as [|c s IH]; simpl; [lia|].
  destruct (negb (Ascii.eqb c NUL) && negb (isspace c)); simpl; lia.
Qed.

Lemma skip_spaces_head (s : list ascii) :
  at_end (skip_spaces s) = false -> isspace (deref (skip_spaces s)) = false.
Proof.
  induction s as [|c s IH]; simpl; [discriminate|].
  destruct (Ascii.eqb c NUL) eqn:E0; simpl.
  - unfold at_end; simpl. congruence.
  - destruct (isspace c) eqn:Es; [exact IH|]. intros _. exact Es.
Qed.

Lemma scan_progress (s : list ascii) :
  at_end (skip_spaces s) = false ->
  (length (skip_word (skip_spaces s)) < length s)%nat.
Proof.
  intros He. pose proof (skip_spaces_head s He) as Hs.
  pose proof (skip_spaces_length s) as Hl.
  destruct (skip_spaces s) as [|c t]; [discriminate|].
  unfold at_end in He. simpl in *. rewrite He, Hs. simpl.
  pose proof (skip_word_length t). lia.
Qed.

Section RebootStore.
Context `{ec_abi}.

Definition words : list reboot_word.t := [
  reboot_word.mk (lit "cancel") (u8 EC_REBOOT_CANCEL) 0;
  reboot_word.mk (lit "ro") (u8 EC_REBOOT_JUMP_RO) 0;
  reboot_word.mk (lit "rw") (u8 EC_REBOOT_JUMP_RW) 0;
  reboot_word.mk (lit "cold-ap-off") (u8 EC_REBOOT_COLD_AP_OFF) 0;
  reboot_word.mk (lit "cold") (u8 EC_REBOOT_COLD) 0;
  reboot_word.mk (lit "disable-jump") (u8 EC_REBOOT_DISABLE_JUMP) 0;
  reboot_word.mk (lit "hibernate") (u8 EC_REBOOT_HIBERNATE) 0;
  reboot_word.mk (lit "at-shutdown") (u8 (-1)) (u8 EC_REBOOT_FLAG_ON_AP_SHUTDOWN)
].

(** The body of the [if] inside the [for] loop, for the matching entry. *)
Definition apply_word (w : reboot_word.t) (st : reboot_scan) : reboot_scan :=
  if negb (reboot_word.flags w =? 0) then
    {| param :=
         ec_params_reboot_ec.mk
           (ec_params_reboot_ec.cmd (param st))
           (u8 (Z.lor (ec_params_reboot_ec.flags (param st)) (reboot_word.flags w)));
       got_cmd := got_cmd st |}
  else
    {| param :=
         ec_params_reboot_ec.mk
           (reboot_word.cmd w)
           (ec_params_reboot_ec.flags (param st));
       got_cmd := true |}.

(** [for (i = 0; i < ARRAY_SIZE(words); i++)] with its [break], over the
    entries from index [i] on; [s] is [buf + offset]. *)
Fixpoint match_words (ws : list reboot_word.t) (s : list ascii)
    (st : reboot_scan) : reboot_scan :=
  match ws with
  | [] => st
  | w :: ws' =>
      if strncasecmp (reboot_word.str w) s (strlen (reboot_word.str w)) =? 0
      then apply_word w st
      else match_words ws' s st
  end.

(** [while (1)]: skip the blanks, stop at the terminator, match the word that
    starts here, skip it. *)
#[local] Opaque match_words.
Equations? scan_words (s : list ascii) (st : reboot_scan) : reboot_scan
  by wf (length s) lt :=
  scan_words s st with Equations.Prop.Logic.inspect (at_end (skip_spaces s)) := {
    | exist _ true _ := st
    | exist _ false E :=
        scan_words (skip_word (skip_spaces s)) (match_words words (skip_spaces s) st) }.
Proof. now apply scan_progress. Qed.
#[local] Transparent match_words.

Context {cros_ec_device : Type} `{cros_ec_proto cros_ec_device}.

Definition reboot_store (ec : cros_ec_dev) (io : ec_io cros_ec_device)
    (kmalloc : option (cros_ec_command ec_params_reboot_ec.t))
    (buf : list ascii) (count : Z) : ec_io cros_ec_device * Z :=
  match kmalloc with
  | None => (io, - ENOMEM)
  | Some msg =>
      let param0 :=
        ec_params_reboot_ec.mk (ec_params_reboot_ec.cmd (data msg)) 0 in
      let st := scan_words buf {| param := param0; got_cmd := false |} in
      if negb (got_cmd st) then (io, - EINVAL)
      else
        let msg :=
          {| version := 0;
             command := u32 (EC_CMD_REBOOT_EC + cmd_offset ec);
             outsize := sizeof_ec_params_reboot_ec;
             insize := 0;
             result := result msg;
             data := param st |} in
        let '(io, r) :=
          cros_ec_cmd_xfer_status io (request_of_params data_reboot_ec msg) in
        if xfer_ret r <? 0 then (io, xfer_ret r) else (io, count)
  end.

End RebootStore.

(** ** Reading the response through [msg->data]

    The handlers read the response structs in place. A read or a store outside
    the array it addresses has no defined result: it is [None] here, and a
    handler that meets one has no result either. *)

Notation "'do' x <- m ; k" :=
  (match m with Some x => k | None => None end)
  (at level 10, x pattern, m at level 100, k at level 200, only parsing).

Definition LF : list ascii := ["010"%char].

(** The array member [f] of the struct at [data]. *)
Definition member (f : field) (data : list ascii) : list ascii :=
  take (sizeof f) (drop (offsetof f) data).

(** [f[sizeof(f) - 1] = '\0';] *)
Definition terminate (f : field) (data : list ascii) : option (list ascii) :=
  if ((0 <? sizeof f)%nat && (offsetof f + sizeof f <=? length data)%nat)%bool
  then Some (<[(offsetof f + sizeof f - 1)%nat := NUL]> data)
  else None.

(** The [%s] conversion applied to a character array: the characters before
    its first NUL, and no result when the array holds none. *)
Fixpoint fmt_s (a : list ascii) : option (list ascii) :=
  match a with
  | [] => None
  | c :: a' =>
      if Ascii.eqb c NUL then Some []
      else match fmt_s a' with Some s => Some (c :: s) | None => None end
  end.

(** The value of the bytes of an integer member, least significant first (the
    handlers read the members without conversion, as the protocol lays them
    out). *)
Fixpoint le_value (bs : list ascii) : Z :=
  match bs with
  | [] => 0
  | b :: bs' => code b + 2 ^ 8 * le_value bs'
  end.

Definition load (n off : nat) (data : list ascii) : option Z :=
  let bs := take n (drop off data) in
  if (length bs =? n)%nat then Some (le_value bs) else None.

Definition with_command {D} (c : Z) (msg : cros_ec_command D) :=
  {| version := version msg; command := c; outsize := outsize msg;
     insize := insize msg; result := result msg; data := data msg |}.

Definition with_insize {D} (n : Z) (msg : cros_ec_command D) :=
  {| version := version msg; command := command msg; outsize := outsize msg;
     insize := n; result := result msg; data := data msg |}.

Definition with_data {D} (d : D) (msg : cros_ec_command D) :=
  {| version := version msg; command := command msg; outsize := outsize msg;
     insize := insize msg; result := result msg; data := d |}.

Definition image_names : list (list ascii) := [lit "unknown"; lit "RO"; lit "RW"].

(** [!!x] *)
Definition notnot (x : Z) : Z := if x =? 0 then 0 else 1.

Section Handlers.
Context `{ec_abi} {cros_ec_device : Type} `{cros_ec_proto cros_ec_device}.

(** [ret = cros_ec_cmd_xfer_status(ec->ec_dev, msg);] on a message whose data
    the handler reads afterwards. *)
Definition xfer_in_place (io : ec_io cros_ec_device)
    (msg : cros_ec_command (list ascii))
  : ec_io cros_ec_device * cros_ec_command (list ascii) * Z :=
  let '(io, r) := cros_ec_cmd_xfer_status io (request_of_bytes msg) in
  (io,
   {| version := version msg; command := command msg; outsize := outsize msg;
      insize := insize msg; result := ec_result r;
      data := receive (payload r) (data msg) |},
   xfer_ret r).

(** ** version_show *)

Definition version_show (ec : cros_ec_dev) (io : ec_io cros_ec_device)
    (kmalloc : option (cros_ec_command (list ascii))) (buf : list ascii)
  : option (ec_io cros_ec_device * (Z * list ascii)) :=
  match kmalloc with
  | None => Some (io, (- ENOMEM, buf))
  | Some msg =>
      let count := 0 in
      (* Get versions. RW may change. *)
      let msg :=
        {| version := 0;
           command := u32 (EC_CMD_GET_VERSION + cmd_offset ec);
           outsize := 0;
           insize := sizeof_ec_response_get_version;
           result := result msg;
           data := data msg |} in
      let '(io, msg, ret) := xfer_in_place io msg in
      if ret <? 0 then Some (io, (ret, buf))
      else
        (* Strings should be null-terminated, but let's be sure. *)
        do d <- terminate version_string_ro (data msg);
        do d <- terminate version_string_rw d;
        let msg := with_data d msg in
        do s <- fmt_s (member version_string_ro (data msg));
        let '(buf, n) :=
          sysfs_emit_at buf count (lit "RO version:    " ++ s ++ LF) in
        let count := count + n in
        do s <- fmt_s (member version_string_rw (data msg));
        let '(buf, n) :=
          sysfs_emit_at buf count (lit "RW version:    " ++ s ++ LF) in
        let count := count + n in
        do image <- load 4 current_image (data msg);
        do s <-
          (if image <? Z.of_nat (length image_names)
           then image_names !! Z.to_nat image
           else Some (lit "?"));
        let '(buf, n) :=
          sysfs_emit_at buf count (lit "Firmware copy: " ++ s ++ LF) in
        let count := count + n in
        (* Get build info. *)
        let msg := with_command (u32 (EC_CMD_GET_BUILD_INFO + cmd_offset ec)) msg in
        let msg := with_insize (Z.of_nat EC_HOST_PARAM_SIZE) msg in
        let '(io, msg, ret) := xfer_in_place io msg in
        do (msg, buf, count) <-
          (if ret <? 0 then
             let '(buf, n) :=
               sysfs_emit_at buf count
                 (lit "Build info:    XFER / EC ERROR " ++ fmt_d ret
                  ++ lit " / " ++ fmt_d (int_of_u32 (result msg)) ++ LF) in
             Some (msg, buf, count + n)
           else
             do d <- terminate {| offsetof := 0; sizeof := EC_HOST_PARAM_SIZE |} (data msg);
             let msg := with_data d msg in
             do s <- fmt_s (take EC_HOST_PARAM_SIZE (data msg));
             let '(buf, n) :=
               sysfs_emit_at buf count (lit "Build info:    " ++ s ++ LF) in
             Some (msg, buf, count + n));
        (* Get chip info. *)
        let msg := with_command (u32 (EC_CMD_GET_CHIP_INFO + cmd_offset ec)) msg in
        let msg := with_insize sizeof_ec_response_get_chip_info msg in
        let '(io, msg, ret) := xfer_in_place io msg in
        do (msg, buf, count) <-
          (if ret <? 0 then
             let '(buf, n) :=
               sysfs_emit_at buf count
                 (lit "Chip info:     XFER / EC ERROR " ++ fmt_d ret
                  ++ lit " / " ++ fmt_d (int_of_u32 (result msg)) ++ LF) in
             Some (msg, buf, count + n)
           else
             do d <- terminate vendor (data msg);
             do d <- terminate name d;
             do d <- terminate revision d;
             let msg := with_data d msg in
             do s <- fmt_s (member vendor (data msg));
             let '(buf, n) :=
               sysfs_emit_at buf count (lit "Chip vendor:   " ++ s ++ LF) in
             let count := count + n in
             do s <- fmt_s (member name (data msg));
             let '(buf, n) :=
               sysfs_emit_at buf count (lit "Chip name:     " ++ s ++ LF) in
             let count := count + n in
             do s <- fmt_s (member revision (data msg));
             let '(buf, n) :=
               sysfs_emit_at buf count (lit "Chip revision: " ++ s ++ LF) in
             Some (msg, buf, count + n));
        (* Get board version *)
        let msg := with_command (u32 (EC_CMD_GET_BOARD_VERSION + cmd_offset ec)) msg in
        let msg := with_insize sizeof_ec_response_board_version msg in
        let '(io, msg, ret) := xfer_in_place io msg in
        do (buf, count) <-
          (if ret <? 0 then
             let '(buf, n) :=
               sysfs_emit_at buf count
                 (lit "Board version: XFER / EC ERROR " ++ fmt_d ret
                  ++ lit " / " ++ fmt_d (int_of_u32 (result msg)) ++ LF) in
             Some (buf, count + n)
           else
             do v <- load 2 board_version (data msg);
             let '(buf, n) :=
               sysfs_emit_at buf count (lit "Board version: " ++ fmt_d v ++ LF) in
             Some (buf, count + n));
        Some (io, (count, buf))
  end.

End Handlers.

(** ** kb_wake_angle_store *)

Section KbWakeAngle.
Context `{ec_abi} {cros_ec_device : Type} `{cros_ec_proto cros_ec_device}.

(** [kstrtou16] of lib/kstrtox.c, which is not part of this file: for a text
    and a base, its return value and the number it stores through its last
    argument. *)
Variable kstrtou16 : list ascii -> Z -> Z * Z.

Definition kb_wake_angle_store (ec : cros_ec_dev) (io : ec_io cros_ec_device)
    (kmalloc : option (cros_ec_command ec_params_motion_sense.t))
    (buf : list ascii) (count : Z) : ec_io cros_ec_device * Z :=
  let '(ret, angle) := kstrtou16 buf 0 in
  let angle := u16 angle in
  if negb (ret =? 0) then (io, ret)
  else
    match kmalloc with
    | None => (io, - ENOMEM)
    | Some msg =>
        let msg :=
          {| version := 2;
             command := u32 (EC_CMD_MOTION_SENSE_CMD + cmd_offset ec);
             outsize := sizeof_ec_params_motion_sense;
             insize := sizeof_ec_response_motion_sense;
             result := result msg;
             data :=
               ec_params_motion_sense.mk (u8 MOTIONSENSE_CMD_KB_WAKE_ANGLE) angle |} in
        let '(io, r) :=
          cros_ec_cmd_xfer_status io (request_of_params data_motion_sense msg) in
        if xfer_ret r <? 0 then (io, xfer_ret r) else (io, count)
    end.

End KbWakeAngle.

(** ** usbpdmuxinfo_show *)

Section UsbPdMuxInfo.
Context `{ec_abi} {cros_ec_device : Type} `{cros_ec_proto cros_ec_device}.

(** The body of the [for] loop at port [i]. *)
Definition mux_port (i : Z) (io : ec_io cros_ec_device) (buf : list ascii)
    (count : Z) : ec_io cros_ec_device * list ascii * Z :=
  let req := ec_params_usb_pd_mux_info.mk (u8 i) in
  let '(io, (ret, resp_mux)) :=
    cros_ec_cmd io 0 EC_CMD_USB_PD_MUX_INFO (data_usb_pd_mux_info req)
      sizeof_ec_params_usb_pd_mux_info sizeof_ec_response_usb_pd_mux_info in
  let flags := code (deref resp_mux) in
  if 0 <=? ret then
    let '(buf, n) := sysfs_emit_at buf count (lit "Port " ++ fmt_d i ++ lit ":") in
    let count := count + n in
    let '(buf, n) :=
      sysfs_emit_at buf count
        (lit " USB=" ++ fmt_d (notnot (Z.land flags USB_PD_MUX_USB_ENABLED))) in
    let count := count + n in
    let '(buf, n) :=
      sysfs_emit_at buf count
        (lit " DP=" ++ fmt_d (notnot (Z.land flags USB_PD_MUX_DP_ENABLED))) in
    let count := count + n in
    let '(buf, n) :=
      sysfs_emit_at buf count
        (lit " POLARITY="
         ++ (if negb (Z.land flags USB_PD_MUX_POLARITY_INVERTED =? 0)
             then lit "INVERTED" else lit "NORMAL")) in
    let count := count + n in
    let '(buf, n) :=
      sysfs_emit_at buf count
        (lit " HPD_IRQ=" ++ fmt_d (notnot (Z.land flags USB_PD_MUX_HPD_IRQ))) in
    let count := count + n in
    let '(buf, n) :=
      sysfs_emit_at buf count
        (lit " HPD_LVL=" ++ fmt_d (notnot (Z.land flags USB_PD_MUX_HPD_LVL))) in
    let count := count + n in
    let '(buf, n) :=
      sysfs_emit_at buf count
        (lit " SAFE=" ++ fmt_d (notnot (Z.land flags USB_PD_MUX_SAFE_MODE))) in
    let count := count + n in
    let '(buf, n) :=
      sysfs_emit_at buf count
        (lit " TBT=" ++ fmt_d (notnot (Z.land flags USB_PD_MUX_TBT_COMPAT_ENABLED))) in
    let count := count + n in
    let '(buf, n) :=
      sysfs_emit_at buf count
        (lit " USB4=" ++ fmt_d (notnot (Z.land flags USB_PD_MUX_USB4_ENABLED)) ++ LF) in
    (io, buf, count + n)
  else (io, buf, count).

(** [for (i = ...; i < resp_pd_ports.num_ports; i++)], with [n] iterations
    left when it is at port [i]. *)
Fixpoint mux_ports (n : nat) (i : Z) (io : ec_io cros_ec_device)
    (buf : list ascii) (count : Z) : ec_io cros_ec_device * list ascii * Z :=
  match n with
  | O => (io, buf, count)
  | S n' =>
      let '(io, buf, count) := mux_port i io buf count in
      mux_ports n' (i + 1) io buf count
  end.

Definition usbpdmuxinfo_show (ec : cros_ec_dev) (io : ec_io cros_ec_device)
    (buf : list ascii) : ec_io cros_ec_device * (Z * list ascii) :=
  let count := 0 in
  let '(io, (ret, resp_pd_ports)) :=
    cros_ec_cmd io 0 EC_CMD_USB_PD_PORTS (data_bytes []) 0
      sizeof_ec_response_usb_pd_ports in
  if ret <? 0 then (io, (- EIO, buf))
  else
    let num_ports := code (deref resp_pd_ports) in
    let '(io, buf, count) := mux_ports (Z.to_nat num_ports) 0 io buf count in
    (io, (if negb (count =? 0) then count else - EIO, buf)).

End UsbPdMuxInfo.

(** ** cros_ec_ctrl_visible *)

(** The members of [__ec_attrs]. *)
Inductive attribute :=
| dev_attr_kb_wake_angle
| dev_attr_reboot
| dev_attr_version
| dev_attr_flashinfo
| dev_attr_usbpdmuxinfo
| dev_attr_ap_mode_entry.

Definition attribute_eqb (a b : attribute) : bool :=
  match a, b with
  | dev_attr_kb_wake_angle, dev_attr_kb_wake_angle
  | dev_attr_reboot, dev_attr_reboot
  | dev_attr_version, dev_attr_version
  | dev_attr_flashinfo, dev_attr_flashinfo
  | dev_attr_usbpdmuxinfo, dev_attr_usbpdmuxinfo
  | dev_attr_ap_mode_entry, dev_attr_ap_mode_entry => true
  | _, _ => false
  end.

Section Visible.
Context `{ec_abi}.

(** [a->mode], as [DEVICE_ATTR_RW] and [DEVICE_ATTR_RO] declare it. *)
Definition mode (a : attribute) : Z :=
  match a with
  | dev_attr_reboot | dev_attr_kb_wake_angle => MODE_RW
  | dev_attr_version | dev_attr_flashinfo
  | dev_attr_usbpdmuxinfo | dev_attr_ap_mode_entry => MODE_RO
  end.

Definition cros_ec_ctrl_visible (ec : cros_ec_dev) (a : attribute) : Z :=
  if attribute_eqb a dev_attr_kb_wake_angle && negb (has_kb_wake_angle ec)
  then 0
  else if (attribute_eqb a dev_attr_usbpdmuxinfo
           || attribute_eqb a dev_attr_ap_mode_entry)
          && negb (strcmp (ec_name ec) CROS_EC_DEV_NAME =? 0)
  then 0
  else mode a.

End Visible.

(** ** reboot_show *)

(** Modelled from the spec: [sysfs_emit] of fs/sysfs/file.c is not under src/.
    It formats into the output page from its start, as [sysfs_emit_at] does at
    offset 0, and returns the number of characters written. *)
Definition sysfs_emit (buf text : list ascii) : list ascii * Z :=
  sysfs_emit_at buf 0 text.

Definition reboot_show (buf : list ascii) : Z * list ascii :=
  let count := 0 in
  let '(buf, n) :=
    sysfs_emit_at buf count
      (lit "ro|rw|cancel|cold|disable-jump|hibernate|cold-ap-off") in
  let count := count + n in
  let '(buf, n) := sysfs_emit_at buf count (lit " [at-shutdown]" ++ LF) in
  let count := count + n in
  (count, buf).

(** ** flashinfo_show and kb_wake_angle_show *)

(** What these two handlers take from the absent headers besides [ec_abi]:
    the flash-info command, the size of [struct ec_response_flash_info] and
    the offsets of its four [uint32_t] members; the value that asks the
    motion-sense command for the current angle, as the parameter struct holds
    it; the bytes of the message buffer after the stores through
    [struct ec_params_motion_sense *], and the value of
    [resp->kb_wake_angle.ret] in the bytes of a response. *)
Class ec_abi_show := {
  EC_CMD_FLASH_INFO : Z;
  sizeof_ec_response_flash_info : nat;
  flash_size : nat;
  write_block_size : nat;
  erase_block_size : nat;
  protect_block_size : nat;
  EC_MOTION_SENSE_NO_VALUE : Z;
  store_ec_params_motion_sense :
    ec_params_motion_sense.t -> list ascii -> list ascii;
  kb_wake_angle_ret : list ascii -> Z;
}.

(** What flashinfo_show relies on: the four members lie inside the response
    struct. *)
Record flash_info_ok `{ec_abi_show} : Prop := {
  flash_size_fits : (flash_size + 4 <= sizeof_ec_response_flash_info)%nat;
  write_block_size_fits :
    (write_block_size + 4 <= sizeof_ec_response_flash_info)%nat;
  erase_block_size_fits :
    (erase_block_size + 4 <= sizeof_ec_response_flash_info)%nat;
  protect_block_size_fits :
    (protect_block_size + 4 <= sizeof_ec_response_flash_info)%nat;
}.

Section ShowHandlers.
Context `{ec_abi} `{ec_abi_show}.
Context {cros_ec_device : Type} `{cros_ec_proto cros_ec_device}.

Definition flashinfo_show (ec : cros_ec_dev) (io : ec_io cros_ec_device)
    (kmalloc : option (cros_ec_command (list ascii))) (buf : list ascii)
  : option (ec_io cros_ec_device * (Z * list ascii)) :=
  match kmalloc with
  | None => Some (io, (- ENOMEM, buf))
  | Some msg =>
      (* The flash info shouldn't ever change, but ask each time anyway. *)
      let msg :=
        {| version := 0;
           command := u32 (EC_CMD_FLASH_INFO + cmd_offset ec);
           outsize := 0;
           insize := Z.of_nat sizeof_ec_response_flash_info;
           result := result msg;
           data := data msg |} in
      let '(io, msg, ret) := xfer_in_place io msg in
      if ret <? 0 then Some (io, (ret, buf))
      else
        do flash <- load 4 flash_size (data msg);
        do write <- load 4 write_block_size (data msg);
        do erase <- load 4 erase_block_size (data msg);
        do protect <- load 4 protect_block_size (data msg);
        let '(buf, ret) :=
          sysfs_emit buf
            (lit "FlashSize " ++ fmt_d (int_of_u32 flash) ++ LF
             ++ lit "WriteSize " ++ fmt_d (int_of_u32 write) ++ LF
             ++ lit "EraseSize " ++ fmt_d (int_of_u32 erase) ++ LF
             ++ lit "ProtectSize " ++ fmt_d (int_of_u32 protect) ++ LF) in
        Some (io, (ret, buf))
  end.

Definition kb_wake_angle_show (ec : cros_ec_dev) (io : ec_io cros_ec_device)
    (kmalloc : option (cros_ec_command (list ascii))) (buf : list ascii)
  : ec_io cros_ec_device * (Z * list ascii) :=
  match kmalloc with
  | None => (io, (- ENOMEM, buf))
  | Some msg =>
      let param :=
        ec_params_motion_sense.mk (u8 MOTIONSENSE_CMD_KB_WAKE_ANGLE)
          EC_MOTION_SENSE_NO_VALUE in
      let msg :=
        {| version := 2;
           command := u32 (EC_CMD_MOTION_SENSE_CMD + cmd_offset ec);
           outsize := sizeof_ec_params_motion_sense;
           insize := sizeof_ec_response_motion_sense;
           result := result msg;
           data := store_ec_params_motion_sense param (data msg) |} in
      let '(io, r) :=
        cros_ec_cmd_xfer_status io
          {| rq_version := version msg; rq_command := command msg;
             rq_outsize := outsize msg; rq_insize := insize msg;
             rq_data := data_motion_sense param |} in
      if xfer_ret r <? 0 then (io, (xfer_ret r, buf))
      else
        let resp := receive (payload r) (data msg) in
        let '(buf, ret) := sysfs_emit buf (fmt_d (kb_wake_angle_ret resp) ++ LF) in
        (io, (ret, buf))
  end.

End ShowHandlers.

(** ** The attribute group *)

Definition __ec_attrs : list attribute := [
  dev_attr_kb_wake_angle;
  dev_attr_reboot;
  dev_attr_version;
  dev_attr_flashinfo;
  dev_attr_usbpdmuxinfo;
  dev_attr_ap_mode_entry
].

(** * Reference definitions for the statements *)

(** ** Tokens of the input of reboot_store *)

(** The longest prefix of characters satisfying [p], and what follows it. *)
Fixpoint take_while (p : ascii -> bool) (s : list ascii) : list ascii :=
  match s with
  | [] => []
  | c :: s' => if p c then c :: take_while p s' else []
  end.

Fixpoint drop_while (p : ascii -> bool) (s : list ascii) : list ascii :=
  match s with
  | [] => []
  | c :: s' => if p c then drop_while p s' else s
  end.

(** [!isspace(c)] *)
Definition nonspace (c : ascii) : bool := negb (isspace c).

Lemma drop_while_length (p : ascii -> bool) (s : list ascii) :
  (length (drop_while p s) <= length s)%nat.
Proof.
  induction s as [|c s IH]; simpl; [lia|]. destruct (p c); simpl; lia.
Qed.

(** The maximal runs of non-blank characters of a text, in order. *)
Equations? tokens (s : list ascii) : list (list ascii) by wf (length s) lt :=
  tokens s with Equations.Prop.Logic.inspect (drop_while isspace s) := {
    | exist _ [] _ := []
    | exist _ (c :: t) E :=
        (c :: take_while nonspace t) :: tokens (drop_while nonspace t) }.
Proof.
  pose proof (drop_while_length isspace s) as H1.
  pose proof (drop_while_length nonspace t) as H2.
  rewrite E in H1. simpl in H1. lia.
Qed.

(** Equality of two characters up to case. *)
Definition ci_eqb (c1 c2 : ascii) : bool := Ascii.eqb (tolower c1) (tolower c2).

(** [tok] begins with [w], up to case. *)
Fixpoint begins_with (w tok : list ascii) : bool :=
  match w, tok with
  | [], _ => true
  | _ :: _, [] => false
  | c1 :: w', c2 :: tok' => ci_eqb c1 c2 && begins_with w' tok'
  end.

(** A character of a table word: not the terminator, and no blank even after
    case folding. *)
Definition word_char (c : ascii) : bool :=
  negb (Ascii.eqb c NUL) && negb (isspace c) && negb (isspace (tolower c)).

(** What follows a token in the buffer: the end, the terminator or a blank. *)
Definition boundary (rest : list ascii) : bool :=
  at_end rest || isspace (deref rest).

(** A character other than the terminator. *)
Definition nonnul (c : ascii) : bool := negb (Ascii.eqb c NUL).

Section RebootReference.
Context `{ec_abi}.

(** The first entry of the table whose word begins the token. *)
Definition recognize (tok : list ascii) : option reboot_word.t :=
  List.find (fun w => begins_with (reboot_word.str w) tok) words.

(** The reboot-type codes of the tokens that name a reboot type, in input
    order. *)
Fixpoint type_codes (toks : list (list ascii)) : list Z :=
  match toks with
  | [] => []
  | tok :: toks' =>
      match recognize tok with
      | Some w =>
          if reboot_word.flags w =? 0
          then reboot_word.cmd w :: type_codes toks'
          else type_codes toks'
      | None => type_codes toks'
      end
  end.

(** Whether some token is recognized as the flag word. *)
Definition has_flag_token (toks : list (list ascii)) : bool :=
  existsb (fun tok =>
             match recognize tok with
             | Some w => negb (reboot_word.flags w =? 0)
             | None => false
             end) toks.

(** The request reboot_store sends for a reboot-type code and the flags. *)
Definition reboot_request (ec : cros_ec_dev) (cmd flags : Z) : ec_request :=
  {| rq_version := 0;
     rq_command := u32 (EC_CMD_REBOOT_EC + cmd_offset ec);
     rq_outsize := sizeof_ec_params_reboot_ec;
     rq_insize := 0;
     rq_data := data_reboot_ec (ec_params_reboot_ec.mk cmd flags) |}.

(** What a token does to the locals of the scan. *)
Definition apply_token (st : reboot_scan) (tok : list ascii) : reboot_scan :=
  match recognize tok with
  | Some w => apply_word w st
  | None => st
  end.

(** The locals after a list of tokens: the code of the last reboot-type
    token, the shutdown flag if a token asked for it. *)
Definition scan_result (st : reboot_scan) (toks : list (list ascii)) : reboot_scan :=
  {| param :=
       ec_params_reboot_ec.mk
         (default (ec_params_reboot_ec.cmd (param st)) (last (type_codes toks)))
         (if has_flag_token toks then u8 EC_REBOOT_FLAG_ON_AP_SHUTDOWN
          else ec_params_reboot_ec.flags (param st));
     got_cmd :=
       got_cmd st || match type_codes toks with [] => false | _ => true end |}.

Context {cros_ec_device : Type} `{cros_ec_proto cros_ec_device}.

(** What reboot_store does once it has a reboot-type code: one exchange with
    that code and the flags; the write returns the byte count unless the
    exchange fails. *)
Definition send_reboot (ec : cros_ec_dev) (io : ec_io cros_ec_device)
    (cmd flags count : Z) : ec_io cros_ec_device * Z :=
  let rq := reboot_request ec cmd flags in
  let '(d, r) := transport_xfer_status (ec_dev io) rq in
  ({| ec_dev := d; issued := issued io ++ [call_xfer_status rq] |},
   if xfer_ret r <? 0 then xfer_ret r else count).

End RebootReference.

(** ** The requests and texts of the other handlers *)

Section KbWakeAngleReference.
Context `{ec_abi}.

(** The request that carries a new angle. *)
Definition kb_wake_angle_request (ec : cros_ec_dev) (angle : Z) : ec_request :=
  {| rq_version := 2;
     rq_command := u32 (EC_CMD_MOTION_SENSE_CMD + cmd_offset ec);
     rq_outsize := sizeof_ec_params_motion_sense;
     rq_insize := sizeof_ec_response_motion_sense;
     rq_data :=
       data_motion_sense
         (ec_params_motion_sense.mk (u8 MOTIONSENSE_CMD_KB_WAKE_ANGLE) angle) |}.

End KbWakeAngleReference.

Section UsbPdMuxReference.
Context `{ec_abi} {cros_ec_device : Type} `{cros_ec_proto cros_ec_device}.

(** The port-count query and the mux-info query of port [i]. *)
Definition ports_request : ec_request :=
  {| rq_version := 0; rq_command := EC_CMD_USB_PD_PORTS; rq_outsize := 0;
     rq_insize := sizeof_ec_response_usb_pd_ports; rq_data := data_bytes [] |}.

Definition mux_request (i : Z) : ec_request :=
  {| rq_version := 0; rq_command := EC_CMD_USB_PD_MUX_INFO;
     rq_outsize := sizeof_ec_params_usb_pd_mux_info;
     rq_insize := sizeof_ec_response_usb_pd_mux_info;
     rq_data := data_usb_pd_mux_info (ec_params_usb_pd_mux_info.mk (u8 i)) |}.

(** The answer to the mux-info query of one port. *)
Record port_reply := { pr_port : Z; pr_ret : Z; pr_flags : Z }.

(** [ret >= 0] *)
Definition port_ok (r : port_reply) : bool := 0 <=? pr_ret r.

(** The answers of the controller to the mux-info queries of [n] ports from
    port [i] on, asked in ascending order, and the controller afterwards. *)
Fixpoint poll_ports (n : nat) (i : Z) (d : cros_ec_device)
  : list port_reply * cros_ec_device :=
  match n with
  | O => ([], d)
  | S n' =>
      let '(d, (ret, resp)) := transport_cmd d (mux_request i) in
      let '(rs, d) := poll_ports n' (i + 1) d in
      ({| pr_port := i; pr_ret := ret; pr_flags := code (deref resp) |} :: rs, d)
  end.

(** A flag printed as 0 or 1. *)
Definition flag_bit (flags mask : Z) : list ascii :=
  fmt_d (notnot (Z.land flags mask)).

(** The line of a port: its index and the eight flags by name. *)
Definition port_line (i flags : Z) : list ascii :=
  lit "Port " ++ fmt_d i ++ lit ":"
  ++ lit " USB=" ++ flag_bit flags USB_PD_MUX_USB_ENABLED
  ++ lit " DP=" ++ flag_bit flags USB_PD_MUX_DP_ENABLED
  ++ lit " POLARITY="
  ++ (if negb (Z.land flags USB_PD_MUX_POLARITY_INVERTED =? 0)
      then lit "INVERTED" else lit "NORMAL")
  ++ lit " HPD_IRQ=" ++ flag_bit flags USB_PD_MUX_HPD_IRQ
  ++ lit " HPD_LVL=" ++ flag_bit flags USB_PD_MUX_HPD_LVL
  ++ lit " SAFE=" ++ flag_bit flags USB_PD_MUX_SAFE_MODE
  ++ lit " TBT=" ++ flag_bit flags USB_PD_MUX_TBT_COMPAT_ENABLED
  ++ lit " USB4=" ++ flag_bit flags USB_PD_MUX_USB4_ENABLED ++ LF.

(** The lines of the ports that answered, in the order of the answers. *)
Definition mux_text (rs : list port_reply) : list ascii :=
  concat (map (fun r => port_line (pr_port r) (pr_flags r)) (List.filter port_ok rs)).

(** The call that asked for an answer. *)
Definition mux_call (r : port_reply) : ec_call := call_cmd (mux_request (pr_port r)).

End UsbPdMuxReference.

Section VersionReference.
Context `{ec_abi}.

(** The request of a sub-query of the version attribute. *)
Definition version_request (ec : cros_ec_dev) (cmd insize : Z) : ec_request :=
  {| rq_version := 0; rq_command := u32 (cmd + cmd_offset ec); rq_outsize := 0;
     rq_insize := insize; rq_data := data_bytes [] |}.

Definition get_version_request (ec : cros_ec_dev) : ec_request :=
  version_request ec EC_CMD_GET_VERSION sizeof_ec_response_get_version.

Definition get_build_info_request (ec : cros_ec_dev) : ec_request :=
  version_request ec EC_CMD_GET_BUILD_INFO (Z.of_nat EC_HOST_PARAM_SIZE).

Definition get_chip_info_request (ec : cros_ec_dev) : ec_request :=
  version_request ec EC_CMD_GET_CHIP_INFO sizeof_ec_response_get_chip_info.

Definition get_board_version_request (ec : cros_ec_dev) : ec_request :=
  version_request ec EC_CMD_GET_BOARD_VERSION sizeof_ec_response_board_version.

(** The buffer with the last byte of a string member set to NUL. *)
Definition set_last (f : field) (d : list ascii) : list ascii :=
  <[(offsetof f + sizeof f - 1)%nat := NUL]> d.

(** The text of a string member: the characters before its first NUL among
    all its bytes but the last. *)
Definition field_text (f : field) (d : list ascii) : list ascii :=
  cstring (take (sizeof f - 1) (member f d)).

(** The whole message buffer as a string member (the build-info blob). *)
Definition build_info : field := {| offsetof := 0; sizeof := EC_HOST_PARAM_SIZE |}.

(** The string members version_show formats. *)
Definition string_fields : list field :=
  [version_string_ro; version_string_rw; build_info; vendor; name; revision].

(** The name of the running image. *)
Definition image_text (v : Z) : list ascii :=
  if v =? 0 then lit "unknown"
  else if v =? 1 then lit "RO"
  else if v =? 2 then lit "RW"
  else lit "?".

(** The diagnostic line of a failed sub-query. *)
Definition diagnostic (label : list ascii) (r : xfer_result) : list ascii :=
  label ++ lit "XFER / EC ERROR " ++ fmt_d (xfer_ret r) ++ lit " / "
  ++ fmt_d (int_of_u32 (ec_result r)) ++ LF.

(** The message buffer after each sub-query, from its reply and the buffer
    before it. *)
Definition after_get_version (r : xfer_result) (d : list ascii) : list ascii :=
  set_last version_string_rw (set_last version_string_ro (receive (payload r) d)).

Definition after_get_build_info (r : xfer_result) (d : list ascii) : list ascii :=
  if xfer_ret r <? 0 then receive (payload r) d
  else set_last build_info (receive (payload r) d).

Definition after_get_chip_info (r : xfer_result) (d : list ascii) : list ascii :=
  if xfer_ret r <? 0 then receive (payload r) d
  else set_last revision (set_last name (set_last vendor (receive (payload r) d))).

Definition after_get_board_version (r : xfer_result) (d : list ascii) : list ascii :=
  receive (payload r) d.

(** The lines of each sub-query, from its reply and the buffer after it. *)
Definition version_text (d : list ascii) : list ascii :=
  lit "RO version:    " ++ field_text version_string_ro d ++ LF
  ++ lit "RW version:    " ++ field_text version_string_rw d ++ LF
  ++ lit "Firmware copy: "
  ++ image_text (le_value (take 4 (drop current_image d))) ++ LF.

Definition build_info_text (r : xfer_result) (d : list ascii) : list ascii :=
  if xfer_ret r <? 0 then diagnostic (lit "Build info:    ") r
  else lit "Build info:    " ++ field_text build_info d ++ LF.

Definition chip_info_text (r : xfer_result) (d : list ascii) : list ascii :=
  if xfer_ret r <? 0 then diagnostic (lit "Chip info:     ") r
  else
    lit "Chip vendor:   " ++ field_text vendor d ++ LF
    ++ lit "Chip name:     " ++ field_text name d ++ LF
    ++ lit "Chip revision: " ++ field_text revision d ++ LF.

Definition board_version_text (r : xfer_result) (d : list ascii) : list ascii :=
  if xfer_ret r <? 0 then diagnostic (lit "Board version: ") r
  else
    lit "Board version: " ++ fmt_d (le_value (take 2 (drop board_version d))) ++ LF.

Context {cros_ec_device : Type} `{cros_ec_proto cros_ec_device}.

(** The outcome of the read, from the replies of the four sub-queries. *)
Definition version_outcome (ec : cros_ec_dev) (io : ec_io cros_ec_device)
    (d0 buf : list ascii) : ec_io cros_ec_device * (Z * list ascii) :=
  let '(dv1, r1) := transport_xfer_status (ec_dev io) (get_version_request ec) in
  if xfer_ret r1 <? 0 then
    ({| ec_dev := dv1;
        issued := issued io ++ [call_xfer_status (get_version_request ec)] |},
     (xfer_ret r1, buf))
  else
    let '(dv2, r2) := transport_xfer_status dv1 (get_build_info_request ec) in
    let '(dv3, r3) := transport_xfer_status dv2 (get_chip_info_request ec) in
    let '(dv4, r4) := transport_xfer_status dv3 (get_board_version_request ec) in
    let d1 := after_get_version r1 d0 in
    let d2 := after_get_build_info r2 d1 in
    let d3 := after_get_chip_info r3 d2 in
    let d4 := after_get_board_version r4 d3 in
    let text :=
      version_text d1 ++ build_info_text r2 d2 ++ chip_info_text r3 d3
      ++ board_version_text r4 d4 in
    ({| ec_dev := dv4;
        issued :=
          issued io
          ++ [call_xfer_status (get_version_request ec);
              call_xfer_status (get_build_info_request ec);
              call_xfer_status (get_chip_info_request ec);
              call_xfer_status (get_board_version_request ec)] |},
     (Z.of_nat (length text), text)).

End VersionReference.

(** The buffer after [f[sizeof(f) - 1] = '\0';] for each of the string
    members [fs], in this order. *)
Definition set_lasts (fs : list field) (d : list ascii) : list ascii :=
  fold_left (fun d f => set_last f d) fs d.

(** The last byte of [g] is not among the bytes of [f] before its last one. *)
Definition apart (f g : field) : Prop :=
  (offsetof g + sizeof g - 1 < offsetof f
   \/ offsetof f + sizeof f - 1 <= offsetof g + sizeof g - 1)%nat.

(** ** An instance of the interface and a scripted controller

    Used to run the handlers on examples. *)

Definition example_abi : ec_abi := {|
  EIO := 5; ENOMEM := 12; EINVAL := 22;
  EC_CMD_REBOOT_EC := 210;
  EC_CMD_GET_VERSION := 2;
  EC_CMD_GET_BUILD_INFO := 4;
  EC_CMD_GET_CHIP_INFO := 5;
  EC_CMD_GET_BOARD_VERSION := 6;
  EC_CMD_MOTION_SENSE_CMD := 43;
  EC_CMD_USB_PD_PORTS := 258;
  EC_CMD_USB_PD_MUX_INFO := 282;
  EC_REBOOT_CANCEL := 0;
  EC_REBOOT_JUMP_RO := 1;
  EC_REBOOT_JUMP_RW := 2;
  EC_REBOOT_COLD := 4;
  EC_REBOOT_DISABLE_JUMP := 5;
  EC_REBOOT_HIBERNATE := 6;
  EC_REBOOT_COLD_AP_OFF := 8;
  EC_REBOOT_FLAG_ON_AP_SHUTDOWN := 2;
  MOTIONSENSE_CMD_KB_WAKE_ANGLE := 5;
  USB_PD_MUX_USB_ENABLED := 1;
  USB_PD_MUX_DP_ENABLED := 2;
  USB_PD_MUX_POLARITY_INVERTED := 4;
  USB_PD_MUX_HPD_IRQ := 8;
  USB_PD_MUX_HPD_LVL := 16;
  USB_PD_MUX_SAFE_MODE := 32;
  USB_PD_MUX_TBT_COMPAT_ENABLED := 64;
  USB_PD_MUX_USB4_ENABLED := 128;
  EC_HOST_PARAM_SIZE := 252;
  sizeof_ec_params_reboot_ec := 2;
  sizeof_ec_params_motion_sense := 32;
  sizeof_ec_response_motion_sense := 32;
  sizeof_ec_response_get_version := 100;
  sizeof_ec_response_get_chip_info := 96;
  sizeof_ec_response_board_version := 2;
  sizeof_ec_params_usb_pd_mux_info := 1;
  sizeof_ec_response_usb_pd_ports := 1;
  sizeof_ec_response_usb_pd_mux_info := 1;
  version_string_ro := {| offsetof := 0; sizeof := 32 |};
  version_string_rw := {| offsetof := 32; sizeof := 32 |};
  current_image := 96;
  vendor := {| offsetof := 0; sizeof := 32 |};
  name := {| offsetof := 32; sizeof := 32 |};
  revision := {| offsetof := 64; sizeof := 32 |};
  board_version := 0;
  CROS_EC_DEV_NAME := lit "cros_ec";
  MODE_RW := 420;
  MODE_RO := 292;
|}.

(** A controller that answers from two scripts, one per entry point, and
    fails with -5 once a script is used up. *)
Record scripted := {
  xfer_script : list xfer_result;
  cmd_script : list (Z * list ascii);
}.

Definition scripted_proto : cros_ec_proto scripted := {|
  transport_xfer_status d _ :=
    match xfer_script d with
    | r :: rs => ({| xfer_script := rs; cmd_script := cmd_script d |}, r)
    | [] => (d, {| xfer_ret := -5; ec_result := 0; payload := [] |})
    end;
  transport_cmd d _ :=
    match cmd_script d with
    | r :: rs => ({| xfer_script := xfer_script d; cmd_script := rs |}, r)
    | [] => (d, (-5, []))
    end;
|}.

Definition fresh (d : scripted) : ec_io scripted := {| ec_dev := d; issued := [] |}.

Definition example_ec : cros_ec_dev :=
  {| cmd_offset := 0; has_kb_wake_angle := true; ec_name := lit "cros_ec" |}.

(** A freshly allocated message: arbitrary values in the header, the given
    contents in the data. *)
Definition junk_msg {D} (d : D) : cros_ec_command D :=
  {| version := 7; command := 7; outsize := 7; insize := 7; result := 7; data := d |}.

Definition ok_reply : xfer_result :=
  {| xfer_ret := 0; ec_result := 0; payload := [] |}.

Definition one_reply : ec_io scripted :=
  fresh {| xfer_script := [ok_reply]; cmd_script := [] |}.

Definition scan0 : reboot_scan :=
  {| param := ec_params_reboot_ec.mk 0 0; got_cmd := false |}.

Definition pad (n : nat) (s : list ascii) : list ascii :=
  s ++ repeat NUL (n - length s).

(** A get-version reply whose RW string fills its 32 bytes without a NUL. *)
Definition version_reply : xfer_result :=
  {| xfer_ret := 100; ec_result := 0;
     payload := pad 32 (lit "ro_v1.0") ++ repeat "B"%char 32 ++ repeat NUL 32
                ++ ["002"%char; NUL; NUL; NUL] |}.

(** A get-version reply whose current_image is 16777216. *)
Definition odd_image_reply : xfer_result :=
  {| xfer_ret := 100; ec_result := 0;
     payload := pad 32 (lit "ro_v1.0") ++ pad 32 (lit "rw_v1.1") ++ repeat NUL 32
                ++ [NUL; NUL; NUL; "001"%char] |}.

Definition failed_reply : xfer_result :=
  {| xfer_ret := -71; ec_result := 3; payload := [] |}.

Definition chip_reply : xfer_result :=
  {| xfer_ret := 96; ec_result := 0;
     payload := pad 32 (lit "acme") ++ pad 32 (lit "ec9000") ++ pad 32 (lit "rev_b") |}.

Definition board_reply : xfer_result :=
  {| xfer_ret := 2; ec_result := 0; payload := ["007"%char; NUL] |}.

Definition fresh_msg : cros_ec_command (list ascii) :=
  junk_msg (repeat "x"%char 252).

Definition script (rs : list xfer_result) : scripted :=
  {| xfer_script := rs; cmd_script := [] |}.

Definition build_info_fails_text : list ascii :=
  lit "RO version:    ro_v1.0" ++ LF
  ++ lit "RW version:    BBBBBBBBBBBBBBBBBBBBBBBBBBBBBBB" ++ LF
  ++ lit "Firmware copy: RW" ++ LF
  ++ lit "Build info:    XFER / EC ERROR -71 / 3" ++ LF
  ++ lit "Chip vendor:   acme" ++ LF
  ++ lit "Chip name:     ec9000" ++ LF
  ++ lit "Chip revision: rev_b" ++ LF
  ++ lit "Board version: 7" ++ LF.

(** ** Definitions for the further properties *)

(** The keywords a help text lists: its maximal runs of characters other than
    blanks, bars and square brackets. *)
Definition keyword_char (c : ascii) : ascii :=
  if (Ascii.eqb c "|" || Ascii.eqb c "[" || Ascii.eqb c "]")%bool then " "%char
  else c.

Definition keywords (text : list ascii) : list (list ascii) :=
  tokens (map keyword_char text).

(** Two states of the scan that differ at most in a command byte that no
    token has assigned yet. *)
Definition same_but_unset (st st' : reboot_scan) : Prop :=
  ec_params_reboot_ec.flags (param st) = ec_params_reboot_ec.flags (param st')
  /\ got_cmd st = got_cmd st'
  /\ (got_cmd st = true ->
      ec_params_reboot_ec.cmd (param st) = ec_params_reboot_ec.cmd (param st')).

(** What kb_wake_angle_show relies on: the stores through the parameter struct
    keep the size of the message buffer. *)
Definition store_keeps_size `{ec_abi_show} : Prop :=
  forall (p : ec_params_motion_sense.t) (b : list ascii),
    length (store_ec_params_motion_sense p b) = length b.

Section ShowReference.
Context `{ec_abi} `{ec_abi_show}.

(** The query of the flash geometry. *)
Definition flashinfo_request (ec : cros_ec_dev) : ec_request :=
  version_request ec EC_CMD_FLASH_INFO (Z.of_nat sizeof_ec_response_flash_info).

(** A [uint32_t] member at an offset of the buffer, as [%d] prints it. *)
Definition printed_u32 (off : nat) (d : list ascii) : list ascii :=
  fmt_d (int_of_u32 (le_value (take 4 (drop off d)))).

(** The four lines of the flash geometry. *)
Definition flashinfo_text (d : list ascii) : list ascii :=
  lit "FlashSize " ++ printed_u32 flash_size d ++ LF
  ++ lit "WriteSize " ++ printed_u32 write_block_size d ++ LF
  ++ lit "EraseSize " ++ printed_u32 erase_block_size d ++ LF
  ++ lit "ProtectSize " ++ printed_u32 protect_block_size d ++ LF.

(** The attributes of the group whose mode is not 0 for a device, in the
    order of the array. *)
Definition visible_attrs (ec : cros_ec_dev) : list attribute :=
  List.filter (fun a => negb (cros_ec_ctrl_visible ec a =? 0)) __ec_attrs.

Context {cros_ec_device : Type} `{cros_ec_proto cros_ec_device}.

(** A controller that keeps the wake angle [angle]: if it accepts the request
    that sets it, it answers the query that follows, and the response then
    holds [angle], whatever the buffer held before. *)
Definition keeps_wake_angle (ec : cros_ec_dev) (d : cros_ec_device)
    (angle : Z) : Prop :=
  forall (d1 : cros_ec_device) (r1 : xfer_result),
    transport_xfer_status d (kb_wake_angle_request ec angle) = (d1, r1) ->
    0 <= xfer_ret r1 ->
    forall (d2 : cros_ec_device) (r2 : xfer_result),
      transport_xfer_status d1
        (kb_wake_angle_request ec EC_MOTION_SENSE_NO_VALUE) = (d2, r2) ->
      0 <= xfer_ret r2
      /\ forall b : list ascii,
           length b = EC_HOST_PARAM_SIZE ->
           kb_wake_angle_ret (receive (payload r2) b) = angle.

End ShowReference.

(** A character of a printed number: a decimal digit or the sign. *)
Definition decimal_char (c : ascii) : bool :=
  ((48 <=? code c) && (code c <=? 57)) || (code c =? 45).

(** A character other than the line feed. *)
Definition not_LF (c : ascii) : bool := negb (Ascii.eqb "010" c).

Section UsbPdMuxLine.
Context `{ec_abi}.

(** The line of a port without its index and its line feed. *)
Definition flags_text (flags : Z) : list ascii :=
  lit " USB=" ++ flag_bit flags USB_PD_MUX_USB_ENABLED
  ++ lit " DP=" ++ flag_bit flags USB_PD_MUX_DP_ENABLED
  ++ lit " POLARITY="
  ++ (if negb (Z.land flags USB_PD_MUX_POLARITY_INVERTED =? 0)
      then lit "INVERTED" else lit "NORMAL")
  ++ lit " HPD_IRQ=" ++ flag_bit flags USB_PD_MUX_HPD_IRQ
  ++ lit " HPD_LVL=" ++ flag_bit flags USB_PD_MUX_HPD_LVL
  ++ lit " SAFE=" ++ flag_bit flags USB_PD_MUX_SAFE_MODE
  ++ lit " TBT=" ++ flag_bit flags USB_PD_MUX_TBT_COMPAT_ENABLED
  ++ lit " USB4=" ++ flag_bit flags USB_PD_MUX_USB4_ENABLED.

End UsbPdMuxLine.

Section UsbPdMuxOutput.
Context `{ec_abi} {cros_ec_device : Type} `{cros_ec_proto cros_ec_device}.

(** What a reader of the attribute gets: the first [ret] characters of the
    page, nothing when the read fails. *)
Definition usbpdmuxinfo_output (ec : cros_ec_dev) (io : ec_io cros_ec_device)
    (buf : list ascii) : list ascii :=
  let '(_, (ret, out)) := usbpdmuxinfo_show ec io buf in
  take (Z.to_nat ret) out.

(** The answers to the mux-info queries of a read, in port order; none when
    the port-count query fails. *)
Definition mux_replies (io : ec_io cros_ec_device) : list port_reply :=
  let '(d, (ret, resp)) := transport_cmd (ec_dev io) ports_request in
  if ret <? 0 then []
  else fst (poll_ports (Z.to_nat (code (deref resp))) 0 d).

(** The state of a port as its line shows it: the index, and whether each of
    the eight flags is set. *)
Definition port_state (r : port_reply) : Z * list bool :=
  (pr_port r,
   map (fun mask => negb (Z.land (pr_flags r) mask =? 0))
     [USB_PD_MUX_USB_ENABLED; USB_PD_MUX_DP_ENABLED;
      USB_PD_MUX_POLARITY_INVERTED; USB_PD_MUX_HPD_IRQ; USB_PD_MUX_HPD_LVL;
      USB_PD_MUX_SAFE_MODE; USB_PD_MUX_TBT_COMPAT_ENABLED;
      USB_PD_MUX_USB4_ENABLED]).

End UsbPdMuxOutput.

(** The number of lines of a text: its line feeds. *)
Definition lines (text : list ascii) : nat :=
  length (List.filter (Ascii.eqb "010") text).

(** The size of the output page of a read, [PAGE_SIZE] of <asm/page.h>, which
    is not under src/. *)
Class sysfs_page := { PAGE_SIZE : nat }.

(** Modelled from the spec: the bound that [sysfs_emit_at] of fs/sysfs/file.c
    (not under src/) puts on the page is not part of [sysfs_emit_at] above.
    The function leaves the last byte of the page to the terminator and cuts
    what would go beyond it, so that a text is emitted whole exactly when it
    is shorter than the page. *)
Definition fits_page `{sysfs_page} (text : list ascii) : Prop :=
  (length text < PAGE_SIZE)%nat.

(** A reply determines the text of a string member: it covers all the bytes
    of the member but the last, or it holds a NUL among them. *)
Definition string_known (f : field) (p : list ascii) : Prop :=
  (offsetof f + sizeof f - 1 <= length p)%nat
  \/ exists k : nat,
       (offsetof f <= k < offsetof f + sizeof f - 1)%nat /\ p !! k = Some NUL.

Section VersionKnown.
Context `{ec_abi} {cros_ec_device : Type} `{cros_ec_proto cros_ec_device}.

(** The get-version query succeeds, and every successful reply to a sub-query
    of the version read determines the members read from it. *)
Definition replies_known (ec : cros_ec_dev) (d : cros_ec_device) : Prop :=
  let '(d1, r1) := transport_xfer_status d (get_version_request ec) in
  let '(d2, r2) := transport_xfer_status d1 (get_build_info_request ec) in
  let '(d3, r3) := transport_xfer_status d2 (get_chip_info_request ec) in
  let '(d4, r4) := transport_xfer_status d3 (get_board_version_request ec) in
  (0 <= xfer_ret r1
   /\ string_known version_string_ro (payload r1)
   /\ string_known version_string_rw (payload r1)
   /\ (current_image + 4 <= length (payload r1))%nat)
  /\ (0 <= xfer_ret r2 -> string_known build_info (payload r2))
  /\ (0 <= xfer_ret r3 ->
      string_known vendor (payload r3)
      /\ string_known name (payload r3)
      /\ string_known revision (payload r3))
  /\ (0 <= xfer_ret r4 -> (board_version + 2 <= length (payload r4))%nat).

End VersionKnown.

(** ** The example interface, continued *)

(** The further constants of the example interface: the flash geometry in
    four consecutive words, the angle parameter in the two bytes after the
    sub-command, the reported angle in the first word of the response. *)
Definition byte_of (z : Z) : ascii := ascii_of_N (Z.to_N (z mod 2 ^ 8)).

Definition le_bytes (n : nat) (z : Z) : list ascii :=
  map (fun i => byte_of (z / 2 ^ (8 * Z.of_nat i))) (seq 0 n).

Definition example_abi_show : ec_abi_show := {|
  EC_CMD_FLASH_INFO := 16;
  sizeof_ec_response_flash_info := 16;
  flash_size := 0;
  write_block_size := 4;
  erase_block_size := 8;
  protect_block_size := 12;
  EC_MOTION_SENSE_NO_VALUE := 65535;
  store_ec_params_motion_sense p b :=
    <[0%nat := byte_of (ec_params_motion_sense.cmd p)]>
      (<[1%nat := byte_of (ec_params_motion_sense.kb_wake_angle_data p)]>
         (<[2%nat := byte_of (ec_params_motion_sense.kb_wake_angle_data p / 2 ^ 8)]> b));
  kb_wake_angle_ret b := int_of_u32 (le_value (take 4 b));
|}.

(** A controller that holds a wake angle: a motion-sense request carrying the
    "no value" mark reports it, any other sets it first. *)
Record angle_ec := { wake_angle : Z }.

Definition angle_ec_proto : cros_ec_proto angle_ec := {|
  transport_xfer_status d rq :=
    match rq_data rq with
    | data_motion_sense p =>
        let v :=
          if ec_params_motion_sense.kb_wake_angle_data p =? 65535
          then wake_angle d
          else ec_params_motion_sense.kb_wake_angle_data p in
        ({| wake_angle := v |},
         {| xfer_ret := 4; ec_result := 0; payload := le_bytes 4 v |})
    | _ => (d, {| xfer_ret := -5; ec_result := 0; payload := [] |})
    end;
  transport_cmd d _ := (d, (-5, []));
|}.

(** A flash-info reply: 524288 bytes of flash, written by 4, erased by 4096,
    protected by 4096. *)
Definition flash_reply : xfer_result :=
  {| xfer_ret := 16; ec_result := 0;
     payload := le_bytes 4 524288 ++ le_bytes 4 4 ++ le_bytes 4 4096
                ++ le_bytes 4 4096 |}.

(** [kstrtou16] on the inputs of the examples. *)
Definition example_kstrtou16 (s : list ascii) (base : Z) : Z * Z :=
  if List.list_eq_dec Ascii.ascii_dec s (lit "180" ++ LF) then (0, 180) else (-22, 0).

(** A build-info reply: a terminated string, shorter than the buffer. *)
Definition build_reply : xfer_result :=
  {| xfer_ret := 12; ec_result := 0; payload := lit "build_2026" ++ [NUL; "z"%char] |}.

(** A page of 4096 bytes. *)
Definition example_page : sysfs_page := {| PAGE_SIZE := 4096 |}.

(** Three ports of which port 1 does not answer, and the same ports answering
    with another status. *)
Definition three_ports : ec_io scripted :=
  fresh {| xfer_script := [];
           cmd_script := [(1, ["003"%char]); (1, ["001"%char]); (-71, []);
                          (1, ["134"%char])] |}.

Definition three_ports' : ec_io scripted :=
  fresh {| xfer_script := [];
           cmd_script := [(1, ["003"%char]); (0, ["001"%char]); (-5, ["077"%char]);
                          (4, ["134"%char; "001"%char])] |}.

(** * Proofs *)

(** ** Characters and C strings *)

Lemma code_inj (c1 c2 : ascii) : code c1 = code c2 -> c1 = c2.
Proof.
  unfold code. intros E. apply N2Z.inj in E.
  rewrite <- (ascii_N_embedding c1), <- (ascii_N_embedding c2). now rewrite E.
Qed.

Lemma code_diff_zero (c1 c2 : ascii) : (code c1 - code c2 =? 0) = Ascii.eqb c1 c2.
Proof.
  destruct (Ascii.eqb_spec c1 c2) as [->|N].
  - rewrite Z.sub_diag. reflexivity.
  - apply Z.eqb_neq. intros E. apply N, code_inj. lia.
Qed.

Lemma isspace_not_upper (c : ascii) : isspace c = true -> tolower c = c.
Proof.
  destruct c as [[] [] [] [] [] [] [] []]; vm_compute; congruence.
Qed.

Lemma cstring_nonnul (w : list ascii) : forallb nonnul w = true -> cstring w = w.
Proof.
  induction w as [|c w IH]; simpl; [reflexivity|].
  unfold nonnul at 1. destruct (Ascii.eqb c NUL); simpl; [discriminate|].
  intros Hw. now rewrite IH.
Qed.

Lemma word_char_nonnul (w : list ascii) :
  forallb word_char w = true -> forallb nonnul w = true.
Proof.
  induction w as [|c w IH]; simpl; [reflexivity|].
  unfold word_char, nonnul in *. destruct (Ascii.eqb c NUL); simpl; [discriminate|].
  destruct (isspace c), (isspace (tolower c)); simpl; auto; discriminate.
Qed.

Lemma ci_eqb_refl (c : ascii) : ci_eqb c c = true.
Proof. unfold ci_eqb. apply Ascii.eqb_refl. Qed.

Lemma strncasecmp_begins (w : list ascii) :
  forallb word_char w = true ->
  forall tok rest : list ascii,
    forallb nonnul tok = true -> boundary rest = true ->
    (strncasecmp w (tok ++ rest) (length w) =? 0) = begins_with w tok.
Proof.
  induction w as [|c1 w IH]; intros Hw tok rest Htok Hrest; [reflexivity|].
  simpl in Hw. apply andb_prop in Hw as [Hc Hw].
  unfold word_char in Hc. apply andb_prop in Hc as [Hc Hc3].
  apply andb_prop in Hc as [Hc1 Hc2].
  apply negb_true_iff in Hc1, Hc2, Hc3.
  cbn [length strncasecmp].
  change (deref (c1 :: w)) with c1. change (tl (c1 :: w)) with w.
  rewrite Hc1. cbn [orb].
  destruct tok as [|c2 tok].
  - cbn [app begins_with].
    unfold boundary, at_end in Hrest.
    destruct (Ascii.eqb (deref rest) NUL) eqn:E0.
    + rewrite code_diff_zero. apply Ascii.eqb_eq in E0. rewrite E0. exact Hc1.
    + cbn [orb] in Hrest.
      destruct (Ascii.eqb_spec c1 (deref rest)) as [->|N]; [congruence|].
      cbn [negb].
      destruct (Ascii.eqb_spec (tolower c1) (tolower (deref rest))) as [E|N'].
      * rewrite (isspace_not_upper _ Hrest) in E. congruence.
      * cbn [negb]. rewrite code_diff_zero. now apply Ascii.eqb_neq.
  - cbn [app begins_with].
    change (deref (c2 :: tok ++ rest)) with c2.
    change (tl (c2 :: tok ++ rest)) with (tok ++ rest).
    cbn [forallb] in Htok. apply andb_prop in Htok as [Hn2 Htok].
    unfold nonnul in Hn2. apply negb_true_iff in Hn2. rewrite Hn2.
    unfold ci_eqb.
    destruct (Ascii.eqb_spec c1 c2) as [->|N].
    + rewrite Ascii.eqb_refl. cbn [andb]. now apply IH.
    + destruct (Ascii.eqb (tolower c1) (tolower c2)) eqn:E; cbn [negb andb].
      * now apply IH.
      * rewrite code_diff_zero. exact E.
Qed.

(** ** The scan of reboot_store and the tokens of its input *)

Lemma isspace_NUL : isspace NUL = false.
Proof. reflexivity. Qed.

Lemma cstring_skip_spaces (s : list ascii) :
  cstring (skip_spaces s) = drop_while isspace (cstring s).
Proof.
  induction s as [|c s IH]; [reflexivity|]. simpl.
  destruct (Ascii.eqb c NUL) eqn:E0; simpl.
  - now rewrite E0.
  - destruct (isspace c) eqn:Es; simpl; [exact IH|]. now rewrite E0.
Qed.

Lemma at_end_cstring (s : list ascii) : at_end s = true <-> cstring s = [].
Proof.
  destruct s as [|c s]; simpl; [easy|]. unfold at_end; simpl.
  destruct (Ascii.eqb c NUL); easy.
Qed.

(** The rest of the buffer at the start of a word is the word followed by
    what [skip_word] leaves. *)
Lemma split_word (s : list ascii) :
  s = take_while nonspace (cstring s) ++ skip_word s
  /\ boundary (skip_word s) = true
  /\ forallb nonnul (take_while nonspace (cstring s)) = true
  /\ cstring (skip_word s) = drop_while nonspace (cstring s).
Proof.
  induction s as [|c s (IH1 & IH2 & IH3 & IH4)]; [now repeat split|].
  simpl. destruct (Ascii.eqb c NUL) eqn:E0; simpl.
  - repeat split; try reflexivity.
    + unfold boundary, at_end; simpl. now rewrite E0.
    + now rewrite E0.
  - unfold nonspace at 1 3 4. destruct (isspace c) eqn:Es; simpl.
    + repeat split; try reflexivity.
      * unfold boundary; simpl. rewrite Es. apply orb_true_r.
      * unfold nonspace. now rewrite E0, Es.
    + unfold nonnul at 1. rewrite E0. simpl. repeat split; auto.
      * now rewrite <- IH1.
      * unfold nonspace at 1. now rewrite Es.
Qed.

Lemma tokens_step (s : list ascii) :
  tokens s =
  match drop_while isspace s with
  | [] => []
  | c :: t => (c :: take_while nonspace t) :: tokens (drop_while nonspace t)
  end.
Proof.
  rewrite tokens_equation_1. unfold tokens_unfold_clause_1.
  destruct (drop_while isspace s); reflexivity.
Qed.

Lemma drop_while_app_all (p : ascii -> bool) (a b : list ascii) :
  forallb p a = true -> drop_while p (a ++ b) = drop_while p b.
Proof.
  induction a as [|c a IH]; [reflexivity|]. cbn [forallb app drop_while].
  destruct (p c); [exact IH|discriminate].
Qed.

Lemma take_while_app_all (p : ascii -> bool) (a b : list ascii) :
  forallb p a = true -> take_while p (a ++ b) = a ++ take_while p b.
Proof.
  induction a as [|c a IH]; [reflexivity|]. cbn [forallb app take_while].
  destruct (p c); [|discriminate]. intros Ha. now rewrite IH.
Qed.

(** [tokens] undoes the joining of words by blanks: a word between blanks,
    followed by nothing or by a blank, is the first token. *)
Lemma tokens_cons (sep tok rest : list ascii) :
  forallb isspace sep = true ->
  tok <> [] -> forallb nonspace tok = true ->
  rest = [] \/ isspace (deref rest) = true ->
  tokens (sep ++ tok ++ rest) = tok :: tokens rest.
Proof.
  intros Hsep Hne Htok Hrest. rewrite tokens_step.
  rewrite (drop_while_app_all isspace sep _ Hsep).
  destruct tok as [|c t]; [contradiction|].
  cbn [forallb] in Htok. apply andb_prop in Htok as [Hc Ht].
  cbn [app drop_while]. unfold nonspace in Hc. apply negb_true_iff in Hc.
  rewrite Hc.
  rewrite (take_while_app_all nonspace t rest Ht).
  rewrite (drop_while_app_all nonspace t rest Ht).
  assert (Hr : take_while nonspace rest = [] /\ tokens (drop_while nonspace rest) = tokens rest).
  { destruct Hrest as [->|Hr]; [now split|].
    destruct rest as [|r rest]; [now split|].
    cbn [deref hd] in Hr. cbn [take_while drop_while]. unfold nonspace.
    now rewrite Hr. }
  destruct Hr as [-> ->]. now rewrite app_nil_r.
Qed.

Section RebootProofs.
Context `{ec_abi}.

Lemma words_chars :
  forallb (fun w => forallb word_char (reboot_word.str w)) words = true.
Proof. reflexivity. Qed.

Lemma match_words_find (ws : list reboot_word.t) (tok rest : list ascii)
    (st : reboot_scan) :
  forallb (fun w => forallb word_char (reboot_word.str w)) ws = true ->
  forallb nonnul tok = true -> boundary rest = true ->
  match_words ws (tok ++ rest) st =
  match List.find (fun w => begins_with (reboot_word.str w) tok) ws with
  | Some w => apply_word w st
  | None => st
  end.
Proof.
  intros Hws Htok Hrest. induction ws as [|w ws IH]; [reflexivity|].
  simpl in Hws. apply andb_prop in Hws as [Hw Hws]. simpl.
  unfold strlen. rewrite (cstring_nonnul _ (word_char_nonnul _ Hw)).
  rewrite (strncasecmp_begins _ Hw _ _ Htok Hrest).
  destruct (begins_with (reboot_word.str w) tok); [reflexivity|]. now apply IH.
Qed.

Lemma match_words_token (tok rest : list ascii) (st : reboot_scan) :
  forallb nonnul tok = true -> boundary rest = true ->
  match_words words (tok ++ rest) st = apply_token st tok.
Proof.
  intros Htok Hrest. unfold apply_token, recognize.
  apply match_words_find; [apply words_chars | exact Htok | exact Hrest].
Qed.

(** The scan applies, token by token, the first table entry whose word begins
    the token. *)
Lemma scan_words_tokens (s : list ascii) (st : reboot_scan) :
  scan_words s st = fold_left apply_token (tokens (cstring s)) st.
Proof.
  apply (scan_words_elim (fun s st r => r = fold_left apply_token (tokens (cstring s)) st)).
  - intros s0 e st0 _. rewrite tokens_step, <- cstring_skip_spaces.
    apply at_end_cstring in e. now rewrite e.
  - intros s0 E st0 IH _. rewrite IH. clear IH.
    rewrite (tokens_step (cstring s0)), <- cstring_skip_spaces.
    pose proof (skip_spaces_head s0 E) as Hs.
    destruct (skip_spaces s0) as [|c t]; [discriminate|].
    unfold at_end in E. cbn [deref hd] in E, Hs.
    cbn [cstring skip_word]. rewrite E, Hs. cbn [negb andb].
    destruct (split_word t) as (H1 & H2 & H3 & H4).
    rewrite H4. cbn [fold_left]. f_equal.
    rewrite H1 at 1. rewrite app_comm_cons. apply match_words_token; [|exact H2].
    cbn [forallb]. unfold nonnul at 1. now rewrite E.
Qed.

End RebootProofs.

Section RebootClosedForm.
Context `{ec_abi}.
Hypothesis flag_ok : shutdown_flag_ok.

Lemma u8_range (z : Z) : 0 <= u8 z < 2 ^ 8.
Proof. unfold u8. apply Z.mod_pos_bound. lia. Qed.

Lemma u8_idem (z : Z) : u8 (u8 z) = u8 z.
Proof. unfold u8. apply Z.mod_mod. lia. Qed.

Lemma recognize_in (tok : list ascii) (w : reboot_word.t) :
  recognize tok = Some w ->
  In w words /\ begins_with (reboot_word.str w) tok = true.
Proof. unfold recognize. apply find_some. Qed.

(** The entries of the table are of two kinds: a reboot type, with no flags,
    or the shutdown flag. *)
Lemma words_kinds (w : reboot_word.t) :
  In w words ->
  reboot_word.flags w = 0
  \/ reboot_word.flags w = u8 EC_REBOOT_FLAG_ON_AP_SHUTDOWN
     /\ reboot_word.flags w <> 0.
Proof.
  pose proof flag_ok as Hf. unfold shutdown_flag_ok in Hf.
  unfold words. simpl.
  intros [<-|[<-|[<-|[<-|[<-|[<-|[<-|[<-|[]]]]]]]]]; simpl; auto.
Qed.

Lemma type_codes_cons (tok : list ascii) (toks : list (list ascii)) :
  type_codes (tok :: toks) =
  match recognize tok with
  | Some w =>
      if reboot_word.flags w =? 0 then reboot_word.cmd w :: type_codes toks
      else type_codes toks
  | None => type_codes toks
  end.
Proof. reflexivity. Qed.

Lemma has_flag_token_cons (tok : list ascii) (toks : list (list ascii)) :
  has_flag_token (tok :: toks) =
  match recognize tok with
  | Some w => negb (reboot_word.flags w =? 0) || has_flag_token toks
  | None => has_flag_token toks
  end.
Proof.
  unfold has_flag_token. cbn [existsb].
  now destruct (recognize tok).
Qed.

Lemma fold_apply_token (toks : list (list ascii)) :
  forall st : reboot_scan,
    ec_params_reboot_ec.flags (param st) = 0
    \/ ec_params_reboot_ec.flags (param st) = u8 EC_REBOOT_FLAG_ON_AP_SHUTDOWN ->
    fold_left apply_token toks st = scan_result st toks.
Proof.
  induction toks as [|tok toks IH]; intros st Hst.
  - unfold scan_result. simpl. rewrite orb_false_r. now destruct st as [[] ?].
  - cbn [fold_left]. unfold scan_result.
    rewrite type_codes_cons, has_flag_token_cons.
    unfold apply_token at 2.
    destruct (recognize tok) as [w|] eqn:Er.
    + destruct (recognize_in _ _ Er) as [Hin _].
      unfold apply_word.
      destruct (words_kinds w Hin) as [E0|[EF N0]].
      * rewrite E0. cbn [Z.eqb negb orb]. rewrite IH by (simpl; exact Hst).
        unfold scan_result. cbn [param got_cmd ec_params_reboot_ec.cmd
                                 ec_params_reboot_ec.flags].
        rewrite last_cons. destruct (last (type_codes toks)); simpl;
          now rewrite orb_true_r.
      * apply Z.eqb_neq in N0. rewrite N0. cbn [negb orb].
        assert (Hlor : u8 (Z.lor (ec_params_reboot_ec.flags (param st))
                             (reboot_word.flags w))
                       = u8 EC_REBOOT_FLAG_ON_AP_SHUTDOWN).
        { rewrite EF. destruct Hst as [->| ->].
          - rewrite Z.lor_0_l. apply u8_idem.
          - rewrite Z.lor_diag. apply u8_idem. }
        rewrite Hlor. rewrite IH by (simpl; now right).
        unfold scan_result. cbn [param got_cmd ec_params_reboot_ec.cmd
                                 ec_params_reboot_ec.flags].
        now destruct (has_flag_token toks).
    + rewrite IH by exact Hst. reflexivity.
Qed.

Context {cros_ec_device : Type} `{cros_ec_proto cros_ec_device}.

(** reboot_store in terms of the tokens of its input. *)
Lemma reboot_store_spec (ec : cros_ec_dev) (io : ec_io cros_ec_device)
    (msg : cros_ec_command ec_params_reboot_ec.t) (buf : list ascii) (count : Z) :
  reboot_store ec io (Some msg) buf count =
  let toks := tokens (cstring buf) in
  match last (type_codes toks) with
  | None => (io, - EINVAL)
  | Some c =>
      let rq :=
        reboot_request ec c
          (if has_flag_token toks then u8 EC_REBOOT_FLAG_ON_AP_SHUTDOWN else 0) in
      let '(d, r) := transport_xfer_status (ec_dev io) rq in
      ({| ec_dev := d; issued := issued io ++ [call_xfer_status rq] |},
       if xfer_ret r <? 0 then xfer_ret r else count)
  end.
Proof.
  unfold reboot_store. rewrite scan_words_tokens.
  rewrite fold_apply_token by (simpl; now left).
  unfold scan_result. cbn [param got_cmd ec_params_reboot_ec.cmd
                           ec_params_reboot_ec.flags orb].
  cbv zeta.
  destruct (type_codes (tokens (cstring buf))) as [|c l] eqn:Et; [reflexivity|].
  cbn [negb]. destruct (last (c :: l)) as [c'|] eqn:El.
  - cbn [default]. unfold cros_ec_cmd_xfer_status, request_of_params, reboot_request.
    cbn [version command outsize insize data].
    destruct (transport_xfer_status _ _) as [d r].
    now destruct (xfer_ret r <? 0).
  - apply last_None in El. discriminate.
Qed.

End RebootClosedForm.

(** ** The claims about reboot_store *)

Lemma example_flag_ok : @shutdown_flag_ok example_abi.
Proof. vm_compute. discriminate. Qed.

Lemma example_layout_ok : @layout_ok example_abi.
Proof. split; try (split; simpl; lia); simpl; lia. Qed.

Lemma ci_eqb_sym (c1 c2 : ascii) : ci_eqb c1 c2 = ci_eqb c2 c1.
Proof. unfold ci_eqb. apply Ascii.eqb_sym. Qed.

Lemma ci_eqb_trans (c1 c2 c3 : ascii) :
  ci_eqb c1 c2 = true -> ci_eqb c2 c3 = true -> ci_eqb c1 c3 = true.
Proof.
  unfold ci_eqb. intros E1 E2. apply Ascii.eqb_eq in E1, E2.
  apply Ascii.eqb_eq. congruence.
Qed.

(** Two words that begin the same token: one begins the other. *)
Lemma begins_with_compat (a : list ascii) :
  forall b tok : list ascii,
    begins_with a tok = true -> begins_with b tok = true ->
    begins_with a b = true \/ begins_with b a = true.
Proof.
  induction a as [|x a IH]; intros b tok Ha Hb; [now left|].
  destruct b as [|y b]; [now right|].
  destruct tok as [|c tok]; [discriminate|].
  cbn [begins_with] in *.
  apply andb_prop in Ha as [Hx Ha]. apply andb_prop in Hb as [Hy Hb].
  assert (Hxy : ci_eqb x y = true).
  { apply (ci_eqb_trans _ c); [exact Hx | now rewrite ci_eqb_sym]. }
  rewrite Hxy, (ci_eqb_sym y x), Hxy. cbn [andb]. now apply (IH b tok).
Qed.

Section RebootClaims.
Context `{ec_abi}.
Context {cros_ec_device : Type} `{cros_ec_proto cros_ec_device}.

Lemma tokens_ro_at_shutdown :
  tokens (cstring (lit "RO AT-SHUTDOWN")) = [lit "RO"; lit "AT-SHUTDOWN"].
Proof. reflexivity. Qed.

Lemma recognize_RO :
  recognize (lit "RO") = Some (reboot_word.mk (lit "ro") (u8 EC_REBOOT_JUMP_RO) 0).
Proof. reflexivity. Qed.

Lemma recognize_AT_SHUTDOWN :
  recognize (lit "AT-SHUTDOWN")
  = Some (reboot_word.mk (lit "at-shutdown") (u8 (-1))
            (u8 EC_REBOOT_FLAG_ON_AP_SHUTDOWN)).
Proof. reflexivity. Qed.

(** C2. The input of the reboot write handler is split on whitespace and each
    token is looked up, case-insensitively, in the table; a token recognized as
    at-shutdown ORs in the shutdown flag, every token recognized as a reboot
    type assigns its code, so the code sent is that of the last such token in
    input order; writing "RO AT-SHUTDOWN" sends the RO-jump code together with
    the shutdown flag and succeeds when the exchange does. *)
Theorem reboot_store_last_type_token (flag_ok : shutdown_flag_ok)
    (ec : cros_ec_dev) (io : ec_io cros_ec_device)
    (msg : cros_ec_command ec_params_reboot_ec.t) (count : Z) :
  (forall (buf : list ascii) (st : reboot_scan),
      scan_words buf st = fold_left apply_token (tokens (cstring buf)) st)
  /\ (forall buf : list ascii,
         reboot_store ec io (Some msg) buf count =
         match last (type_codes (tokens (cstring buf))) with
         | None => (io, - EINVAL)
         | Some c =>
             send_reboot ec io c
               (if has_flag_token (tokens (cstring buf))
                then u8 EC_REBOOT_FLAG_ON_AP_SHUTDOWN else 0) count
         end)
  /\ reboot_store ec io (Some msg) (lit "RO AT-SHUTDOWN") count =
     send_reboot ec io (u8 EC_REBOOT_JUMP_RO) (u8 EC_REBOOT_FLAG_ON_AP_SHUTDOWN) count.
Proof.
  split; [exact scan_words_tokens|]. split.
  - intros buf. rewrite (reboot_store_spec flag_ok). reflexivity.
  - rewrite (reboot_store_spec flag_ok), tokens_ro_at_shutdown. cbv zeta.
    pose proof flag_ok as Hf. unfold shutdown_flag_ok in Hf. apply Z.eqb_neq in Hf.
    unfold has_flag_token. cbn [type_codes existsb].
    rewrite recognize_RO, recognize_AT_SHUTDOWN.
    cbn [reboot_word.flags reboot_word.cmd]. rewrite Hf. reflexivity.
Qed.

(** C7. When no token of the input is recognized as a reboot type -- as for
    "at-shutdown" alone, for unrecognized tokens only, and for an empty or
    blank input -- the write fails with -EINVAL, and neither the controller
    nor the log of issued commands changes. *)
Theorem reboot_store_no_type_token (flag_ok : shutdown_flag_ok)
    (ec : cros_ec_dev) (io : ec_io cros_ec_device)
    (msg : cros_ec_command ec_params_reboot_ec.t) (count : Z) :
  (forall buf : list ascii,
      type_codes (tokens (cstring buf)) = [] ->
      reboot_store ec io (Some msg) buf count = (io, - EINVAL))
  /\ reboot_store ec io (Some msg) (lit "at-shutdown") count = (io, - EINVAL)
  /\ reboot_store ec io (Some msg) (lit "reboot now") count = (io, - EINVAL)
  /\ reboot_store ec io (Some msg) [] count = (io, - EINVAL)
  /\ reboot_store ec io (Some msg) (lit "  " ++ LF) count = (io, - EINVAL).
Proof.
  assert (Hgen : forall buf : list ascii,
             type_codes (tokens (cstring buf)) = [] ->
             reboot_store ec io (Some msg) buf count = (io, - EINVAL)).
  { intros buf Hno. rewrite (reboot_store_spec flag_ok). cbv zeta.
    now rewrite Hno. }
  split; [exact Hgen|].
  pose proof flag_ok as Hf. unfold shutdown_flag_ok in Hf. apply Z.eqb_neq in Hf.
  split; [|repeat split; apply Hgen; reflexivity].
  apply Hgen.
  change (tokens (cstring (lit "at-shutdown"))) with [lit "at-shutdown"].
  cbn [type_codes].
  change (recognize (lit "at-shutdown")) with
      (Some (reboot_word.mk (lit "at-shutdown") (u8 (-1))
               (u8 EC_REBOOT_FLAG_ON_AP_SHUTDOWN))).
  cbn [reboot_word.flags]. now rewrite Hf.
Qed.

End RebootClaims.

Section RebootPrefix.
Context `{ec_abi}.

(** The entry found for a token is the first of the table whose word begins
    it; an entry whose word begins the token is found unless an earlier one
    is, and the only word of the table that begins another one is "cold",
    which begins "cold-ap-off". *)
Lemma recognize_first (w : reboot_word.t) (tok : list ascii) :
  In w words -> begins_with (reboot_word.str w) tok = true ->
  exists w' : reboot_word.t,
    recognize tok = Some w'
    /\ (w' = w
        \/ reboot_word.str w = lit "cold"
           /\ reboot_word.str w' = lit "cold-ap-off").
Proof.
  intros Hin Hw. unfold recognize, words in *. cbn [In] in Hin.
  cbn [List.find reboot_word.str].
  repeat match goal with
  | |- context [if begins_with ?a tok then _ else _] =>
      destruct (begins_with a tok) eqn:?
  end;
  repeat match goal with
  | Hin : _ \/ _ |- _ => destruct Hin as [<-|Hin]
  | Hin : False |- _ => destruct Hin
  end;
  cbn [reboot_word.str] in *;
  try congruence;
  try (eexists; split; [reflexivity|]; first [left; reflexivity | right; split; reflexivity]);
  exfalso;
  match goal with
  | Ha : begins_with ?a tok = true, Hb : begins_with ?b tok = true |- _ =>
      destruct (begins_with_compat a b tok Ha Hb); discriminate
  end.
Qed.

End RebootPrefix.

Section RebootPrefixClaim.
Context `{ec_abi}.

(** C10, amended. A token is matched on its first strlen(word) characters,
    case-insensitively, so a token that begins with a table word is never
    ignored: the loop applies the first entry, in table order, whose word
    begins the token. That entry is the given word's, except that a token
    beginning with "cold-ap-off" also begins with "cold" and is treated as
    "cold-ap-off". "root", "cancelled" and "rw-now" are treated as ro, cancel
    and rw. *)
Theorem reboot_store_prefix_match (w : reboot_word.t) (tok rest : list ascii)
    (st : reboot_scan) :
  In w words ->
  begins_with (reboot_word.str w) tok = true ->
  forallb nonnul tok = true ->
  boundary rest = true ->
  (exists w' : reboot_word.t,
      recognize tok = Some w'
      /\ match_words words (tok ++ rest) st = apply_word w' st
      /\ (w' = w
          \/ reboot_word.str w = lit "cold"
             /\ reboot_word.str w' = lit "cold-ap-off"))
  /\ match_words words (lit "root") st
     = apply_word (reboot_word.mk (lit "ro") (u8 EC_REBOOT_JUMP_RO) 0) st
  /\ match_words words (lit "cancelled") st
     = apply_word (reboot_word.mk (lit "cancel") (u8 EC_REBOOT_CANCEL) 0) st
  /\ match_words words (lit "rw-now") st
     = apply_word (reboot_word.mk (lit "rw") (u8 EC_REBOOT_JUMP_RW) 0) st.
Proof.
  intros Hin Hw Htok Hrest. split; [|repeat split; reflexivity].
  destruct (recognize_first w tok Hin Hw) as (w' & Hr & Hw').
  exists w'. repeat split; [exact Hr | | exact Hw'].
  rewrite (match_words_token tok rest st Htok Hrest).
  unfold apply_token. now rewrite Hr.
Qed.

End RebootPrefixClaim.

(** *** Instances on the example interface *)

(** "RO AT-SHUTDOWN" on the example interface: one command, code 1 with
    flag 2, and the byte count returned. *)
Lemma reboot_store_last_type_token_witness :
  @shutdown_flag_ok example_abi
  /\ @reboot_store example_abi scripted scripted_proto example_ec one_reply
       (Some (junk_msg (ec_params_reboot_ec.mk 9 9))) (lit "RO AT-SHUTDOWN") 14
     = ({| ec_dev := {| xfer_script := []; cmd_script := [] |};
           issued := [call_xfer_status (@reboot_request example_abi example_ec 1 2)] |},
        14).
Proof.
  split; [exact example_flag_ok|].
  rewrite (proj2 (proj2 (@reboot_store_last_type_token example_abi scripted
                           scripted_proto example_flag_ok example_ec one_reply
                           (junk_msg (ec_params_reboot_ec.mk 9 9)) 14))).
  reflexivity.
Defined.

(** "at-shutdown  foo" names no reboot type: -EINVAL, nothing issued. *)
Lemma reboot_store_no_type_token_witness :
  @shutdown_flag_ok example_abi
  /\ @type_codes example_abi (tokens (cstring (lit "at-shutdown  foo"))) = []
  /\ @reboot_store example_abi scripted scripted_proto example_ec one_reply
       (Some (junk_msg (ec_params_reboot_ec.mk 9 9))) (lit "at-shutdown  foo") 16
     = (one_reply, -22).
Proof.
  split; [exact example_flag_ok|]. split; [reflexivity|].
  apply (proj1 (@reboot_store_no_type_token example_abi scripted scripted_proto
                  example_flag_ok example_ec one_reply
                  (junk_msg (ec_params_reboot_ec.mk 9 9)) 16)).
  reflexivity.
Defined.

(** "hibernate-now" is treated as hibernate. *)
Lemma reboot_store_prefix_match_witness :
  exists w' : reboot_word.t,
    @recognize example_abi (lit "hibernate-now") = Some w'
    /\ match_words (@words example_abi) (lit "hibernate-now" ++ lit " ro") scan0
       = apply_word w' scan0
    /\ (w' = reboot_word.mk (lit "hibernate") 6 0
        \/ lit "hibernate" = lit "cold" /\ reboot_word.str w' = lit "cold-ap-off").
Proof.
  apply (@reboot_store_prefix_match example_abi
           (reboot_word.mk (lit "hibernate") 6 0) (lit "hibernate-now")
           (lit " ro") scan0).
  - cbn. tauto.
  - reflexivity.
  - reflexivity.
  - reflexivity.
Defined.

(** C10 as stated fails: the token "cold-ap-off-now" begins with the table
    word "cold", and is not treated as "cold" but as "cold-ap-off", the earlier
    entry it also begins with. *)
Lemma reboot_store_prefix_counterexample :
  In (reboot_word.mk (lit "cold") 4 0) (@words example_abi)
  /\ begins_with (lit "cold") (lit "cold-ap-off-now") = true
  /\ match_words (@words example_abi) (lit "cold-ap-off-now") scan0
     = {| param := ec_params_reboot_ec.mk 8 0; got_cmd := true |}
  /\ apply_word (reboot_word.mk (lit "cold") 4 0) scan0
     = {| param := ec_params_reboot_ec.mk 4 0; got_cmd := true |}
  /\ match_words (@words example_abi) (lit "cold-ap-off-now") scan0
     <> apply_word (reboot_word.mk (lit "cold") 4 0) scan0.
Proof.
  repeat split; try reflexivity; [cbn; tauto | discriminate].
Qed.

(** ** cros_ec_ctrl_visible *)

Lemma strcmp_cstring (cs : list ascii) :
  forall ct : list ascii, strcmp cs ct = 0 <-> cstring cs = cstring ct.
Proof.
  induction cs as [|c cs IH]; intros ct.
  - cbn [strcmp cstring]. change (deref []) with NUL.
    destruct ct as [|c' ct]; [easy|].
    change (deref (c' :: ct)) with c'. cbn [cstring].
    rewrite (Ascii.eqb_sym NUL c').
    destruct (Ascii.eqb c' NUL); cbn [negb]; [easy|].
    split; [|discriminate]. now destruct (code NUL <? code c').
  - cbn [strcmp cstring]. change (deref (c :: cs)) with c.
    destruct ct as [|c' ct].
    + change (deref []) with NUL. cbn [cstring].
      destruct (Ascii.eqb c NUL); cbn [negb]; [easy|].
      split; [|discriminate]. now destruct (code c <? code NUL).
    + change (deref (c' :: ct)) with c'. change (tl (c' :: ct)) with ct.
      cbn [cstring].
      destruct (Ascii.eqb_spec c c') as [<-|N]; cbn [negb].
      * destruct (Ascii.eqb c NUL); [easy|]. rewrite IH.
        split; [congruence|]. now intros [= ->].
      * split; [now destruct (code c <? code c')|].
        destruct (Ascii.eqb c NUL) eqn:E1, (Ascii.eqb c' NUL) eqn:E2;
          try discriminate.
        -- apply Ascii.eqb_eq in E1, E2. congruence.
        -- intros [= ? _]. contradiction.
Qed.

Section VisibleClaim.
Context `{ec_abi}.

(** C6. kb_wake_angle is not visible on a device that does not declare the
    keyboard wake angle, whatever else holds; usbpdmuxinfo and ap_mode_entry
    are not visible on a device whose platform name differs from
    CROS_EC_DEV_NAME; in every other case an attribute keeps its declared
    mode. *)
Theorem cros_ec_ctrl_visible_gating (ec : cros_ec_dev) :
  (has_kb_wake_angle ec = false ->
   cros_ec_ctrl_visible ec dev_attr_kb_wake_angle = 0)
  /\ (cstring (ec_name ec) <> cstring CROS_EC_DEV_NAME ->
      cros_ec_ctrl_visible ec dev_attr_usbpdmuxinfo = 0
      /\ cros_ec_ctrl_visible ec dev_attr_ap_mode_entry = 0)
  /\ (forall a : attribute,
         (a = dev_attr_kb_wake_angle -> has_kb_wake_angle ec = true) ->
         (a = dev_attr_usbpdmuxinfo \/ a = dev_attr_ap_mode_entry ->
          cstring (ec_name ec) = cstring CROS_EC_DEV_NAME) ->
         cros_ec_ctrl_visible ec a = mode a).
Proof.
  unfold cros_ec_ctrl_visible. split; [|split].
  - intros ->. reflexivity.
  - intros N. cbn [attribute_eqb andb orb].
    destruct (strcmp (ec_name ec) CROS_EC_DEV_NAME =? 0) eqn:E; [|now split].
    apply Z.eqb_eq, strcmp_cstring in E. contradiction.
  - intros a Hkb Hname.
    destruct a; cbn [attribute_eqb andb orb]; try reflexivity.
    + now rewrite Hkb.
    + rewrite (proj2 (strcmp_cstring _ _) (Hname (or_introl eq_refl))). reflexivity.
    + rewrite (proj2 (strcmp_cstring _ _) (Hname (or_intror eq_refl))). reflexivity.
Qed.

End VisibleClaim.

(** ** kb_wake_angle_store *)

Section KbWakeAngleClaim.
Context `{ec_abi} {cros_ec_device : Type} `{cros_ec_proto cros_ec_device}.
Variable kstrtou16 : list ascii -> Z -> Z * Z.

(** C8. When the text does not parse, the write returns the parser's error and
    neither the controller nor the log of issued commands changes, whether or
    not an allocation would succeed. When it parses, the one command issued
    carries the parsed 16-bit value as the new angle, and the write returns
    the byte count when the exchange succeeds and the exchange's status when
    it fails; the handler has no output text. *)
Theorem kb_wake_angle_store_parse (ec : cros_ec_dev) (io : ec_io cros_ec_device)
    (kmalloc : option (cros_ec_command ec_params_motion_sense.t))
    (buf : list ascii) (count : Z) :
  (fst (kstrtou16 buf 0) <> 0 ->
   kb_wake_angle_store kstrtou16 ec io kmalloc buf count
   = (io, fst (kstrtou16 buf 0)))
  /\ (fst (kstrtou16 buf 0) = 0 ->
      forall msg : cros_ec_command ec_params_motion_sense.t,
        kmalloc = Some msg ->
        let rq := kb_wake_angle_request ec (u16 (snd (kstrtou16 buf 0))) in
        let '(d, r) := transport_xfer_status (ec_dev io) rq in
        kb_wake_angle_store kstrtou16 ec io kmalloc buf count
        = ({| ec_dev := d; issued := issued io ++ [call_xfer_status rq] |},
           if xfer_ret r <? 0 then xfer_ret r else count)).
Proof.
  unfold kb_wake_angle_store. destruct (kstrtou16 buf 0) as [ret angle].
  cbn [fst snd]. split.
  - intros N. apply Z.eqb_neq in N. now rewrite N.
  - intros -> msg ->. cbn [Z.eqb negb]. cbv zeta.
    unfold cros_ec_cmd_xfer_status, request_of_params, kb_wake_angle_request.
    cbn [version command outsize insize data].
    destruct (transport_xfer_status _ _) as [d r].
    now destruct (xfer_ret r <? 0).
Qed.

End KbWakeAngleClaim.

(** ** usbpdmuxinfo_show *)

(** Text emitted right behind the text already in the page is appended. *)
Lemma take_emitted (buf t : list ascii) (c : Z) :
  0 <= c ->
  take (Z.to_nat (c + Z.of_nat (length t))) (take (Z.to_nat c) buf ++ t)
  = take (Z.to_nat c) buf ++ t.
Proof.
  intros Hc. apply take_ge. rewrite length_app, length_take. lia.
Qed.

Section UsbPdMuxPort.
Context `{ec_abi} {cros_ec_device : Type} `{cros_ec_proto cros_ec_device}.

Lemma port_line_nonempty (i flags : Z) : port_line i flags <> [].
Proof. unfold port_line. discriminate. Qed.

Lemma mux_port_spec (i : Z) (io : ec_io cros_ec_device) (buf : list ascii)
    (count : Z) :
  0 <= count ->
  exists buf' : list ascii,
    mux_port i io buf count =
    (let '(d, (ret, resp)) := transport_cmd (ec_dev io) (mux_request i) in
     let text :=
       if 0 <=? ret then port_line i (code (deref resp)) else [] in
     ({| ec_dev := d; issued := issued io ++ [call_cmd (mux_request i)] |},
      buf', count + Z.of_nat (length text)))
    /\ (let '(d, (ret, resp)) := transport_cmd (ec_dev io) (mux_request i) in
        take (Z.to_nat (count + Z.of_nat (length
               (if 0 <=? ret then port_line i (code (deref resp)) else []))))
             buf'
        = take (Z.to_nat count) buf
          ++ (if 0 <=? ret then port_line i (code (deref resp)) else [])).
Proof.
  intros Hc. unfold mux_port, cros_ec_cmd. fold (mux_request i).
  destruct (transport_cmd (ec_dev io) (mux_request i)) as [d [ret resp]].
  destruct (0 <=? ret).
  - unfold sysfs_emit_at.
    repeat (rewrite take_emitted
              by (repeat first [apply Z.add_nonneg_nonneg | apply Nat2Z.is_nonneg | exact Hc])).
    eexists. split.
    + f_equal. unfold port_line, flag_bit. rewrite !length_app. lia.
    + unfold port_line, flag_bit. rewrite <- !app_assoc.
      rewrite take_ge; [reflexivity|].
      rewrite !length_app, length_take. lia.
  - exists buf. split; [f_equal; simpl; lia|].
    simpl. now rewrite Z.add_0_r, app_nil_r.
Qed.

End UsbPdMuxPort.

Section UsbPdMuxProofs.
Context `{ec_abi} {cros_ec_device : Type} `{cros_ec_proto cros_ec_device}.

Lemma mux_ports_spec (n : nat) :
  forall (i : Z) (io : ec_io cros_ec_device) (buf : list ascii) (count : Z),
    0 <= count ->
    let rs := fst (poll_ports n i (ec_dev io)) in
    exists buf' : list ascii,
      mux_ports n i io buf count =
      ({| ec_dev := snd (poll_ports n i (ec_dev io));
          issued := issued io ++ map mux_call rs |},
       buf', count + Z.of_nat (length (mux_text rs)))
      /\ take (Z.to_nat (count + Z.of_nat (length (mux_text rs)))) buf'
         = take (Z.to_nat count) buf ++ mux_text rs.
Proof.
  induction n as [|n IH]; intros i io buf count Hc rs.
  - exists buf. subst rs. cbn. rewrite !app_nil_r, Z.add_0_r.
    split; [now destruct io|reflexivity].
  - subst rs. cbn [mux_ports poll_ports].
    destruct (mux_port_spec i io buf count Hc) as (buf1 & E1 & T1).
    rewrite E1. clear E1.
    destruct (transport_cmd (ec_dev io) (mux_request i)) as [d [ret resp]].
    cbv zeta in *.
    set (line := if 0 <=? ret then port_line i (code (deref resp)) else []) in *.
    set (io1 := {| ec_dev := d; issued := issued io ++ [call_cmd (mux_request i)] |}).
    assert (Hc1 : 0 <= count + Z.of_nat (length line)) by lia.
    destruct (IH (i + 1) io1 buf1 _ Hc1) as (buf2 & E2 & T2).
    rewrite E2. clear E2. cbn [ec_dev issued io1] in *.
    destruct (poll_ports n (i + 1) d) as [rs d2]. cbn [fst snd] in *.
    assert (Htext : mux_text ({| pr_port := i; pr_ret := ret;
                                 pr_flags := code (deref resp) |} :: rs)
                    = line ++ mux_text rs).
    { unfold mux_text, line. cbn [List.filter]. unfold port_ok at 1.
      cbn [pr_ret pr_port pr_flags]. now destruct (0 <=? ret). }
    exists buf2. rewrite Htext, length_app. split.
    + f_equal; [f_equal|lia].
      cbn [map]. unfold mux_call at 2. cbn [pr_port].
      now rewrite <- app_assoc.
    + replace (count + Z.of_nat (length line + length (mux_text rs))) with
        (count + Z.of_nat (length line) + Z.of_nat (length (mux_text rs))) by lia.
      rewrite T2, T1. now rewrite app_assoc.
Qed.

Lemma poll_ports_ports (n : nat) :
  forall (i : Z) (d : cros_ec_device),
    map pr_port (fst (poll_ports n i d)) = seqZ i (Z.of_nat n).
Proof.
  induction n as [|n IH]; intros i d; [reflexivity|].
  cbn [poll_ports]. destruct (transport_cmd d (mux_request i)) as [d1 [ret resp]].
  specialize (IH (i + 1) d1). destruct (poll_ports n (i + 1) d1) as [rs d2].
  cbn [fst map pr_port] in *. rewrite IH.
  rewrite (seqZ_cons i (Z.of_nat (S n))) by lia. f_equal. f_equal; lia.
Qed.

Lemma mux_text_nil (rs : list port_reply) :
  mux_text rs = [] <-> List.filter port_ok rs = [].
Proof.
  unfold mux_text. split; [|now intros ->].
  destruct (List.filter port_ok rs) as [|r l]; [reflexivity|].
  cbn [map concat]. intros E. apply app_eq_nil in E as [E _].
  now apply port_line_nonempty in E.
Qed.

Lemma filter_split_length (rs : list port_reply) :
  (length (List.filter port_ok rs)
   + length (List.filter (fun r => negb (port_ok r)) rs) = length rs)%nat.
Proof.
  induction rs as [|r rs IH]; [reflexivity|]. cbn [List.filter].
  destruct (port_ok r); cbn [negb length]; lia.
Qed.

End UsbPdMuxProofs.

Lemma filter_map_commute {A B : Type} (f : A -> bool) (g : B -> bool)
    (h : A -> B) (l : list A) :
  (forall x : A, In x l -> f x = g (h x)) ->
  map h (List.filter f l) = List.filter g (map h l).
Proof.
  induction l as [|x l IH]; intros Hfg; [reflexivity|].
  cbn [List.filter map]. rewrite <- (Hfg x (or_introl eq_refl)).
  destruct (f x); cbn [map]; rewrite IH; auto; intros; apply Hfg; now right.
Qed.

Lemma filter_keep_all {A : Type} (g : A -> bool) (l : list A) :
  (forall x : A, In x l -> g x = true) -> List.filter g l = l.
Proof.
  induction l as [|x l IH]; intros Hg; [reflexivity|].
  cbn [List.filter]. rewrite (Hg x (or_introl eq_refl)), IH; auto.
  intros; apply Hg; now right.
Qed.

(** Dropping one index from an ascending range leaves the two ranges around
    it. *)
Lemma filter_seqZ_except (n k : Z) :
  0 <= k < n ->
  List.filter (fun p => negb (p =? k)) (seqZ 0 n)
  = seqZ 0 k ++ seqZ (k + 1) (n - k - 1).
Proof.
  intros Hk.
  replace n with (k + (1 + (n - k - 1))) at 1 by lia.
  rewrite seqZ_app by lia. rewrite (seqZ_app _ 1) by lia.
  rewrite !List.filter_app. cbn [seqZ]. 
  rewrite (filter_keep_all _ (seqZ 0 k)).
  2:{ intros x Hx. apply list_elem_of_In, elem_of_seqZ in Hx.
      apply negb_true_iff, Z.eqb_neq. lia. }
  rewrite (filter_keep_all _ (seqZ (0 + k + 1) _)).
  2:{ intros x Hx. apply list_elem_of_In, elem_of_seqZ in Hx.
      apply negb_true_iff, Z.eqb_neq. lia. }
  f_equal. change (seqZ (0 + k) 1) with [0 + k]. cbn [List.filter].
  replace (0 + k =? k) with true by (symmetry; apply Z.eqb_eq; lia).
  cbn [negb app]. f_equal; lia.
Qed.

Section UsbPdMuxClaim.
Context `{ec_abi} {cros_ec_device : Type} `{cros_ec_proto cros_ec_device}.

(** C3. The read fails with -EIO when the port-count query fails, and when no
    port produced output: the count is 0 or every mux-info query failed. A
    failing mux-info query adds no line and the remaining ports are still
    queried: the output is the lines of the ports that answered, in ascending
    port order, each with the eight flags by name. When exactly one of the N
    queries fails these are the N-1 lines of the other ports. *)
Theorem usbpdmuxinfo_show_ports (ec : cros_ec_dev) (io : ec_io cros_ec_device)
    (buf : list ascii) :
  let ports := transport_cmd (ec_dev io) ports_request in
  let io1 :=
    {| ec_dev := fst ports; issued := issued io ++ [call_cmd ports_request] |} in
  let n := Z.to_nat (code (deref (snd (snd ports)))) in
  let rs := fst (poll_ports n 0 (fst ports)) in
  (fst (snd ports) < 0 -> usbpdmuxinfo_show ec io buf = (io1, (- EIO, buf)))
  /\ (0 <= fst (snd ports) ->
      exists buf' : list ascii,
        usbpdmuxinfo_show ec io buf =
        ({| ec_dev := snd (poll_ports n 0 (fst ports));
            issued := issued io1 ++ map mux_call rs |},
         (match List.filter port_ok rs with
          | [] => - EIO
          | _ :: _ => Z.of_nat (length (mux_text rs))
          end,
          buf'))
        /\ take (length (mux_text rs)) buf' = mux_text rs)
  /\ map pr_port rs = seqZ 0 (Z.of_nat n)
  /\ (n = 0%nat -> rs = [])
  /\ (forall k : Z,
         0 <= k < Z.of_nat n ->
         (forall r : port_reply, In r rs -> port_ok r = false <-> pr_port r = k) ->
         map pr_port (List.filter port_ok rs)
         = seqZ 0 k ++ seqZ (k + 1) (Z.of_nat n - k - 1)
         /\ length (List.filter port_ok rs) = (n - 1)%nat).
Proof.
  intros ports io1 n rs. unfold usbpdmuxinfo_show, cros_ec_cmd.
  fold ports_request. fold ports.
  assert (Hports : map pr_port rs = seqZ 0 (Z.of_nat n))
    by apply poll_ports_ports.
  destruct ports as [d1 [ret resp]] eqn:Ep. cbn [fst snd] in *.
  split; [|split; [|split; [|split]]].
  - intros Hret. apply Z.ltb_lt in Hret. now rewrite Hret.
  - intros Hret. apply Z.ltb_ge in Hret. rewrite Hret.
    fold n. fold io1.
    destruct (mux_ports_spec n 0 io1 buf 0 (Z.le_refl 0)) as (buf' & E & T).
    cbn [ec_dev io1] in E, T. fold rs in E, T. fold io1 in E.
    rewrite E. exists buf'. rewrite Z.add_0_l in *. rewrite Nat2Z.id in T.
    split; [|exact T]. f_equal. f_equal.
    destruct (List.filter port_ok rs) as [|r l] eqn:Ef.
    + apply mux_text_nil in Ef. now rewrite Ef.
    + destruct (mux_text rs) eqn:Et.
      * apply mux_text_nil in Et. congruence.
      * reflexivity.
  - exact Hports.
  - intros Hn. subst rs. now rewrite Hn.
  - intros k Hk Hone.
    assert (Hm : map pr_port (List.filter port_ok rs)
                 = seqZ 0 k ++ seqZ (k + 1) (Z.of_nat n - k - 1)).
    { rewrite (filter_map_commute port_ok (fun p => negb (p =? k)) pr_port rs).
      - rewrite Hports. now apply filter_seqZ_except.
      - intros r Hr. specialize (Hone r Hr).
        destruct (port_ok r), (Z.eqb_spec (pr_port r) k); cbn [negb];
          try reflexivity.
        + apply Hone in e. discriminate.
        + exfalso. apply n0. now apply Hone. }
    split; [exact Hm|].
    rewrite <- (length_map pr_port), Hm, length_app, !length_seqZ. lia.
Qed.

End UsbPdMuxClaim.

(** Three ports, of which port 1 does not answer: the lines of ports 0 and 2. *)
Example usbpdmuxinfo_show_three_ports :
  let d :=
    {| xfer_script := [];
       cmd_script := [(1, ["003"%char]); (1, ["001"%char]); (-71, []);
                      (1, ["134"%char])] |} in
  snd (@usbpdmuxinfo_show example_abi scripted scripted_proto example_ec (fresh d) [])
  = (152,
     lit "Port 0: USB=1 DP=0 POLARITY=NORMAL HPD_IRQ=0 HPD_LVL=0 SAFE=0 TBT=0 USB4=0"
     ++ LF
     ++ lit "Port 2: USB=0 DP=1 POLARITY=INVERTED HPD_IRQ=0 HPD_LVL=0 SAFE=0 TBT=0 USB4=1"
     ++ LF).
Proof. vm_compute. reflexivity. Qed.

(** ** version_show *)

Lemma length_receive (p old : list ascii) : length (receive p old) = length old.
Proof.
  unfold receive. rewrite length_take, length_app, length_drop. lia.
Qed.

Lemma length_set_last (f : field) (d : list ascii) :
  length (set_last f d) = length d.
Proof. apply length_insert. Qed.

Lemma terminate_set_last (f : field) (d : list ascii) :
  (0 < sizeof f)%nat -> (offsetof f + sizeof f <= length d)%nat ->
  terminate f d = Some (set_last f d).
Proof.
  intros H1 H2. unfold terminate.
  apply Nat.ltb_lt in H1. apply Nat.leb_le in H2. now rewrite H1, H2.
Qed.

(** A character array with a NUL at index [n] formats to the string of its
    first [n] characters. *)
Lemma fmt_s_terminated (a : list ascii) :
  forall n : nat, a !! n = Some NUL -> fmt_s a = Some (cstring (take n a)).
Proof.
  induction a as [|c a IH]; intros n Hn; [discriminate|].
  cbn [fmt_s]. destruct n as [|n].
  - cbn in Hn. injection Hn as ->. reflexivity.
  - cbn [lookup list_lookup] in Hn. cbn [take cstring].
    destruct (Ascii.eqb c NUL); [reflexivity|].
    now rewrite (IH n Hn).
Qed.

(** An array without a NUL has no formatting. *)
Lemma fmt_s_unterminated (a : list ascii) :
  forallb nonnul a = true -> fmt_s a = None.
Proof.
  induction a as [|c a IH]; [reflexivity|]. cbn [forallb fmt_s].
  unfold nonnul at 1. destruct (Ascii.eqb c NUL); [discriminate|].
  cbn [negb andb]. intros Ha. now rewrite IH.
Qed.

Lemma cstring_length (a : list ascii) : (length (cstring a) <= length a)%nat.
Proof.
  induction a as [|c a IH]; [reflexivity|]. cbn [cstring].
  destruct (Ascii.eqb c NUL); cbn [length]; lia.
Qed.

Lemma cstring_prefix (a : list ascii) : exists t, a = cstring a ++ t.
Proof.
  induction a as [|c a [t IH]]; [now exists []|]. cbn [cstring].
  destruct (Ascii.eqb c NUL); [now exists (c :: a)|].
  exists t. cbn [app]. now rewrite <- IH.
Qed.

Lemma member_last (f : field) (d : list ascii) :
  (0 < sizeof f)%nat ->
  member f d !! (sizeof f - 1)%nat = d !! (offsetof f + sizeof f - 1)%nat.
Proof.
  intros Hf. unfold member. rewrite lookup_take_lt by lia.
  rewrite lookup_drop. f_equal. lia.
Qed.

(** The member of a buffer whose last byte is NUL formats to its text. *)
Lemma fmt_s_member (f : field) (d : list ascii) :
  (0 < sizeof f)%nat ->
  d !! (offsetof f + sizeof f - 1)%nat = Some NUL ->
  fmt_s (member f d) = Some (field_text f d).
Proof.
  intros Hf Hd. apply fmt_s_terminated. now rewrite member_last.
Qed.

Lemma set_last_lookup (f : field) (d : list ascii) :
  (offsetof f + sizeof f <= length d)%nat -> (0 < sizeof f)%nat ->
  set_last f d !! (offsetof f + sizeof f - 1)%nat = Some NUL.
Proof. intros H1 H2. apply list_lookup_insert_eq. lia. Qed.

(** Setting another byte to NUL keeps a NUL where there is one. *)
Lemma set_last_keeps (g : field) (d : list ascii) (i : nat) :
  d !! i = Some NUL -> set_last g d !! i = Some NUL.
Proof.
  intros Hd. unfold set_last.
  destruct (decide (i = (offsetof g + sizeof g - 1)%nat)) as [->|N].
  - apply list_lookup_insert_eq. now apply lookup_lt_Some in Hd.
  - now rewrite list_lookup_insert_ne by congruence.
Qed.

Lemma le_value_nonneg (bs : list ascii) : 0 <= le_value bs.
Proof.
  induction bs as [|b bs IH]; cbn [le_value]; [lia|].
  unfold code. lia.
Qed.

Lemma le_value_bound (bs : list ascii) :
  0 <= le_value bs < 2 ^ (8 * Z.of_nat (length bs)).
Proof.
  induction bs as [|b bs IH]; cbn [le_value length]; [simpl; lia|].
  assert (Hb : 0 <= code b < 2 ^ 8).
  { unfold code. pose proof (N_ascii_bounded b) as Hb. lia. }
  replace (8 * Z.of_nat (S (length bs))) with (8 + 8 * Z.of_nat (length bs)) by lia.
  rewrite Z.pow_add_r by lia. nia.
Qed.

Lemma load_in_bounds (n off : nat) (d : list ascii) :
  (off + n <= length d)%nat -> load n off d = Some (le_value (take n (drop off d))).
Proof.
  intros Hb. unfold load.
  replace (length (take n (drop off d)) =? n)%nat with true; [reflexivity|].
  symmetry. apply Nat.eqb_eq. rewrite length_take, length_drop. lia.
Qed.

(** The guarded lookup in [image_names] is the name of the image. *)
Lemma image_name_guarded (v : Z) :
  0 <= v ->
  (if v <? Z.of_nat (length image_names) then image_names !! Z.to_nat v
   else Some (lit "?"))
  = Some (image_text v).
Proof.
  intros Hv. unfold image_text. cbn [image_names length].
  destruct (Z.ltb_spec v (Z.of_nat 3)) as [Hlt|Hge].
  - assert (Hc : v = 0 \/ v = 1 \/ v = 2) by lia.
    destruct Hc as [->|[->| ->]]; reflexivity.
  - replace (v =? 0) with false by (symmetry; apply Z.eqb_neq; lia).
    replace (v =? 1) with false by (symmetry; apply Z.eqb_neq; lia).
    replace (v =? 2) with false by (symmetry; apply Z.eqb_neq; lia).
    reflexivity.
Qed.

Section VersionProofs.
Context `{ec_abi} {cros_ec_device : Type} `{cros_ec_proto cros_ec_device}.
Hypothesis abi_ok : layout_ok.

Lemma xfer_in_place_inv (io io' : ec_io cros_ec_device)
    (msg msg' : cros_ec_command (list ascii)) (ret : Z) :
  xfer_in_place io msg = (io', msg', ret) ->
  exists (d : cros_ec_device) (r : xfer_result),
    transport_xfer_status (ec_dev io) (request_of_bytes msg) = (d, r)
    /\ io' = {| ec_dev := d;
                issued := issued io ++ [call_xfer_status (request_of_bytes msg)] |}
    /\ msg' = {| version := version msg; command := command msg;
                 outsize := outsize msg; insize := insize msg;
                 result := ec_result r;
                 data := receive (payload r) (data msg) |}
    /\ ret = xfer_ret r.
Proof.
  unfold xfer_in_place, cros_ec_cmd_xfer_status.
  destruct (transport_xfer_status _ _) as [d r]. intros [= <- <- <-].
  now exists d, r.
Qed.

Lemma emit_first (buf t : list ascii) :
  sysfs_emit_at buf 0 t = (t, Z.of_nat (length t)).
Proof. reflexivity. Qed.

Lemma emit_next (text t : list ascii) :
  sysfs_emit_at text (Z.of_nat (length text)) t = (text ++ t, Z.of_nat (length t)).
Proof. unfold sysfs_emit_at. now rewrite Nat2Z.id, firstn_all. Qed.

Lemma count_next (text t : list ascii) :
  Z.of_nat (length text) + Z.of_nat (length t) = Z.of_nat (length (text ++ t)).
Proof. rewrite length_app. lia. Qed.

Ltac emit_step :=
  rewrite ?Z.add_0_l, ?count_next;
  first [rewrite emit_first | rewrite emit_next];
  cbv beta iota.

Ltac xfer_step rq d r T :=
  match goal with
  | |- context [xfer_in_place ?io ?m] =>
      let E := fresh "E" in
      destruct (xfer_in_place io m) as [[? ?] ?] eqn:E;
      apply xfer_in_place_inv in E as (d & r & T & -> & -> & ->);
      change (request_of_bytes _) with rq in *;
      cbn [ec_dev] in T; rewrite T;
      cbn [version command outsize insize result data with_data with_command
           with_insize ec_dev issued]
  end.

Ltac buffer_size :=
  repeat first [rewrite length_set_last | rewrite length_receive];
  cbn [sizeof offsetof build_info]; lia.

Ltac nul_at_last :=
  repeat first [apply set_last_lookup; buffer_size | apply set_last_keeps].

Lemma version_show_spec (ec : cros_ec_dev) (io : ec_io cros_ec_device)
    (msg : cros_ec_command (list ascii)) (buf : list ascii) :
  length (data msg) = EC_HOST_PARAM_SIZE ->
  version_show ec io (Some msg) buf = Some (version_outcome ec io (data msg) buf).
Proof.
  intros Hlen. unfold version_show, version_outcome.
  destruct abi_ok as [Hsize [Rro Fro] [Rrw Frw] Hci [Rve Fve] [Rna Fna] [Rre Fre] Hbv].
  (* get version *)
  xfer_step (get_version_request ec) dv1 r1 T1.
  destruct (xfer_ret r1 <? 0); [reflexivity|].
  rewrite (terminate_set_last version_string_ro) by buffer_size.
  rewrite (terminate_set_last version_string_rw) by buffer_size.
  rewrite (fmt_s_member version_string_ro) by first [buffer_size | nul_at_last]. emit_step.
  rewrite (fmt_s_member version_string_rw) by first [buffer_size | nul_at_last]. emit_step.
  rewrite (load_in_bounds 4 current_image) by buffer_size.
  rewrite image_name_guarded by apply le_value_nonneg. emit_step.
  (* get build info *)
  xfer_step (get_build_info_request ec) dv2 r2 T2.
  destruct (xfer_ret r2 <? 0) eqn:F2;
    [ emit_step
    | change {| offsetof := 0; sizeof := EC_HOST_PARAM_SIZE |} with build_info;
      rewrite (terminate_set_last build_info) by buffer_size;
      cbn [with_data data];
      match goal with
      | |- context [fmt_s (take EC_HOST_PARAM_SIZE ?d)] =>
          change (take EC_HOST_PARAM_SIZE d) with (member build_info d)
      end;
      rewrite (fmt_s_member build_info) by first [buffer_size | nul_at_last];
      emit_step ].
  (* get chip info *)
  all: xfer_step (get_chip_info_request ec) dv3 r3 T3.
  all: destruct (xfer_ret r3 <? 0) eqn:F3;
    [ emit_step
    | rewrite (terminate_set_last vendor) by buffer_size;
      rewrite (terminate_set_last name) by buffer_size;
      rewrite (terminate_set_last revision) by buffer_size;
      cbn [with_data data];
      rewrite (fmt_s_member vendor) by first [buffer_size | nul_at_last]; emit_step;
      rewrite (fmt_s_member name) by first [buffer_size | nul_at_last]; emit_step;
      rewrite (fmt_s_member revision) by first [buffer_size | nul_at_last]; emit_step ].
  (* get board version *)
  all: xfer_step (get_board_version_request ec) dv4 r4 T4.
  all: destruct (xfer_ret r4 <? 0) eqn:F4;
    [ emit_step
    | rewrite (load_in_bounds 2 board_version) by buffer_size; emit_step ].
  all: rewrite ?count_next.
  all: unfold version_text, build_info_text, chip_info_text, board_version_text,
         diagnostic, after_get_board_version, after_get_chip_info,
         after_get_build_info, after_get_version.
  all: rewrite ?F2, ?F3, ?F4.
  all: rewrite <- !app_assoc.
  all: reflexivity.
Qed.

End VersionProofs.

Lemma take_member_set_last (f : field) (d : list ascii) :
  take (sizeof f - 1) (member f (set_last f d)) = take (sizeof f - 1) (member f d).
Proof.
  unfold member, set_last. rewrite !take_take.
  replace (sizeof f - 1 `min` sizeof f)%nat with (sizeof f - 1)%nat by lia.
  destruct (decide (sizeof f = 0)%nat) as [E|N]; [now rewrite E|].
  rewrite drop_insert_ge by lia. apply take_insert_ge. lia.
Qed.

Section VersionClaims.
Context `{ec_abi} {cros_ec_device : Type} `{cros_ec_proto cros_ec_device}.

Lemma string_fields_ok (abi_ok : layout_ok) (f : field) :
  In f string_fields -> field_ok f.
Proof.
  destruct abi_ok. unfold string_fields. cbn [In].
  intros [<-|[<-|[<-|[<-|[<-|[<-|[]]]]]]]; try assumption.
  split; cbn [sizeof offsetof build_info]; lia.
Qed.

(** C1, amended. A failure of get-version ends the read with its status: no
    text, no further sub-query. Otherwise the three later sub-queries
    (get-build-info, get-chip-info, get-board-version) are all issued whatever
    the others return; each that fails emits its diagnostic line with the
    transport status and the result code of the controller, each that succeeds
    emits its formatted data, and the text is their concatenation in the fixed
    order after the lines of get-version. *)
Theorem version_show_sub_queries (abi_ok : layout_ok) (ec : cros_ec_dev)
    (io : ec_io cros_ec_device) (msg : cros_ec_command (list ascii))
    (buf : list ascii) (dv1 dv2 dv3 dv4 : cros_ec_device)
    (r1 r2 r3 r4 : xfer_result) :
  length (data msg) = EC_HOST_PARAM_SIZE ->
  transport_xfer_status (ec_dev io) (get_version_request ec) = (dv1, r1) ->
  transport_xfer_status dv1 (get_build_info_request ec) = (dv2, r2) ->
  transport_xfer_status dv2 (get_chip_info_request ec) = (dv3, r3) ->
  transport_xfer_status dv3 (get_board_version_request ec) = (dv4, r4) ->
  (xfer_ret r1 < 0 ->
   version_show ec io (Some msg) buf =
   Some ({| ec_dev := dv1;
            issued := issued io ++ [call_xfer_status (get_version_request ec)] |},
         (xfer_ret r1, buf)))
  /\ (0 <= xfer_ret r1 ->
      let d1 := after_get_version r1 (data msg) in
      let d2 := after_get_build_info r2 d1 in
      let d3 := after_get_chip_info r3 d2 in
      let d4 := after_get_board_version r4 d3 in
      let text :=
        version_text d1
        ++ (if xfer_ret r2 <? 0 then diagnostic (lit "Build info:    ") r2
            else lit "Build info:    " ++ field_text build_info d2 ++ LF)
        ++ (if xfer_ret r3 <? 0 then diagnostic (lit "Chip info:     ") r3
            else
              lit "Chip vendor:   " ++ field_text vendor d3 ++ LF
              ++ lit "Chip name:     " ++ field_text name d3 ++ LF
              ++ lit "Chip revision: " ++ field_text revision d3 ++ LF)
        ++ (if xfer_ret r4 <? 0 then diagnostic (lit "Board version: ") r4
            else
              lit "Board version: "
              ++ fmt_d (le_value (take 2 (drop board_version d4))) ++ LF) in
      version_show ec io (Some msg) buf =
      Some ({| ec_dev := dv4;
               issued :=
                 issued io
                 ++ [call_xfer_status (get_version_request ec);
                     call_xfer_status (get_build_info_request ec);
                     call_xfer_status (get_chip_info_request ec);
                     call_xfer_status (get_board_version_request ec)] |},
            (Z.of_nat (length text), text))).
Proof.
  intros Hlen T1 T2 T3 T4.
  rewrite (version_show_spec abi_ok ec io msg buf Hlen).
  unfold version_outcome. rewrite T1. split.
  - intros Hf. apply Z.ltb_lt in Hf. now rewrite Hf.
  - intros Hs. apply Z.ltb_ge in Hs. rewrite Hs, T2, T3, T4. reflexivity.
Qed.

(** C5. When get-build-info fails and the other three sub-queries succeed, the
    text is the three lines of get-version, the one diagnostic line of
    build-info with the transport status and the result code, the three lines
    of chip-info and the line of the board version, in this order. *)
Theorem version_show_build_info_fails (abi_ok : layout_ok) (ec : cros_ec_dev)
    (io : ec_io cros_ec_device) (msg : cros_ec_command (list ascii))
    (buf : list ascii) (dv1 dv2 dv3 dv4 : cros_ec_device)
    (r1 r2 r3 r4 : xfer_result) :
  length (data msg) = EC_HOST_PARAM_SIZE ->
  transport_xfer_status (ec_dev io) (get_version_request ec) = (dv1, r1) ->
  transport_xfer_status dv1 (get_build_info_request ec) = (dv2, r2) ->
  transport_xfer_status dv2 (get_chip_info_request ec) = (dv3, r3) ->
  transport_xfer_status dv3 (get_board_version_request ec) = (dv4, r4) ->
  0 <= xfer_ret r1 -> xfer_ret r2 < 0 -> 0 <= xfer_ret r3 -> 0 <= xfer_ret r4 ->
  let d1 := after_get_version r1 (data msg) in
  let d2 := receive (payload r2) d1 in
  let d3 :=
    set_last revision (set_last name (set_last vendor (receive (payload r3) d2))) in
  let d4 := receive (payload r4) d3 in
  let text :=
    lit "RO version:    " ++ field_text version_string_ro d1 ++ LF
    ++ lit "RW version:    " ++ field_text version_string_rw d1 ++ LF
    ++ lit "Firmware copy: "
    ++ image_text (le_value (take 4 (drop current_image d1))) ++ LF
    ++ lit "Build info:    XFER / EC ERROR " ++ fmt_d (xfer_ret r2)
    ++ lit " / " ++ fmt_d (int_of_u32 (ec_result r2)) ++ LF
    ++ lit "Chip vendor:   " ++ field_text vendor d3 ++ LF
    ++ lit "Chip name:     " ++ field_text name d3 ++ LF
    ++ lit "Chip revision: " ++ field_text revision d3 ++ LF
    ++ lit "Board version: "
    ++ fmt_d (le_value (take 2 (drop board_version d4))) ++ LF in
  version_show ec io (Some msg) buf =
  Some ({| ec_dev := dv4;
           issued :=
             issued io
             ++ [call_xfer_status (get_version_request ec);
                 call_xfer_status (get_build_info_request ec);
                 call_xfer_status (get_chip_info_request ec);
                 call_xfer_status (get_board_version_request ec)] |},
        (Z.of_nat (length text), text)).
Proof.
  intros Hlen T1 T2 T3 T4 S1 F2 S3 S4.
  rewrite (version_show_spec abi_ok ec io msg buf Hlen).
  unfold version_outcome. rewrite T1, T2, T3, T4.
  apply Z.ltb_ge in S1, S3, S4. apply Z.ltb_lt in F2. rewrite S1.
  unfold version_text, build_info_text, chip_info_text, board_version_text,
    diagnostic, after_get_board_version, after_get_chip_info,
    after_get_build_info.
  rewrite F2, S3, S4. cbv zeta. rewrite <- !app_assoc. reflexivity.
Qed.

Lemma length_set_lasts (fs : list field) :
  forall d : list ascii, length (set_lasts fs d) = length d.
Proof.
  induction fs as [|g fs IH]; intros d; [reflexivity|].
  cbn [set_lasts fold_left]. fold (set_lasts fs (set_last g d)).
  now rewrite IH, length_set_last.
Qed.

Lemma set_lasts_keeps (fs : list field) :
  forall (d : list ascii) (i : nat),
    d !! i = Some NUL -> set_lasts fs d !! i = Some NUL.
Proof.
  induction fs as [|g fs IH]; intros d i Hi; [exact Hi|].
  cbn [set_lasts fold_left]. fold (set_lasts fs (set_last g d)).
  now apply IH, set_last_keeps.
Qed.

(** After the terminators of [fs] are forced, each member of [fs] ends in a
    NUL. *)
Lemma set_lasts_lookup (fs : list field) :
  forall (d : list ascii) (f : field),
    In f fs -> (0 < sizeof f)%nat -> (offsetof f + sizeof f <= length d)%nat ->
    set_lasts fs d !! (offsetof f + sizeof f - 1)%nat = Some NUL.
Proof.
  induction fs as [|g fs IH]; intros d f Hin Hroom Hfits; [destruct Hin|].
  cbn [set_lasts fold_left]. fold (set_lasts fs (set_last g d)).
  destruct Hin as [->|Hin].
  - apply set_lasts_keeps, set_last_lookup; assumption.
  - apply IH; [exact Hin|exact Hroom|]. now rewrite length_set_last.
Qed.

(** A terminator forced outside the bytes of [f] before its last leaves these
    bytes as they are. *)
Lemma take_member_set_last_apart (f g : field) (d : list ascii) :
  apart f g ->
  take (sizeof f - 1) (member f (set_last g d)) = take (sizeof f - 1) (member f d).
Proof.
  intros Hfg. unfold member, set_last. rewrite !take_take.
  replace (sizeof f - 1 `min` sizeof f)%nat with (sizeof f - 1)%nat by lia.
  destruct (decide (sizeof f = 0)%nat) as [E|N]; [now rewrite E|].
  destruct Hfg as [Hlt|Hge].
  - now rewrite drop_insert_lt by exact Hlt.
  - rewrite drop_insert_ge by lia. apply take_insert_ge. lia.
Qed.

Lemma take_member_set_lasts (f : field) (fs : list field) :
  forall d : list ascii,
    (forall g : field, In g fs -> apart f g) ->
    take (sizeof f - 1) (member f (set_lasts fs d))
    = take (sizeof f - 1) (member f d).
Proof.
  induction fs as [|g fs IH]; intros d Hfs; [reflexivity|].
  cbn [set_lasts fold_left]. fold (set_lasts fs (set_last g d)).
  rewrite IH by (intros g' Hg'; apply Hfs; now right).
  apply take_member_set_last_apart, Hfs. now left.
Qed.

Lemma forallb_take (p : ascii -> bool) (n : nat) (a : list ascii) :
  forallb p a = true -> forallb p (take n a) = true.
Proof.
  revert n. induction a as [|c a IH]; intros [|n] Ha; try reflexivity.
  cbn [forallb take] in *. apply andb_prop in Ha as [Hc Ha].
  now rewrite Hc, IH.
Qed.

(** C4. Whatever the controller replies, once get-version succeeds the read
    has a result, and each string line of its text (RO and RW version, build
    info, chip vendor, name and revision) is the text of the member in the
    buffer after the handler has forced the last byte of every string member
    of that response to NUL. That buffer holds a NUL at the last byte of the
    member, so formatting the member stops inside it: the line shows at most
    size-1 characters, all of them bytes of the member. When the member as
    received holds no NUL, formatting it as received has no result; the
    handler's line is then the first size-1 bytes received, provided no other
    forced terminator of the response lies among them. *)
Theorem version_show_strings_terminated (abi_ok : layout_ok) (ec : cros_ec_dev)
    (io : ec_io cros_ec_device) (msg : cros_ec_command (list ascii))
    (buf : list ascii) (dv1 dv2 dv3 dv4 : cros_ec_device)
    (r1 r2 r3 r4 : xfer_result) :
  length (data msg) = EC_HOST_PARAM_SIZE ->
  transport_xfer_status (ec_dev io) (get_version_request ec) = (dv1, r1) ->
  transport_xfer_status dv1 (get_build_info_request ec) = (dv2, r2) ->
  transport_xfer_status dv2 (get_chip_info_request ec) = (dv3, r3) ->
  transport_xfer_status dv3 (get_board_version_request ec) = (dv4, r4) ->
  0 <= xfer_ret r1 ->
  let x1 := receive (payload r1) (data msg) in
  let d1 := set_lasts [version_string_ro; version_string_rw] x1 in
  let x2 := receive (payload r2) d1 in
  let d2 := if xfer_ret r2 <? 0 then x2 else set_lasts [build_info] x2 in
  let x3 := receive (payload r3) d2 in
  let d3 :=
    if xfer_ret r3 <? 0 then x3 else set_lasts [vendor; name; revision] x3 in
  let d4 := receive (payload r4) d3 in
  let text :=
    lit "RO version:    " ++ field_text version_string_ro d1 ++ LF
    ++ lit "RW version:    " ++ field_text version_string_rw d1 ++ LF
    ++ lit "Firmware copy: "
    ++ image_text (le_value (take 4 (drop current_image d1))) ++ LF
    ++ (if xfer_ret r2 <? 0 then diagnostic (lit "Build info:    ") r2
        else lit "Build info:    " ++ field_text build_info d2 ++ LF)
    ++ (if xfer_ret r3 <? 0 then diagnostic (lit "Chip info:     ") r3
        else
          lit "Chip vendor:   " ++ field_text vendor d3 ++ LF
          ++ lit "Chip name:     " ++ field_text name d3 ++ LF
          ++ lit "Chip revision: " ++ field_text revision d3 ++ LF)
    ++ (if xfer_ret r4 <? 0 then diagnostic (lit "Board version: ") r4
        else
          lit "Board version: "
          ++ fmt_d (le_value (take 2 (drop board_version d4))) ++ LF) in
  version_show ec io (Some msg) buf =
  Some ({| ec_dev := dv4;
           issued :=
             issued io
             ++ [call_xfer_status (get_version_request ec);
                 call_xfer_status (get_build_info_request ec);
                 call_xfer_status (get_chip_info_request ec);
                 call_xfer_status (get_board_version_request ec)] |},
        (Z.of_nat (length text), text))
  /\ forall (fs : list field) (x : list ascii) (f : field),
       In (fs, x)
         [([version_string_ro; version_string_rw], x1);
          ([build_info], x2);
          ([vendor; name; revision], x3)] ->
       In f fs ->
       let d := set_lasts fs x in
       d !! (offsetof f + sizeof f - 1)%nat = Some NUL
       /\ fmt_s (member f d) = Some (field_text f d)
       /\ (length (field_text f d) <= sizeof f - 1)%nat
       /\ (exists t : list ascii, member f d = field_text f d ++ t)
       /\ (forallb nonnul (member f x) = true ->
           fmt_s (member f x) = None
           /\ ((forall g : field, In g fs -> apart f g) ->
               field_text f d = take (sizeof f - 1) (member f x))).
Proof.
  intros Hlen T1 T2 T3 T4 S1 x1 d1 x2 d2 x3 d3 d4 text. split.
  - rewrite (version_show_spec abi_ok ec io msg buf Hlen).
    unfold version_outcome. rewrite T1, T2, T3, T4.
    apply Z.ltb_ge in S1. rewrite S1. cbv zeta.
    unfold version_text, build_info_text, chip_info_text, board_version_text.
    subst text d4 d3 x3 d2 x2 d1 x1.
    unfold after_get_board_version, after_get_chip_info, after_get_build_info,
      after_get_version.
    destruct (xfer_ret r2 <? 0), (xfer_ret r3 <? 0), (xfer_ret r4 <? 0);
      cbn [set_lasts fold_left]; rewrite <- !app_assoc; reflexivity.
  - intros fs x f Hx Hf d.
    assert (Lx1 : length x1 = EC_HOST_PARAM_SIZE)
      by (subst x1; now rewrite length_receive).
    assert (Lx2 : length x2 = EC_HOST_PARAM_SIZE)
      by (subst x2 d1; now rewrite length_receive, length_set_lasts).
    assert (Lx3 : length x3 = EC_HOST_PARAM_SIZE).
    { subst x3 d2. rewrite length_receive.
      destruct (xfer_ret r2 <? 0); now rewrite ?length_set_lasts. }
    assert (Hfx : field_ok f /\ length x = EC_HOST_PARAM_SIZE).
    { cbn [In] in Hx.
      destruct Hx as [[= <- <-]|[[= <- <-]|[[= <- <-]|[]]]]; split; try assumption;
        apply (string_fields_ok abi_ok); unfold string_fields;
        cbn [In] in *; tauto. }
    destruct Hfx as [[Hroom Hfits] Lx].
    assert (Hnul : d !! (offsetof f + sizeof f - 1)%nat = Some NUL).
    { subst d. apply set_lasts_lookup; [exact Hf|exact Hroom|]. now rewrite Lx. }
    split; [exact Hnul|]. split; [exact (fmt_s_member f d Hroom Hnul)|].
    split; [|split].
    + unfold field_text. etransitivity; [apply cstring_length|].
      rewrite length_take. lia.
    + unfold field_text.
      destruct (cstring_prefix (take (sizeof f - 1) (member f d))) as [t Ht].
      exists (t ++ drop (sizeof f - 1) (member f d)).
      rewrite app_assoc, <- Ht. symmetry. apply take_drop.
    + intros Hno. split; [now apply fmt_s_unterminated|].
      intros Hap. unfold field_text. subst d.
      rewrite (take_member_set_lasts f fs x Hap).
      apply cstring_nonnul, forallb_take, Hno.
Qed.

(** C9. Once get-version succeeds, the third line of the text is
    "Firmware copy: " followed by the entry of [image_names] at current_image
    when that value is 0, 1 or 2 ("unknown", "RO", "RW"), and by "?" for every
    other value of the 32-bit member; the table is not indexed outside its
    three entries. *)
Theorem version_show_firmware_copy (abi_ok : layout_ok) (ec : cros_ec_dev)
    (io : ec_io cros_ec_device) (msg : cros_ec_command (list ascii))
    (buf : list ascii) (dv1 : cros_ec_device) (r1 : xfer_result) :
  length (data msg) = EC_HOST_PARAM_SIZE ->
  transport_xfer_status (ec_dev io) (get_version_request ec) = (dv1, r1) ->
  0 <= xfer_ret r1 ->
  let d1 := after_get_version r1 (data msg) in
  let image := le_value (take 4 (drop current_image d1)) in
  (exists (io' : ec_io cros_ec_device) (rest : list ascii),
      let text :=
        lit "RO version:    " ++ field_text version_string_ro d1 ++ LF
        ++ lit "RW version:    " ++ field_text version_string_rw d1 ++ LF
        ++ lit "Firmware copy: "
        ++ (if image =? 0 then lit "unknown"
            else if image =? 1 then lit "RO"
            else if image =? 2 then lit "RW"
            else lit "?")
        ++ LF ++ rest in
      version_show ec io (Some msg) buf
      = Some (io', (Z.of_nat (length text), text)))
  /\ (forall v : Z,
         0 <= v ->
         (if v <? Z.of_nat (length image_names) then image_names !! Z.to_nat v
          else Some (lit "?"))
         = Some (if v =? 0 then lit "unknown"
                 else if v =? 1 then lit "RO"
                 else if v =? 2 then lit "RW"
                 else lit "?"))
  /\ 0 <= image < 2 ^ 32.
Proof.
  intros Hlen T1 S1 d1 image. split; [|split].
  - rewrite (version_show_spec abi_ok ec io msg buf Hlen).
    unfold version_outcome. rewrite T1. apply Z.ltb_ge in S1. rewrite S1.
    destruct (transport_xfer_status dv1 _) as [dv2 r2].
    destruct (transport_xfer_status dv2 _) as [dv3 r3].
    destruct (transport_xfer_status dv3 _) as [dv4 r4].
    cbv zeta. fold d1. unfold version_text. fold image.
    eexists. eexists. rewrite <- !app_assoc. reflexivity.
  - intros v Hv. exact (image_name_guarded v Hv).
  - pose proof (le_value_bound (take 4 (drop current_image d1))) as Hb.
    fold image in Hb. rewrite length_take in Hb. split; [lia|].
    eapply Z.lt_le_trans; [apply Hb|].
    apply Z.pow_le_mono_r; lia.
Qed.

End VersionClaims.

(** *** Instances on the example interface *)

(** The text when only get-build-info fails. *)
Lemma version_show_build_info_fails_witness :
  @layout_ok example_abi
  /\ @version_show example_abi scripted scripted_proto example_ec
       (fresh (script [version_reply; failed_reply; chip_reply; board_reply]))
       (Some fresh_msg) []
     = Some ({| ec_dev := script [];
                issued :=
                  [call_xfer_status (@get_version_request example_abi example_ec);
                   call_xfer_status (@get_build_info_request example_abi example_ec);
                   call_xfer_status (@get_chip_info_request example_abi example_ec);
                   call_xfer_status (@get_board_version_request example_abi example_ec)] |},
             (207, build_info_fails_text)).
Proof.
  split; [exact example_layout_ok|].
  rewrite (@version_show_build_info_fails example_abi scripted scripted_proto
             example_layout_ok example_ec
             (fresh (script [version_reply; failed_reply; chip_reply; board_reply]))
             fresh_msg []
             (script [failed_reply; chip_reply; board_reply])
             (script [chip_reply; board_reply]) (script [board_reply]) (script [])
             version_reply failed_reply chip_reply board_reply)
    by (reflexivity || (cbn; lia)).
  vm_compute. reflexivity.
Defined.

(** The text when get-build-info and get-board-version fail: two diagnostic
    lines, and the chip lines in between. *)
Lemma version_show_sub_queries_witness :
  @layout_ok example_abi
  /\ @version_show example_abi scripted scripted_proto example_ec
       (fresh (script [version_reply; failed_reply; chip_reply; failed_reply]))
       (Some fresh_msg) []
     = Some ({| ec_dev := script [];
                issued :=
                  [call_xfer_status (@get_version_request example_abi example_ec);
                   call_xfer_status (@get_build_info_request example_abi example_ec);
                   call_xfer_status (@get_chip_info_request example_abi example_ec);
                   call_xfer_status (@get_board_version_request example_abi example_ec)] |},
             (229,
              lit "RO version:    ro_v1.0" ++ LF
              ++ lit "RW version:    BBBBBBBBBBBBBBBBBBBBBBBBBBBBBBB" ++ LF
              ++ lit "Firmware copy: RW" ++ LF
              ++ lit "Build info:    XFER / EC ERROR -71 / 3" ++ LF
              ++ lit "Chip vendor:   acme" ++ LF
              ++ lit "Chip name:     ec9000" ++ LF
              ++ lit "Chip revision: rev_b" ++ LF
              ++ lit "Board version: XFER / EC ERROR -71 / 3" ++ LF)).
Proof.
  split; [exact example_layout_ok|].
  destruct (@version_show_sub_queries example_abi scripted scripted_proto
              example_layout_ok example_ec
              (fresh (script [version_reply; failed_reply; chip_reply; failed_reply]))
              fresh_msg []
              (script [failed_reply; chip_reply; failed_reply])
              (script [chip_reply; failed_reply]) (script [failed_reply]) (script [])
              version_reply failed_reply chip_reply failed_reply
              eq_refl eq_refl eq_refl eq_refl eq_refl) as [_ W].
  rewrite W by (cbn; lia). vm_compute. reflexivity.
Defined.

(** C1 as stated fails for get-version: when it fails, the three remaining
    sub-queries are not issued although the controller would answer them, and
    there is no diagnostic line, only the status. *)
Lemma version_show_get_version_failure_aborts :
  @version_show example_abi scripted scripted_proto example_ec
    (fresh (script [failed_reply; failed_reply; chip_reply; board_reply]))
    (Some fresh_msg) []
  = Some ({| ec_dev := script [failed_reply; chip_reply; board_reply];
             issued :=
               [call_xfer_status (@get_version_request example_abi example_ec)] |},
          (-71, [])).
Proof. vm_compute. reflexivity. Qed.

(** An RW version string of 32 bytes without a NUL: no formatting as
    received; the line of the read shows its first 31 bytes. *)
Lemma version_show_strings_terminated_witness :
  @layout_ok example_abi
  /\ forallb nonnul
       (member (@version_string_rw example_abi)
          (receive (payload version_reply) (data fresh_msg))) = true
  /\ @version_show example_abi scripted scripted_proto example_ec
       (fresh (script [version_reply; failed_reply; chip_reply; board_reply]))
       (Some fresh_msg) []
     = Some ({| ec_dev := script [];
                issued :=
                  [call_xfer_status (@get_version_request example_abi example_ec);
                   call_xfer_status (@get_build_info_request example_abi example_ec);
                   call_xfer_status (@get_chip_info_request example_abi example_ec);
                   call_xfer_status (@get_board_version_request example_abi example_ec)] |},
             (207, build_info_fails_text))
  /\ fmt_s (member (@version_string_rw example_abi)
              (receive (payload version_reply) (data fresh_msg)))
     = None
  /\ field_text (@version_string_rw example_abi)
       (set_lasts [@version_string_ro example_abi; @version_string_rw example_abi]
          (receive (payload version_reply) (data fresh_msg)))
     = repeat "B"%char 31.
Proof.
  split; [exact example_layout_ok|]. split; [reflexivity|].
  destruct (@version_show_strings_terminated example_abi scripted scripted_proto
              example_layout_ok example_ec
              (fresh (script [version_reply; failed_reply; chip_reply; board_reply]))
              fresh_msg []
              (script [failed_reply; chip_reply; board_reply])
              (script [chip_reply; board_reply]) (script [board_reply]) (script [])
              version_reply failed_reply chip_reply board_reply
              eq_refl eq_refl eq_refl eq_refl eq_refl ltac:(cbn; lia))
    as [W1 W2].
  split; [rewrite W1; vm_compute; reflexivity|].
  destruct (W2 [@version_string_ro example_abi; @version_string_rw example_abi]
              (receive (payload version_reply) (data fresh_msg))
              (@version_string_rw example_abi)
              (or_introl eq_refl) (or_intror (or_introl eq_refl)))
    as (_ & _ & _ & _ & U).
  destruct (U eq_refl) as [U1 U2]. split; [exact U1|].
  rewrite U2; [reflexivity|].
  intros g [<-|[<-|[]]]; unfold apart; cbn; lia.
Defined.

(** A current_image of 16777216 prints as "?". *)
Lemma version_show_firmware_copy_witness :
  @layout_ok example_abi
  /\ exists (io' : ec_io scripted) (rest : list ascii),
       let text :=
         lit "RO version:    ro_v1.0" ++ LF
         ++ lit "RW version:    rw_v1.1" ++ LF
         ++ lit "Firmware copy: ?" ++ LF ++ rest in
       @version_show example_abi scripted scripted_proto example_ec
         (fresh (script [odd_image_reply])) (Some fresh_msg) []
       = Some (io', (Z.of_nat (length text), text)).
Proof.
  split; [exact example_layout_ok|].
  destruct (@version_show_firmware_copy example_abi scripted scripted_proto
              example_layout_ok example_ec (fresh (script [odd_image_reply]))
              fresh_msg [] (script []) odd_image_reply eq_refl eq_refl
              ltac:(cbn; lia)) as [(io' & rest & W) _].
  exists io', rest. exact W.
Defined.

(** * Further properties of the handlers *)

(** ** reboot_store: what the scan does not depend on *)

Lemma tolower_NUL (c : ascii) : Ascii.eqb (tolower c) NUL = Ascii.eqb c NUL.
Proof. destruct c as [[] [] [] [] [] [] [] []]; reflexivity. Qed.

Lemma isspace_tolower (c : ascii) : isspace (tolower c) = isspace c.
Proof. destruct c as [[] [] [] [] [] [] [] []]; reflexivity. Qed.

Lemma tolower_idem (c : ascii) : tolower (tolower c) = tolower c.
Proof. destruct c as [[] [] [] [] [] [] [] []]; reflexivity. Qed.

Lemma cstring_map_tolower (s : list ascii) :
  cstring (map tolower s) = map tolower (cstring s).
Proof.
  induction s as [|c s IH]; [reflexivity|]. cbn [map cstring].
  rewrite tolower_NUL. destruct (Ascii.eqb c NUL); [reflexivity|].
  cbn [map]. now rewrite IH.
Qed.

Lemma drop_while_isspace_tolower (s : list ascii) :
  drop_while isspace (map tolower s) = map tolower (drop_while isspace s).
Proof.
  induction s as [|c s IH]; [reflexivity|]. cbn [map drop_while].
  rewrite isspace_tolower. now destruct (isspace c).
Qed.

Lemma drop_while_nonspace_tolower (s : list ascii) :
  drop_while nonspace (map tolower s) = map tolower (drop_while nonspace s).
Proof.
  induction s as [|c s IH]; [reflexivity|]. cbn [map drop_while].
  unfold nonspace at 1 3. rewrite isspace_tolower. now destruct (isspace c).
Qed.

Lemma take_while_nonspace_tolower (s : list ascii) :
  take_while nonspace (map tolower s) = map tolower (take_while nonspace s).
Proof.
  induction s as [|c s IH]; [reflexivity|]. cbn [map take_while].
  unfold nonspace at 1 3. rewrite isspace_tolower.
  destruct (isspace c); cbn [negb map]; [reflexivity|]. now rewrite IH.
Qed.

(** Induction on the buffer by its length, as [tokens] recurses. *)
Lemma tokens_length_ind (P : list ascii -> Prop) :
  (forall s : list ascii,
      (forall t : list ascii, (length t < length s)%nat -> P t) -> P s) ->
  forall s : list ascii, P s.
Proof.
  intros Hstep s. remember (length s) as n eqn:Hn.
  revert s Hn. induction n as [n IH] using lt_wf_ind. intros s ->.
  apply Hstep. intros t Ht. now apply (IH (length t)).
Qed.

Lemma tokens_map_tolower (s : list ascii) :
  tokens (map tolower s) = map (map tolower) (tokens s).
Proof.
  induction s as [s IH] using tokens_length_ind.
  rewrite (tokens_step (map tolower s)), (tokens_step s).
  rewrite drop_while_isspace_tolower.
  pose proof (drop_while_length isspace s) as Hl.
  destruct (drop_while isspace s) as [|c t]; [reflexivity|].
  cbn [map]. rewrite take_while_nonspace_tolower, drop_while_nonspace_tolower.
  f_equal. apply IH.
  pose proof (drop_while_length nonspace t). cbn [length] in Hl. lia.
Qed.

Lemma begins_with_tolower (w tok : list ascii) :
  begins_with w (map tolower tok) = begins_with w tok.
Proof.
  revert tok. induction w as [|c w IH]; intros [|c' tok]; try reflexivity.
  cbn [map begins_with]. unfold ci_eqb. now rewrite tolower_idem, IH.
Qed.

Section RebootInvariance.
Context `{ec_abi}.

Lemma recognize_tolower (tok : list ascii) :
  recognize (map tolower tok) = recognize tok.
Proof.
  unfold recognize. induction words as [|w ws IH]; [reflexivity|].
  cbn [List.find]. now rewrite begins_with_tolower, IH.
Qed.

Lemma fold_apply_token_tolower (toks : list (list ascii)) :
  forall st : reboot_scan,
    fold_left apply_token (map (map tolower) toks) st = fold_left apply_token toks st.
Proof.
  induction toks as [|tok toks IH]; intros st; [reflexivity|].
  cbn [map fold_left]. rewrite IH. unfold apply_token at 2 4.
  now rewrite recognize_tolower.
Qed.

Lemma scan_words_tolower (s : list ascii) (st : reboot_scan) :
  scan_words (map tolower s) st = scan_words s st.
Proof.
  rewrite !scan_words_tokens, cstring_map_tolower, tokens_map_tolower.
  apply fold_apply_token_tolower.
Qed.

(** The scan sees the buffer only through its string and the tokens of it. *)
Lemma scan_words_same_tokens (s s' : list ascii) (st : reboot_scan) :
  tokens (cstring s) = tokens (cstring s') -> scan_words s st = scan_words s' st.
Proof. intros E. now rewrite !scan_words_tokens, E. Qed.

Context {cros_ec_device : Type} `{cros_ec_proto cros_ec_device}.

Lemma reboot_store_same_scan (ec : cros_ec_dev) (io : ec_io cros_ec_device)
    (kmalloc : option (cros_ec_command ec_params_reboot_ec.t))
    (buf buf' : list ascii) (count : Z) :
  (forall st : reboot_scan, scan_words buf st = scan_words buf' st) ->
  reboot_store ec io kmalloc buf count = reboot_store ec io kmalloc buf' count.
Proof.
  intros E. unfold reboot_store. destruct kmalloc as [msg|]; [|reflexivity].
  now rewrite E.
Qed.

(** X1. The write does not depend on the case of its input: two inputs that
    are equal after case folding have the same outcome, whether or not the
    allocation succeeds. *)
Theorem reboot_store_case_insensitive (ec : cros_ec_dev)
    (io : ec_io cros_ec_device)
    (kmalloc : option (cros_ec_command ec_params_reboot_ec.t))
    (buf buf' : list ascii) (count : Z) :
  map tolower buf = map tolower buf' ->
  reboot_store ec io kmalloc buf count = reboot_store ec io kmalloc buf' count.
Proof.
  intros E. apply reboot_store_same_scan. intros st.
  now rewrite <- (scan_words_tolower buf), <- (scan_words_tolower buf'), E.
Qed.

End RebootInvariance.

Lemma isspace_nonnul (ws : list ascii) :
  forallb isspace ws = true -> forallb nonnul ws = true.
Proof.
  induction ws as [|c ws IH]; [reflexivity|]. cbn [forallb].
  intros Hc. apply andb_prop in Hc as [Hc Hws]. rewrite (IH Hws), andb_true_r.
  unfold nonnul. destruct (Ascii.eqb_spec c NUL) as [->|]; [discriminate|reflexivity].
Qed.

Lemma cstring_app (a b : list ascii) :
  cstring (a ++ b) = cstring a ++ (if forallb nonnul a then cstring b else []).
Proof.
  induction a as [|c a IH]; [reflexivity|]. cbn [app cstring forallb].
  unfold nonnul at 1. destruct (Ascii.eqb c NUL); cbn [negb andb]; [reflexivity|].
  now rewrite IH.
Qed.

Lemma cstring_cut (a b : list ascii) : cstring (a ++ NUL :: b) = cstring a.
Proof.
  rewrite cstring_app. cbn [cstring]. rewrite Ascii.eqb_refl.
  destruct (forallb nonnul a); apply app_nil_r.
Qed.

Lemma drop_while_nil (p : ascii -> bool) (s : list ascii) :
  drop_while p s = [] -> forallb p s = true.
Proof.
  induction s as [|c s IH]; [reflexivity|]. cbn [drop_while forallb].
  destruct (p c); [exact IH|discriminate].
Qed.

Lemma take_while_all (p : ascii -> bool) (s : list ascii) :
  forallb p s = true -> take_while p s = s.
Proof.
  intros Hs. rewrite <- (app_nil_r s) at 1.
  rewrite (take_while_app_all p s [] Hs). apply app_nil_r.
Qed.

Lemma while_app_stop (p : ascii -> bool) (a b : list ascii) :
  drop_while p a <> [] ->
  drop_while p (a ++ b) = drop_while p a ++ b
  /\ take_while p (a ++ b) = take_while p a.
Proof.
  induction a as [|c a IH]; [contradiction|]. cbn [app drop_while take_while].
  destruct (p c); [|now split]. intros Hne.
  destruct (IH Hne) as [-> ->]. now split.
Qed.

Lemma tokens_blank (ws : list ascii) : forallb isspace ws = true -> tokens ws = [].
Proof.
  intros Hws. rewrite tokens_step. rewrite <- (app_nil_r ws).
  now rewrite (drop_while_app_all isspace ws [] Hws).
Qed.

Lemma tokens_leading (ws s : list ascii) :
  forallb isspace ws = true -> tokens (ws ++ s) = tokens s.
Proof.
  intros Hws. rewrite (tokens_step (ws ++ s)), (tokens_step s).
  now rewrite (drop_while_app_all isspace ws s Hws).
Qed.

(** The tokens of two texts joined by blanks are those of the first followed
    by those of the second. *)
Lemma tokens_app (a w b : list ascii) :
  forallb isspace w = true -> w <> [] ->
  tokens (a ++ w ++ b) = tokens a ++ tokens b.
Proof.
  intros Hw Hne. induction a as [a IH] using tokens_length_ind.
  rewrite (tokens_step (a ++ w ++ b)), (tokens_step a).
  pose proof (drop_while_length isspace a) as Hl.
  destruct (drop_while isspace a) as [|c t] eqn:Ea.
  - apply drop_while_nil in Ea.
    rewrite (drop_while_app_all isspace a _ Ea).
    rewrite <- tokens_step. now apply tokens_leading.
  - assert (Ea' : drop_while isspace a <> []) by now rewrite Ea.
    destruct (while_app_stop isspace a (w ++ b) Ea') as [-> _]. rewrite Ea.
    cbn [app].
    pose proof (drop_while_length nonspace t) as Hl'.
    destruct (drop_while nonspace t) as [|c' t'] eqn:Et.
    + apply drop_while_nil in Et.
      rewrite (take_while_app_all nonspace t _ Et).
      rewrite (drop_while_app_all nonspace t _ Et).
      rewrite (take_while_all nonspace t Et).
      destruct w as [|x w]; [contradiction|].
      cbn [forallb] in Hw. apply andb_prop in Hw as [Hx Hw].
      assert (Hx' : nonspace x = false) by (unfold nonspace; now rewrite Hx).
      cbn [app take_while drop_while]. rewrite Hx', app_nil_r.
      rewrite (tokens_blank []) by reflexivity. cbn [app]. f_equal.
      change (x :: w ++ b) with ((x :: w) ++ b). apply tokens_leading.
      cbn [forallb]. now rewrite Hx.
    + assert (Et' : drop_while nonspace t <> []) by now rewrite Et.
      destruct (while_app_stop nonspace t (w ++ b) Et') as [-> ->].
      rewrite Et. cbn [app]. f_equal.
      change (c' :: t' ++ w ++ b) with ((c' :: t') ++ w ++ b).
      apply IH. cbn [length] in *. lia.
Qed.

Lemma tokens_trailing (s ws : list ascii) :
  forallb isspace ws = true -> tokens (s ++ ws) = tokens s.
Proof.
  intros Hws. destruct ws as [|x ws]; [now rewrite app_nil_r|].
  rewrite <- (app_nil_r (x :: ws)).
  rewrite (tokens_app s (x :: ws) [] Hws) by discriminate.
  rewrite (tokens_blank []) by reflexivity. apply app_nil_r.
Qed.

(** A run of non-blank characters is a single token. *)
Lemma tokens_word (tok : list ascii) :
  forallb nonspace tok = true ->
  tokens tok = match tok with [] => [] | _ :: _ => [tok] end.
Proof.
  intros Htok. destruct tok as [|c t]; [reflexivity|].
  pose proof (tokens_cons [] (c :: t) []) as E.
  rewrite app_nil_r in E. cbn [app] in E.
  apply E; [reflexivity | discriminate | exact Htok | now left].
Qed.

Section RebootBlanks.
Context `{ec_abi}.

Lemma scan_words_blanks (lead buf trail : list ascii) (st : reboot_scan) :
  forallb isspace lead = true -> forallb isspace trail = true ->
  scan_words (lead ++ buf ++ trail) st = scan_words buf st.
Proof.
  intros Hl Ht. apply scan_words_same_tokens.
  rewrite cstring_app, (isspace_nonnul _ Hl), (cstring_nonnul _ (isspace_nonnul _ Hl)).
  rewrite (tokens_leading _ _ Hl). rewrite cstring_app.
  destruct (forallb nonnul buf); [|now rewrite app_nil_r].
  rewrite (cstring_nonnul _ (isspace_nonnul _ Ht)).
  now apply tokens_trailing.
Qed.

Lemma scan_words_cut (a b : list ascii) (st : reboot_scan) :
  scan_words (a ++ NUL :: b) st = scan_words a st.
Proof. apply scan_words_same_tokens. now rewrite cstring_cut. Qed.

Lemma scan_words_unrecognized (a w1 tok w2 b : list ascii) (st : reboot_scan) :
  forallb isspace w1 = true -> w1 <> [] ->
  forallb isspace w2 = true -> w2 <> [] ->
  forallb nonspace tok = true -> forallb nonnul tok = true ->
  recognize tok = None ->
  scan_words (a ++ w1 ++ tok ++ w2 ++ b) st = scan_words (a ++ w1 ++ b) st.
Proof.
  intros H1 N1 H2 N2 Hs Hn Hr. rewrite !scan_words_tokens.
  rewrite (cstring_app a (w1 ++ tok ++ w2 ++ b)), (cstring_app a (w1 ++ b)).
  destruct (forallb nonnul a); [|reflexivity].
  rewrite (cstring_app w1 (tok ++ w2 ++ b)), (cstring_app w1 b).
  rewrite (isspace_nonnul _ H1), (cstring_nonnul _ (isspace_nonnul _ H1)).
  rewrite (cstring_app tok (w2 ++ b)), Hn, (cstring_nonnul _ Hn).
  rewrite (cstring_app w2 b).
  rewrite (isspace_nonnul _ H2), (cstring_nonnul _ (isspace_nonnul _ H2)).
  rewrite !(tokens_app (cstring a) w1) by assumption.
  rewrite (tokens_app tok w2) by assumption.
  rewrite (tokens_word tok Hs). rewrite !fold_left_app.
  destruct tok as [|c t]; [reflexivity|]. cbn [fold_left].
  unfold apply_token at 2. now rewrite Hr.
Qed.

Context {cros_ec_device : Type} `{cros_ec_proto cros_ec_device}.

(** X2. Blanks before and after the input change nothing: the newline that
    a shell appends to the written word, or any other run of blanks at either
    end, leaves the outcome of the write as it is without them. *)
Theorem reboot_store_surrounding_blanks (ec : cros_ec_dev)
    (io : ec_io cros_ec_device)
    (kmalloc : option (cros_ec_command ec_params_reboot_ec.t))
    (lead buf trail : list ascii) (count : Z) :
  forallb isspace lead = true -> forallb isspace trail = true ->
  reboot_store ec io kmalloc (lead ++ buf ++ trail) count
  = reboot_store ec io kmalloc buf count.
Proof.
  intros Hl Ht. apply reboot_store_same_scan. intros st.
  now apply scan_words_blanks.
Qed.

(** X3. The scan stops at the first NUL of the buffer: whatever follows it
    has no influence on the outcome of the write. *)
Theorem reboot_store_stops_at_NUL (ec : cros_ec_dev) (io : ec_io cros_ec_device)
    (kmalloc : option (cros_ec_command ec_params_reboot_ec.t))
    (a b : list ascii) (count : Z) :
  reboot_store ec io kmalloc (a ++ NUL :: b) count
  = reboot_store ec io kmalloc a count.
Proof. apply reboot_store_same_scan. intros st. apply scan_words_cut. Qed.

(** X4. A token that no table word begins is skipped: standing between
    blanks anywhere in the input, it leaves the outcome of the write as it is
    without it. *)
Theorem reboot_store_skips_unrecognized (ec : cros_ec_dev)
    (io : ec_io cros_ec_device)
    (kmalloc : option (cros_ec_command ec_params_reboot_ec.t))
    (a w1 tok w2 b : list ascii) (count : Z) :
  forallb isspace w1 = true -> w1 <> [] ->
  forallb isspace w2 = true -> w2 <> [] ->
  forallb nonspace tok = true -> forallb nonnul tok = true ->
  recognize tok = None ->
  reboot_store ec io kmalloc (a ++ w1 ++ tok ++ w2 ++ b) count
  = reboot_store ec io kmalloc (a ++ w1 ++ b) count.
Proof.
  intros H1 N1 H2 N2 Hs Hn Hr. apply reboot_store_same_scan. intros st.
  now apply scan_words_unrecognized.
Qed.

End RebootBlanks.

Section RebootCodes.
Context `{ec_abi}.
Hypothesis flag_ok : shutdown_flag_ok.



Context {cros_ec_device : Type} `{cros_ec_proto cros_ec_device}.


End RebootCodes.

Section RebootAllocation.
Context `{ec_abi}.

Lemma apply_token_same_but_unset (tok : list ascii) (st st' : reboot_scan) :
  same_but_unset st st' ->
  same_but_unset (apply_token st tok) (apply_token st' tok).
Proof.
  intros (Hf & Hg & Hc). unfold apply_token.
  destruct (recognize tok) as [w|]; [|now repeat split].
  unfold apply_word. destruct (reboot_word.flags w =? 0); cbn [negb].
  - repeat split; cbn [param got_cmd ec_params_reboot_ec.flags
                       ec_params_reboot_ec.cmd]; auto.
  - repeat split; cbn [param got_cmd ec_params_reboot_ec.flags
                       ec_params_reboot_ec.cmd]; auto.
    now rewrite Hf.
Qed.

Lemma scan_words_same_but_unset (buf : list ascii) (st st' : reboot_scan) :
  same_but_unset st st' ->
  same_but_unset (scan_words buf st) (scan_words buf st').
Proof.
  rewrite !scan_words_tokens. generalize (tokens (cstring buf)). intros toks.
  revert st st'. induction toks as [|tok toks IH]; intros st st' Hs; [exact Hs|].
  cbn [fold_left]. now apply IH, apply_token_same_but_unset.
Qed.

Context {cros_ec_device : Type} `{cros_ec_proto cros_ec_device}.

(** X15. The allocated message is used without being cleared, and its
    command byte is assigned only by a token of the input; still nothing of
    the previous contents of the allocation reaches the controller or the
    result: the outcome of the write is the same for every content of the
    allocated message. *)
Theorem reboot_store_no_stale_bytes (ec : cros_ec_dev)
    (io : ec_io cros_ec_device)
    (msg msg' : cros_ec_command ec_params_reboot_ec.t)
    (buf : list ascii) (count : Z) :
  reboot_store ec io (Some msg) buf count
  = reboot_store ec io (Some msg') buf count.
Proof.
  unfold reboot_store.
  set (st0 := {| param := ec_params_reboot_ec.mk
                            (ec_params_reboot_ec.cmd (data msg)) 0;
                 got_cmd := false |}).
  set (st0' := {| param := ec_params_reboot_ec.mk
                             (ec_params_reboot_ec.cmd (data msg')) 0;
                  got_cmd := false |}).
  assert (Hs : same_but_unset st0 st0') by (repeat split; discriminate).
  apply (scan_words_same_but_unset buf) in Hs. destruct Hs as (Hf & Hg & Hc).
  rewrite <- Hg. destruct (got_cmd (scan_words buf st0)); [|reflexivity].
  cbn [negb]. unfold request_of_params. cbn [version command outsize insize data].
  assert (Hp : param (scan_words buf st0) = param (scan_words buf st0')).
  { specialize (Hc eq_refl).
    destruct (param (scan_words buf st0)), (param (scan_words buf st0')).
    cbn in Hf, Hc. now subst. }
  now rewrite Hp.
Qed.

End RebootAllocation.

(** ** reboot_show *)

Lemma reboot_show_text (page : list ascii) :
  reboot_show page
  = (67, lit "ro|rw|cancel|cold|disable-jump|hibernate|cold-ap-off [at-shutdown]" ++ LF).
Proof. reflexivity. Qed.

Section RebootShow.
Context `{ec_abi}.

Lemma reboot_show_keywords (page : list ascii) :
  keywords (snd (reboot_show page))
  = [lit "ro"; lit "rw"; lit "cancel"; lit "cold"; lit "disable-jump";
     lit "hibernate"; lit "cold-ap-off"; lit "at-shutdown"].
Proof. rewrite reboot_show_text. reflexivity. Qed.

(** Each word of the table is recognized as its own entry. *)
Lemma recognize_own_word (e : reboot_word.t) :
  In e words -> recognize (reboot_word.str e) = Some e.
Proof.
  unfold words. cbn [In].
  intros [<-|[<-|[<-|[<-|[<-|[<-|[<-|[<-|[]]]]]]]]]; reflexivity.
Qed.

(** Each word of the table is a single token. *)
Lemma words_nonblank (e : reboot_word.t) :
  In e words -> tokens (cstring (reboot_word.str e)) = [reboot_word.str e].
Proof.
  unfold words. cbn [In].
  intros [<-|[<-|[<-|[<-|[<-|[<-|[<-|[<-|[]]]]]]]]]; reflexivity.
Qed.

Context {cros_ec_device : Type} `{cros_ec_proto cros_ec_device}.

(** The write of a single word of the table. *)
Lemma reboot_store_one_word (ec : cros_ec_dev) (io : ec_io cros_ec_device)
    (msg : cros_ec_command ec_params_reboot_ec.t) (e : reboot_word.t)
    (buf : list ascii) (count : Z) :
  (forall st : reboot_scan, scan_words buf st = apply_word e st) ->
  reboot_store ec io (Some msg) buf count
  = if reboot_word.flags e =? 0
    then send_reboot ec io (reboot_word.cmd e) 0 count
    else (io, - EINVAL).
Proof.
  intros E. unfold reboot_store. rewrite E. unfold apply_word.
  destruct (reboot_word.flags e =? 0); cbn [negb got_cmd param]; [|reflexivity].
  unfold send_reboot, cros_ec_cmd_xfer_status, request_of_params, reboot_request.
  cbn [version command outsize insize data].
  destruct (transport_xfer_status _ _) as [d r].
  now destruct (xfer_ret r <? 0).
Qed.

(** X6. Every keyword that reading the reboot attribute lists can be written
    back: in any letter case and between any blanks (such as the newline a
    shell appends), it is taken as the table entry of that name, so a reboot
    type sends one command with its code and no flag, and the flag word alone
    is refused with -EINVAL. Every word of the table is listed. *)
Theorem reboot_show_keywords_accepted (ec : cros_ec_dev)
    (io : ec_io cros_ec_device)
    (msg : cros_ec_command ec_params_reboot_ec.t)
    (page w lead buf trail : list ascii) (count : Z) :
  In w (keywords (snd (reboot_show page))) ->
  map tolower buf = w ->
  forallb isspace lead = true -> forallb isspace trail = true ->
  (forall e : reboot_word.t,
      In e words -> In (reboot_word.str e) (keywords (snd (reboot_show page))))
  /\ exists e : reboot_word.t,
       In e words /\ reboot_word.str e = w
       /\ reboot_store ec io (Some msg) (lead ++ buf ++ trail) count
          = if reboot_word.flags e =? 0
            then send_reboot ec io (reboot_word.cmd e) 0 count
            else (io, - EINVAL).
Proof.
  rewrite reboot_show_keywords. intros Hw Hbuf Hl Ht. split.
  { unfold words. cbn [In reboot_word.str].
    intros e [<-|[<-|[<-|[<-|[<-|[<-|[<-|[<-|[]]]]]]]]];
      cbn [reboot_word.str]; tauto. }
  assert (He : exists e : reboot_word.t, In e words /\ reboot_word.str e = w).
  { assert (Hm : In w (map reboot_word.str words)).
    { unfold words. cbn [map reboot_word.str In] in *. tauto. }
    apply in_map_iff in Hm as (e & He & Hin). now exists e. }
  destruct He as (e & Hin & He). exists e. split; [exact Hin|]. split; [exact He|].
  apply reboot_store_one_word. intros st.
  rewrite (scan_words_blanks lead buf trail st Hl Ht).
  rewrite <- (scan_words_tolower buf), Hbuf, <- He.
  rewrite scan_words_tokens.
  rewrite (words_nonblank e Hin). cbn [fold_left].
  unfold apply_token. now rewrite (recognize_own_word e Hin).
Qed.

End RebootShow.

(** ** flashinfo_show *)

Section FlashInfo.
Context `{ec_abi} `{ec_abi_show}.
Context {cros_ec_device : Type} `{cros_ec_proto cros_ec_device}.

(** X7. The flashinfo read is all or nothing. It issues one query; when the
    exchange fails it returns that status and leaves the page as it was; when
    it succeeds it reads the four members inside the buffer and returns the
    four labelled lines, each member printed as a signed decimal, and their
    length. When the allocation fails it returns -ENOMEM and issues nothing. *)
Theorem flashinfo_show_all_or_nothing (abi_ok : flash_info_ok)
    (ec : cros_ec_dev) (io : ec_io cros_ec_device)
    (msg : cros_ec_command (list ascii)) (buf : list ascii) :
  length (data msg) = sizeof_ec_response_flash_info ->
  flashinfo_show ec io None buf = Some (io, (- ENOMEM, buf))
  /\ flashinfo_show ec io (Some msg) buf =
     let '(d, r) := transport_xfer_status (ec_dev io) (flashinfo_request ec) in
     Some ({| ec_dev := d;
              issued := issued io ++ [call_xfer_status (flashinfo_request ec)] |},
           if xfer_ret r <? 0 then (xfer_ret r, buf)
           else
             let text := flashinfo_text (receive (payload r) (data msg)) in
             (Z.of_nat (length text), text)).
Proof.
  intros Hlen. split; [reflexivity|].
  unfold flashinfo_show, xfer_in_place, cros_ec_cmd_xfer_status.
  change (request_of_bytes _) with (flashinfo_request ec).
  destruct (transport_xfer_status (ec_dev io) (flashinfo_request ec)) as [d r].
  cbn [data]. destruct (xfer_ret r <? 0); [reflexivity|].
  destruct abi_ok as [Hf1 Hf2 Hf3 Hf4].
  rewrite !load_in_bounds by (rewrite length_receive; lia).
  reflexivity.
Qed.

End FlashInfo.

(** ** kb_wake_angle_show *)

Section KbWakeAngleShow.
Context `{ec_abi} `{ec_abi_show}.
Context {cros_ec_device : Type} `{cros_ec_proto cros_ec_device}.

Lemma kb_wake_angle_show_spec (ec : cros_ec_dev) (io : ec_io cros_ec_device)
    (msg : cros_ec_command (list ascii)) (buf : list ascii) :
  kb_wake_angle_show ec io (Some msg) buf =
  let rq := kb_wake_angle_request ec EC_MOTION_SENSE_NO_VALUE in
  let '(d, r) := transport_xfer_status (ec_dev io) rq in
  ({| ec_dev := d; issued := issued io ++ [call_xfer_status rq] |},
   if xfer_ret r <? 0 then (xfer_ret r, buf)
   else
     let param :=
       ec_params_motion_sense.mk (u8 MOTIONSENSE_CMD_KB_WAKE_ANGLE)
         EC_MOTION_SENSE_NO_VALUE in
     let resp :=
       receive (payload r) (store_ec_params_motion_sense param (data msg)) in
     let text := fmt_d (kb_wake_angle_ret resp) ++ LF in
     (Z.of_nat (length text), text)).
Proof.
  unfold kb_wake_angle_show, cros_ec_cmd_xfer_status. cbv zeta.
  cbn [version command outsize insize data].
  change {| rq_version := 2; rq_command := _; rq_outsize := _; rq_insize := _;
            rq_data := _ |}
    with (kb_wake_angle_request ec EC_MOTION_SENSE_NO_VALUE).
  destruct (transport_xfer_status (ec_dev io) _) as [d r].
  now destruct (xfer_ret r <? 0).
Qed.


Variable kstrtou16 : list ascii -> Z -> Z * Z.

(** X9. Write, then read: on a controller that keeps the angle it is sent, a
    write whose text parses to that angle either fails in its exchange, or
    returns the byte count and is followed by a read that prints the angle in
    decimal on one line. *)
Theorem kb_wake_angle_round_trip (ec : cros_ec_dev) (io : ec_io cros_ec_device)
    (m1 : cros_ec_command ec_params_motion_sense.t)
    (m2 : cros_ec_command (list ascii)) (buf page : list ascii)
    (count angle : Z) :
  store_keeps_size ->
  length (data m2) = EC_HOST_PARAM_SIZE ->
  kstrtou16 buf 0 = (0, angle) ->
  keeps_wake_angle ec (ec_dev io) (u16 angle) ->
  let '(io1, ret1) := kb_wake_angle_store kstrtou16 ec io (Some m1) buf count in
  let '(io2, (ret2, text)) := kb_wake_angle_show ec io1 (Some m2) page in
  ret1 < 0
  \/ ret1 = count
     /\ text = fmt_d (u16 angle) ++ LF
     /\ ret2 = Z.of_nat (length text).
Proof.
  intros Hsize Hlen Hparse Hkeep.
  unfold kb_wake_angle_store. rewrite Hparse. cbn [Z.eqb negb].
  unfold cros_ec_cmd_xfer_status, request_of_params.
  cbn [version command outsize insize data].
  change {| rq_version := 2; rq_command := _; rq_outsize := _; rq_insize := _;
            rq_data := _ |}
    with (kb_wake_angle_request ec (u16 angle)).
  destruct (transport_xfer_status (ec_dev io) _) as [d1 r1] eqn:E1.
  destruct (xfer_ret r1 <? 0) eqn:Er1.
  - rewrite kb_wake_angle_show_spec. cbv zeta. cbn [ec_dev].
    destruct (transport_xfer_status d1 _) as [d2 r2].
    apply Z.ltb_lt in Er1. destruct (xfer_ret r2 <? 0); now left.
  - apply Z.ltb_ge in Er1.
    rewrite kb_wake_angle_show_spec. cbv zeta. cbn [ec_dev].
    destruct (transport_xfer_status d1 _) as [d2 r2] eqn:E2.
    destruct (Hkeep d1 r1 E1 Er1 d2 r2 E2) as [Hr2 Hv].
    apply Z.ltb_ge in Hr2. rewrite Hr2. right.
    rewrite Hv by (rewrite Hsize; exact Hlen). now repeat split.
Qed.

End KbWakeAngleShow.

(** ** The attribute group *)

Section VisibleAttrs.
Context `{ec_abi}.

(** X10. Which attributes a device shows. The mode returned for an attribute
    is 0 or the mode it was declared with, never another one; and when the two
    declared modes are not 0, the attributes with a non-zero mode are, in the
    order of the array: kb_wake_angle if the device has the wake angle, then
    reboot, version and flashinfo for every device, then usbpdmuxinfo and
    ap_mode_entry if the device has the name of the primary controller. *)
Theorem cros_ec_ctrl_visible_attrs (ec : cros_ec_dev) :
  MODE_RW <> 0 -> MODE_RO <> 0 ->
  (forall a : attribute,
      cros_ec_ctrl_visible ec a = 0 \/ cros_ec_ctrl_visible ec a = mode a)
  /\ visible_attrs ec
     = (if has_kb_wake_angle ec then [dev_attr_kb_wake_angle] else [])
       ++ [dev_attr_reboot; dev_attr_version; dev_attr_flashinfo]
       ++ (if strcmp (ec_name ec) CROS_EC_DEV_NAME =? 0
           then [dev_attr_usbpdmuxinfo; dev_attr_ap_mode_entry] else []).
Proof.
  intros Hrw Hro. apply Z.eqb_neq in Hrw, Hro. split.
  - intros a. unfold cros_ec_ctrl_visible.
    destruct a, (has_kb_wake_angle ec),
      (strcmp (ec_name ec) CROS_EC_DEV_NAME =? 0); cbn; auto.
  - unfold visible_attrs, __ec_attrs, cros_ec_ctrl_visible.
    cbn [List.filter attribute_eqb andb orb mode].
    destruct (has_kb_wake_angle ec),
      (strcmp (ec_name ec) CROS_EC_DEV_NAME =? 0);
      cbn [negb andb orb app]; rewrite ?Hrw, ?Hro; reflexivity.
Qed.

End VisibleAttrs.

(** ** The text of usbpdmuxinfo_show *)

Lemma string_of_uint_chars (d : Decimal.uint) :
  forallb decimal_char (lit (NilEmpty.string_of_uint d)) = true.
Proof.
  induction d;
    cbn [NilEmpty.string_of_uint lit list_ascii_of_string forallb]; auto.
Qed.

Lemma fmt_d_chars (z : Z) : forallb decimal_char (fmt_d z) = true.
Proof.
  unfold fmt_d. destruct (Z.to_int z) as [d|d]; cbn [NilZero.string_of_int].
  - destruct d; try apply string_of_uint_chars; reflexivity.
  - change (lit (String "-" ?s)) with ("-"%char :: lit s).
    cbn [forallb]. rewrite andb_true_l.
    destruct d; try apply string_of_uint_chars; reflexivity.
Qed.

Lemma lit_inj (s t : string) : lit s = lit t -> s = t.
Proof.
  unfold lit. intros E.
  rewrite <- (string_of_list_ascii_of_string s), <- (string_of_list_ascii_of_string t).
  now rewrite E.
Qed.

Lemma to_int_nonnil (z : Z) :
  Z.to_int z <> Decimal.Pos Decimal.Nil /\ Z.to_int z <> Decimal.Neg Decimal.Nil.
Proof.
  destruct z as [|p|p]; cbn [Z.to_int]; split; try discriminate;
    intros [= E]; now apply (DecimalPos.Unsigned.to_uint_nonnil p).
Qed.

(** Printing in decimal loses nothing. *)
Lemma fmt_d_inj (z1 z2 : Z) : fmt_d z1 = fmt_d z2 -> z1 = z2.
Proof.
  unfold fmt_d. intros E. apply lit_inj in E.
  apply DecimalZ.to_int_inj.
  destruct (to_int_nonnil z1) as [P1 N1], (to_int_nonnil z2) as [P2 N2].
  pose proof (NilZero.isi _ P1 N1) as E1. pose proof (NilZero.isi _ P2 N2) as E2.
  rewrite E in E1. congruence.
Qed.

(** Two texts that agree up to a separator that neither has before it. *)
Lemma app_sep_inj (p : ascii -> bool) (c : ascii) (a1 : list ascii) :
  forall a2 r1 r2 : list ascii,
    forallb p a1 = true -> forallb p a2 = true -> p c = false ->
    a1 ++ c :: r1 = a2 ++ c :: r2 -> a1 = a2 /\ r1 = r2.
Proof.
  induction a1 as [|x a1 IH]; intros [|y a2] r1 r2 H1 H2 Hc E;
    cbn [app forallb] in *.
  - injection E as E. now split.
  - injection E as E _. subst y. rewrite Hc in H2. discriminate.
  - injection E as E _. subst x. rewrite Hc in H1. discriminate.
  - injection E as <- E.
    apply andb_prop in H1 as [_ H1]. apply andb_prop in H2 as [_ H2].
    destruct (IH a2 r1 r2 H1 H2 Hc E) as [-> ->]. now split.
Qed.

Lemma decimal_not_LF (s : list ascii) :
  forallb decimal_char s = true -> forallb not_LF s = true.
Proof.
  induction s as [|c s IH]; [reflexivity|]. cbn [forallb].
  intros Hc. apply andb_prop in Hc as [Hc Hs]. rewrite (IH Hs), andb_true_r.
  clear -Hc. destruct c as [[] [] [] [] [] [] [] []]; try reflexivity; discriminate.
Qed.

Lemma lines_app (a b : list ascii) : lines (a ++ b) = (lines a + lines b)%nat.
Proof. unfold lines. now rewrite List.filter_app, length_app. Qed.

Lemma lines_none (s : list ascii) : forallb not_LF s = true -> lines s = 0%nat.
Proof.
  unfold lines. induction s as [|c s IH]; [reflexivity|]. cbn [forallb List.filter].
  intros Hc. apply andb_prop in Hc as [Hc Hs]. unfold not_LF in Hc.
  apply negb_true_iff in Hc. rewrite Hc. now apply IH.
Qed.

Lemma cons_eq_inv {A} (x y : A) (a b : list A) :
  x :: a = y :: b -> x = y /\ a = b.
Proof. intros [= -> ->]. now split. Qed.

Lemma bit_char_inj (a b : bool) :
  (if a then "0" else "1")%char = (if b then "0" else "1")%char -> a = b.
Proof. destruct a, b; intros E; try reflexivity; discriminate. Qed.

Section UsbPdMuxText.
Context `{ec_abi}.

Lemma flag_bit_char (flags mask : Z) :
  flag_bit flags mask = [if Z.land flags mask =? 0 then "0"%char else "1"%char].
Proof. unfold flag_bit, notnot. now destruct (Z.land flags mask =? 0). Qed.

Lemma port_line_parts (i flags : Z) :
  port_line i flags
  = lit "Port " ++ fmt_d i ++ ":"%char :: flags_text flags ++ ["010"%char].
Proof.
  unfold port_line, flags_text, LF.
  change (lit ":") with [":"%char]. cbn [app].
  rewrite <- !app_assoc. reflexivity.
Qed.

Lemma flags_text_not_LF (flags : Z) : forallb not_LF (flags_text flags) = true.
Proof.
  unfold flags_text. rewrite !flag_bit_char, !forallb_app.
  repeat match goal with
  | |- context [if ?b then _ else _] => destruct b
  end; reflexivity.
Qed.

Lemma flags_text_inj (f g : Z) :
  flags_text f = flags_text g ->
  map (fun mask => negb (Z.land f mask =? 0))
    [USB_PD_MUX_USB_ENABLED; USB_PD_MUX_DP_ENABLED;
     USB_PD_MUX_POLARITY_INVERTED; USB_PD_MUX_HPD_IRQ; USB_PD_MUX_HPD_LVL;
     USB_PD_MUX_SAFE_MODE; USB_PD_MUX_TBT_COMPAT_ENABLED; USB_PD_MUX_USB4_ENABLED]
  = map (fun mask => negb (Z.land g mask =? 0))
    [USB_PD_MUX_USB_ENABLED; USB_PD_MUX_DP_ENABLED;
     USB_PD_MUX_POLARITY_INVERTED; USB_PD_MUX_HPD_IRQ; USB_PD_MUX_HPD_LVL;
     USB_PD_MUX_SAFE_MODE; USB_PD_MUX_TBT_COMPAT_ENABLED; USB_PD_MUX_USB4_ENABLED].
Proof.
  unfold flags_text. rewrite !flag_bit_char. intros E.
  apply app_inv_head in E. cbn [app] in E. apply cons_eq_inv in E as [E1 E].
  apply app_inv_head in E. cbn [app] in E. apply cons_eq_inv in E as [E2 E].
  apply app_inv_head in E.
  assert (E3 : (Z.land f USB_PD_MUX_POLARITY_INVERTED =? 0)
               = (Z.land g USB_PD_MUX_POLARITY_INVERTED =? 0)
               /\ lit " HPD_IRQ=" ++
                  [if Z.land f USB_PD_MUX_HPD_IRQ =? 0 then "0"%char else "1"%char] ++
                  lit " HPD_LVL=" ++
                  [if Z.land f USB_PD_MUX_HPD_LVL =? 0 then "0"%char else "1"%char] ++
                  lit " SAFE=" ++
                  [if Z.land f USB_PD_MUX_SAFE_MODE =? 0 then "0"%char else "1"%char] ++
                  lit " TBT=" ++
                  [if Z.land f USB_PD_MUX_TBT_COMPAT_ENABLED =? 0 then "0"%char else "1"%char] ++
                  lit " USB4=" ++
                  [if Z.land f USB_PD_MUX_USB4_ENABLED =? 0 then "0"%char else "1"%char]
                  = lit " HPD_IRQ=" ++
                  [if Z.land g USB_PD_MUX_HPD_IRQ =? 0 then "0"%char else "1"%char] ++
                  lit " HPD_LVL=" ++
                  [if Z.land g USB_PD_MUX_HPD_LVL =? 0 then "0"%char else "1"%char] ++
                  lit " SAFE=" ++
                  [if Z.land g USB_PD_MUX_SAFE_MODE =? 0 then "0"%char else "1"%char] ++
                  lit " TBT=" ++
                  [if Z.land g USB_PD_MUX_TBT_COMPAT_ENABLED =? 0 then "0"%char else "1"%char] ++
                  lit " USB4=" ++
                  [if Z.land g USB_PD_MUX_USB4_ENABLED =? 0 then "0"%char else "1"%char]).
  { destruct (Z.land f USB_PD_MUX_POLARITY_INVERTED =? 0),
      (Z.land g USB_PD_MUX_POLARITY_INVERTED =? 0); cbn [negb] in E.
    - apply app_inv_head in E. now split.
    - discriminate.
    - discriminate.
    - apply app_inv_head in E. now split. }
  clear E. destruct E3 as [E3 E].
  apply app_inv_head in E. cbn [app] in E. apply cons_eq_inv in E as [E4 E].
  apply app_inv_head in E. cbn [app] in E. apply cons_eq_inv in E as [E5 E].
  apply app_inv_head in E. cbn [app] in E. apply cons_eq_inv in E as [E6 E].
  apply app_inv_head in E. cbn [app] in E. apply cons_eq_inv in E as [E7 E].
  apply app_inv_head in E. apply cons_eq_inv in E as [E8 _].
  apply bit_char_inj in E1, E2, E4, E5, E6, E7, E8.
  cbn [map]. now rewrite E1, E2, E3, E4, E5, E6, E7, E8.
Qed.

(** A line determines the state it shows. *)
Lemma port_line_inj (r r' : port_reply) (rest rest' : list ascii) :
  port_line (pr_port r) (pr_flags r) ++ rest
  = port_line (pr_port r') (pr_flags r') ++ rest' ->
  port_state r = port_state r' /\ rest = rest'.
Proof.
  rewrite !port_line_parts, <- !app_assoc. cbn [app]. rewrite <- !app_assoc.
  intros E. apply app_inv_head in E.
  destruct (app_sep_inj decimal_char ":" _ _ _ _
              (fmt_d_chars (pr_port r)) (fmt_d_chars (pr_port r')) eq_refl E)
    as [Ei E'].
  apply fmt_d_inj in Ei.
  cbn [app] in E'.
  destruct (app_sep_inj not_LF "010" _ _ _ _
              (flags_text_not_LF (pr_flags r)) (flags_text_not_LF (pr_flags r'))
              eq_refl E') as [Ef Er].
  split; [|exact Er]. unfold port_state. rewrite Ei. f_equal.
  now apply flags_text_inj.
Qed.

Lemma port_line_lines (i flags : Z) : lines (port_line i flags) = 1%nat.
Proof.
  rewrite port_line_parts.
  change (lit "Port " ++ fmt_d i ++ ":"%char :: flags_text flags ++ ["010"%char])
    with (lit "Port " ++ fmt_d i ++ [":"%char] ++ flags_text flags ++ ["010"%char]).
  rewrite !lines_app.
  rewrite (lines_none (fmt_d i)) by apply decimal_not_LF, fmt_d_chars.
  rewrite (lines_none (flags_text flags)) by apply flags_text_not_LF.
  reflexivity.
Qed.

Lemma mux_lines_inj (l : list port_reply) :
  forall l' : list port_reply,
    concat (map (fun r => port_line (pr_port r) (pr_flags r)) l)
    = concat (map (fun r => port_line (pr_port r) (pr_flags r)) l') ->
    map port_state l = map port_state l'.
Proof.
  induction l as [|r l IH]; intros [|r' l'] E; cbn [map concat] in *.
  - reflexivity.
  - symmetry in E. apply app_eq_nil in E as [E _].
    now apply port_line_nonempty in E.
  - apply app_eq_nil in E as [E _]. now apply port_line_nonempty in E.
  - apply port_line_inj in E as [-> E]. f_equal. now apply IH.
Qed.

Lemma mux_lines_count (l : list port_reply) :
  lines (concat (map (fun r => port_line (pr_port r) (pr_flags r)) l)) = length l.
Proof.
  induction l as [|r l IH]; [reflexivity|]. cbn [map concat length].
  now rewrite lines_app, port_line_lines, IH.
Qed.

Context {cros_ec_device : Type} `{cros_ec_proto cros_ec_device}.

(** What a successful read delivers: the lines of the ports that answered. *)
Lemma usbpdmuxinfo_output_text (ec : cros_ec_dev) (io : ec_io cros_ec_device)
    (buf : list ascii) :
  List.filter port_ok (mux_replies io) <> [] ->
  usbpdmuxinfo_output ec io buf = mux_text (mux_replies io).
Proof.
  unfold usbpdmuxinfo_output, usbpdmuxinfo_show, mux_replies, cros_ec_cmd.
  fold ports_request.
  destruct (transport_cmd (ec_dev io) ports_request) as [d [ret resp]].
  destruct (ret <? 0); [intros N; now contradiction N|]. intros Hne.
  set (io1 := {| ec_dev := d; issued := issued io ++ [call_cmd ports_request] |}).
  destruct (mux_ports_spec (Z.to_nat (code (deref resp))) 0 io1 buf 0 (Z.le_refl 0))
    as (buf' & E & T).
  cbn [ec_dev io1] in E, T. rewrite E. rewrite Z.add_0_l in *.
  assert (Hz : (Z.of_nat (length (mux_text
                 (fst (poll_ports (Z.to_nat (code (deref resp))) 0 d)))) =? 0) = false).
  { apply Z.eqb_neq. intros Hz.
    destruct (mux_text (fst (poll_ports (Z.to_nat (code (deref resp))) 0 d))) eqn:Et;
      [|discriminate].
    apply mux_text_nil in Et. contradiction. }
  rewrite Hz. cbn [negb]. exact T.
Qed.

(** X11. A successful read of usbpdmuxinfo whose text fits the output page
    delivers one line per port that answered: the text returned is shorter
    than the page, and the number of line feeds in it is the number of
    mux-info queries that succeeded. (Beyond the page the emitting function
    cuts the text, and with it the last lines.) *)
Theorem usbpdmuxinfo_show_line_per_port `{sysfs_page} (ec : cros_ec_dev)
    (io : ec_io cros_ec_device) (buf : list ascii) :
  List.filter port_ok (mux_replies io) <> [] ->
  fits_page (mux_text (mux_replies io)) ->
  fits_page (usbpdmuxinfo_output ec io buf)
  /\ lines (usbpdmuxinfo_output ec io buf)
     = length (List.filter port_ok (mux_replies io)).
Proof.
  intros Hne Hfit. rewrite (usbpdmuxinfo_output_text ec io buf Hne).
  split; [exact Hfit|]. apply mux_lines_count.
Qed.

(** X12. The text of usbpdmuxinfo loses nothing of what it shows, as long as
    it fits the output page: two successful reads, of any controllers, whose
    texts fit the page and are the same saw the same ports answer, with the
    same eight flags each. *)
Theorem usbpdmuxinfo_show_text_lossless `{sysfs_page} (ec : cros_ec_dev)
    (io io' : ec_io cros_ec_device) (buf buf' : list ascii) :
  List.filter port_ok (mux_replies io) <> [] ->
  List.filter port_ok (mux_replies io') <> [] ->
  fits_page (mux_text (mux_replies io)) ->
  fits_page (mux_text (mux_replies io')) ->
  usbpdmuxinfo_output ec io buf = usbpdmuxinfo_output ec io' buf' ->
  map port_state (List.filter port_ok (mux_replies io))
  = map port_state (List.filter port_ok (mux_replies io')).
Proof.
  intros Hne Hne' _ _ E.
  rewrite (usbpdmuxinfo_output_text ec io buf Hne) in E.
  rewrite (usbpdmuxinfo_output_text ec io' buf' Hne') in E.
  now apply mux_lines_inj.
Qed.

End UsbPdMuxText.

(** ** version_show and the previous contents of the memory it uses *)

Lemma cstring_stop (a : list ascii) :
  forall k : nat, a !! k = Some NUL -> cstring a = cstring (take k a).
Proof.
  induction a as [|c a IH]; intros k Hk; [now destruct k|].
  destruct k as [|k].
  - injection Hk as ->. reflexivity.
  - cbn [cstring take]. destruct (Ascii.eqb c NUL); [reflexivity|].
    f_equal. now apply IH.
Qed.

Lemma agree_mono (m n : nat) (d d' : list ascii) :
  (m <= n)%nat -> take n d = take n d' -> take m d = take m d'.
Proof.
  intros Hm E. rewrite <- (Nat.min_l m n Hm), <- !take_take. now rewrite E.
Qed.

Lemma agree_receive (n : nat) (p d d' : list ascii) :
  (n <= length p)%nat -> length d = length d' ->
  take n (receive p d) = take n (receive p d').
Proof.
  intros Hn Hl. unfold receive. rewrite !take_take, Hl.
  rewrite !take_app_le by lia. reflexivity.
Qed.

Lemma agree_set_last (n : nat) (f : field) (d d' : list ascii) :
  take n d = take n d' -> take n (set_last f d) = take n (set_last f d').
Proof.
  intros E. unfold set_last.
  destruct (Nat.lt_ge_cases (offsetof f + sizeof f - 1) n) as [Hlt|Hge].
  - rewrite !take_insert_lt by exact Hlt. now rewrite E.
  - rewrite !take_insert_ge by exact Hge. exact E.
Qed.

Lemma receive_lookup (p d : list ascii) (k : nat) :
  (k < length d)%nat -> (k < length p)%nat -> receive p d !! k = p !! k.
Proof.
  intros Hd Hp. unfold receive.
  rewrite lookup_take_lt by exact Hd. now rewrite lookup_app_l.
Qed.

(** Two buffers that agree on their first [n] bytes hold the same text at a
    string member that lies among these bytes, or is terminated there. *)
Lemma field_text_agree (f : field) (n : nat) (d d' : list ascii) :
  (0 < sizeof f)%nat ->
  take n d = take n d' ->
  (offsetof f + sizeof f - 1 <= n)%nat
  \/ (exists k : nat,
         (offsetof f <= k < offsetof f + sizeof f - 1)%nat /\ (k < n)%nat
         /\ d !! k = Some NUL) ->
  field_text f d = field_text f d'.
Proof.
  intros Hroom E Hk. unfold field_text, member.
  rewrite !take_take, !Nat.min_l by lia.
  rewrite !take_drop_commute.
  destruct Hk as [Hc|(k & Hk & Hn & Hz)].
  - f_equal. f_equal. apply (agree_mono _ n); [lia|exact E].
  - assert (Hz' : d' !! k = Some NUL).
    { rewrite <- (lookup_take_lt d' n k Hn), <- E.
      now rewrite lookup_take_lt. }
    assert (Hs : forall x : list ascii,
               x !! k = Some NUL ->
               cstring (drop (offsetof f) (take (offsetof f + (sizeof f - 1)) x))
               = cstring (drop (offsetof f) (take k x))).
    { intros x Hx.
      rewrite (cstring_stop _ (k - offsetof f)).
      - rewrite <- take_drop_commute, take_take.
        rewrite Nat.min_l by lia. rewrite take_drop_commute.
        do 3 f_equal. lia.
      - rewrite lookup_drop, lookup_take_lt by lia.
        replace (offsetof f + (k - offsetof f))%nat with k by lia. exact Hx. }
    rewrite (Hs d Hz), (Hs d' Hz'). f_equal. f_equal.
    apply (agree_mono _ n); [lia|exact E].
Qed.

Section VersionStale.
Context `{ec_abi}.
Hypothesis abi_ok : layout_ok.

(** The text of a member a reply determines does not depend on the buffer
    the reply was received into. *)
Lemma field_text_known (f : field) (p : list ascii)
    (fix_up : list ascii -> list ascii) (d d' : list ascii) :
  field_ok f ->
  string_known f p ->
  length d = EC_HOST_PARAM_SIZE -> length d' = EC_HOST_PARAM_SIZE ->
  (forall (n : nat) (x y : list ascii),
      take n x = take n y -> take n (fix_up x) = take n (fix_up y)) ->
  (forall (x : list ascii) (i : nat),
      x !! i = Some NUL -> fix_up x !! i = Some NUL) ->
  field_text f (fix_up (receive p d)) = field_text f (fix_up (receive p d')).
Proof.
  intros [Hroom Hfits] Hk Hd Hd' Hagree Hkeep.
  destruct Hk as [Hc|(k & Hk & Hz)].
  - apply (field_text_agree f (offsetof f + sizeof f - 1)); [exact Hroom| |left; lia].
    apply Hagree, agree_receive; [exact Hc|congruence].
  - assert (Hlt : (k < length p)%nat) by (apply lookup_lt_Some in Hz; exact Hz).
    apply (field_text_agree f (S k)); [exact Hroom| |].
    + apply Hagree, agree_receive; [lia|congruence].
    + right. exists k. split; [exact Hk|]. split; [lia|].
      apply Hkeep. rewrite receive_lookup by lia. exact Hz.
Qed.

Context {cros_ec_device : Type} `{cros_ec_proto cros_ec_device}.

(** X13. The version read shows nothing of the memory it is given: when
    get-version succeeds and every successful reply covers the members read
    from it (a string member may instead be terminated in the reply), the
    outcome is the same for every previous content of the allocated message
    and of the output page. *)
Theorem version_show_no_stale_bytes (ec : cros_ec_dev)
    (io : ec_io cros_ec_device) (msg msg' : cros_ec_command (list ascii))
    (buf buf' : list ascii) :
  length (data msg) = EC_HOST_PARAM_SIZE ->
  length (data msg') = EC_HOST_PARAM_SIZE ->
  replies_known ec (ec_dev io) ->
  version_show ec io (Some msg) buf = version_show ec io (Some msg') buf'.
Proof.
  intros Hl Hl' Hk.
  rewrite (version_show_spec abi_ok ec io msg buf Hl).
  rewrite (version_show_spec abi_ok ec io msg' buf' Hl').
  f_equal. unfold version_outcome, replies_known in *.
  destruct (transport_xfer_status (ec_dev io) _) as [dv1 r1].
  destruct (transport_xfer_status dv1 _) as [dv2 r2].
  destruct (transport_xfer_status dv2 _) as [dv3 r3].
  destruct (transport_xfer_status dv3 _) as [dv4 r4].
  destruct Hk as ((Hr1 & Kro & Krw & Kci) & K2 & K3 & K4).
  apply Z.ltb_ge in Hr1. rewrite Hr1. cbv zeta.
  pose proof abi_ok as [Hp Fro Frw Fci Fve Fna Fre Fbv].
  set (d0 := data msg) in *. set (d0' := data msg') in *.
  assert (L1 : length (after_get_version r1 d0) = EC_HOST_PARAM_SIZE)
    by (unfold after_get_version; now rewrite !length_set_last, length_receive).
  assert (L1' : length (after_get_version r1 d0') = EC_HOST_PARAM_SIZE)
    by (unfold after_get_version; now rewrite !length_set_last, length_receive).
  assert (T1 : version_text (after_get_version r1 d0)
               = version_text (after_get_version r1 d0')).
  { assert (Hfix : forall (n : nat) (x y : list ascii),
               take n x = take n y ->
               take n (set_last version_string_rw (set_last version_string_ro x))
               = take n (set_last version_string_rw (set_last version_string_ro y))).
    { intros n x y E. now apply agree_set_last, agree_set_last. }
    assert (Hkeep : forall (x : list ascii) (i : nat),
               x !! i = Some NUL ->
               set_last version_string_rw (set_last version_string_ro x) !! i
               = Some NUL).
    { intros x i E. now apply set_last_keeps, set_last_keeps. }
    unfold version_text, after_get_version.
    rewrite (field_text_known version_string_ro (payload r1) _ d0 d0'
               Fro Kro Hl Hl' Hfix Hkeep).
    rewrite (field_text_known version_string_rw (payload r1) _ d0 d0'
               Frw Krw Hl Hl' Hfix Hkeep).
    rewrite !(take_drop_commute _ 4).
    rewrite (Hfix _ _ _ (agree_receive (current_image + 4) (payload r1) d0 d0'
                           Kci (eq_trans Hl (eq_sym Hl')))).
    reflexivity. }
  set (d1 := after_get_version r1 d0) in *.
  set (d1' := after_get_version r1 d0') in *.
  assert (L2 : length (after_get_build_info r2 d1) = EC_HOST_PARAM_SIZE).
  { unfold after_get_build_info. destruct (xfer_ret r2 <? 0);
      now rewrite ?length_set_last, length_receive. }
  assert (L2' : length (after_get_build_info r2 d1') = EC_HOST_PARAM_SIZE).
  { unfold after_get_build_info. destruct (xfer_ret r2 <? 0);
      now rewrite ?length_set_last, length_receive. }
  assert (T2 : build_info_text r2 (after_get_build_info r2 d1)
               = build_info_text r2 (after_get_build_info r2 d1')).
  { unfold build_info_text, after_get_build_info.
    destruct (xfer_ret r2 <? 0) eqn:E2; [reflexivity|]. apply Z.ltb_ge in E2.
    assert (Fbi : field_ok build_info)
      by (split; cbn [offsetof sizeof build_info]; lia).
    rewrite (field_text_known build_info (payload r2) (set_last build_info) d1 d1'
               Fbi (K2 E2) L1 L1'
               (fun n x y E => agree_set_last n build_info x y E)
               (fun x i E => set_last_keeps build_info x i E)).
    reflexivity. }
  set (d2 := after_get_build_info r2 d1) in *.
  set (d2' := after_get_build_info r2 d1') in *.
  assert (L3 : length (after_get_chip_info r3 d2) = EC_HOST_PARAM_SIZE).
  { unfold after_get_chip_info. destruct (xfer_ret r3 <? 0);
      now rewrite ?length_set_last, length_receive. }
  assert (L3' : length (after_get_chip_info r3 d2') = EC_HOST_PARAM_SIZE).
  { unfold after_get_chip_info. destruct (xfer_ret r3 <? 0);
      now rewrite ?length_set_last, length_receive. }
  assert (T3 : chip_info_text r3 (after_get_chip_info r3 d2)
               = chip_info_text r3 (after_get_chip_info r3 d2')).
  { unfold chip_info_text, after_get_chip_info.
    destruct (xfer_ret r3 <? 0) eqn:E3; [reflexivity|]. apply Z.ltb_ge in E3.
    destruct (K3 E3) as (Kve & Kna & Kre).
    assert (Hfix : forall (n : nat) (x y : list ascii),
               take n x = take n y ->
               take n (set_last revision (set_last name (set_last vendor x)))
               = take n (set_last revision (set_last name (set_last vendor y)))).
    { intros n x y E. now apply agree_set_last, agree_set_last, agree_set_last. }
    assert (Hkeep : forall (x : list ascii) (i : nat),
               x !! i = Some NUL ->
               set_last revision (set_last name (set_last vendor x)) !! i = Some NUL).
    { intros x i E. now apply set_last_keeps, set_last_keeps, set_last_keeps. }
    rewrite (field_text_known vendor (payload r3) _ d2 d2' Fve Kve L2 L2' Hfix Hkeep).
    rewrite (field_text_known name (payload r3) _ d2 d2' Fna Kna L2 L2' Hfix Hkeep).
    rewrite (field_text_known revision (payload r3) _ d2 d2' Fre Kre L2 L2' Hfix Hkeep).
    reflexivity. }
  set (d3 := after_get_chip_info r3 d2) in *.
  set (d3' := after_get_chip_info r3 d2') in *.
  assert (T4 : board_version_text r4 (after_get_board_version r4 d3)
               = board_version_text r4 (after_get_board_version r4 d3')).
  { unfold board_version_text, after_get_board_version.
    destruct (xfer_ret r4 <? 0) eqn:E4; [reflexivity|]. apply Z.ltb_ge in E4.
    rewrite !(take_drop_commute _ 2).
    rewrite (agree_receive (board_version + 2) (payload r4) d3 d3' (K4 E4)
               (eq_trans L3 (eq_sym L3'))).
    reflexivity. }
  now rewrite T1, T2, T3, T4.
Qed.

End VersionStale.

(** ** The port byte of the mux-info requests *)


Section UsbPdMuxPortByte.
Context `{ec_abi} {cros_ec_device : Type} `{cros_ec_proto cros_ec_device}.


End UsbPdMuxPortByte.

(** ** Instances of the further properties on the example interface *)

(** "Cold AT-Shutdown" and "cOLD at-shutdown" have the same outcome. *)
Lemma reboot_store_case_insensitive_witness :
  map tolower (lit "Cold AT-Shutdown") = map tolower (lit "cOLD at-shutdown")
  /\ @reboot_store example_abi scripted scripted_proto example_ec one_reply
       (Some (junk_msg (ec_params_reboot_ec.mk 9 9))) (lit "Cold AT-Shutdown") 16
     = @reboot_store example_abi scripted scripted_proto example_ec one_reply
         (Some (junk_msg (ec_params_reboot_ec.mk 9 9))) (lit "cOLD at-shutdown") 16.
Proof.
  split; [reflexivity|].
  apply (@reboot_store_case_insensitive example_abi scripted scripted_proto).
  reflexivity.
Defined.

(** " ro" followed by a newline has the outcome of "ro". *)
Lemma reboot_store_surrounding_blanks_witness :
  forallb isspace (lit " ") = true /\ forallb isspace LF = true
  /\ @reboot_store example_abi scripted scripted_proto example_ec one_reply
       (Some (junk_msg (ec_params_reboot_ec.mk 9 9))) (lit " " ++ lit "ro" ++ LF) 4
     = @reboot_store example_abi scripted scripted_proto example_ec one_reply
         (Some (junk_msg (ec_params_reboot_ec.mk 9 9))) (lit "ro") 4.
Proof.
  split; [reflexivity|]. split; [reflexivity|].
  apply (@reboot_store_surrounding_blanks example_abi scripted scripted_proto);
    reflexivity.
Defined.

(** "ro now at-shutdown" has the outcome of "ro at-shutdown". *)
Lemma reboot_store_skips_unrecognized_witness :
  @recognize example_abi (lit "now") = None
  /\ @reboot_store example_abi scripted scripted_proto example_ec one_reply
       (Some (junk_msg (ec_params_reboot_ec.mk 9 9)))
       (lit "ro" ++ lit " " ++ lit "now" ++ lit " " ++ lit "at-shutdown") 18
     = @reboot_store example_abi scripted scripted_proto example_ec one_reply
         (Some (junk_msg (ec_params_reboot_ec.mk 9 9)))
         (lit "ro" ++ lit " " ++ lit "at-shutdown") 18.
Proof.
  split; [reflexivity|].
  apply (@reboot_store_skips_unrecognized example_abi scripted scripted_proto);
    (reflexivity || discriminate).
Defined.


(** "HiberNate" and a newline, written after reading the keyword
    "hibernate". *)
Lemma reboot_show_keywords_accepted_witness :
  In (lit "hibernate") (keywords (snd (reboot_show [])))
  /\ map tolower (lit "HiberNate") = lit "hibernate"
  /\ (forall e : reboot_word.t,
         In e (@words example_abi) ->
         In (reboot_word.str e) (keywords (snd (reboot_show []))))
  /\ exists e : reboot_word.t,
       In e (@words example_abi) /\ reboot_word.str e = lit "hibernate"
       /\ @reboot_store example_abi scripted scripted_proto example_ec one_reply
            (Some (junk_msg (ec_params_reboot_ec.mk 9 9)))
            ([] ++ lit "HiberNate" ++ LF) 10
          = if reboot_word.flags e =? 0
            then @send_reboot example_abi scripted scripted_proto example_ec
                   one_reply (reboot_word.cmd e) 0 10
            else (one_reply, -22).
Proof.
  assert (Hin : In (lit "hibernate") (keywords (snd (reboot_show [])))).
  { vm_compute. tauto. }
  split; [exact Hin|]. split; [reflexivity|].
  exact (@reboot_show_keywords_accepted example_abi scripted scripted_proto
           example_ec one_reply (junk_msg (ec_params_reboot_ec.mk 9 9))
           [] (lit "hibernate") [] (lit "HiberNate") LF 10 Hin eq_refl eq_refl
           eq_refl).
Defined.

Lemma example_flash_info_ok : @flash_info_ok example_abi_show.
Proof. split; cbn; lia. Qed.

(** The four lines of the example flash. *)
Lemma flashinfo_show_all_or_nothing_witness :
  @flash_info_ok example_abi_show
  /\ @flashinfo_show example_abi example_abi_show scripted scripted_proto
       example_ec (fresh (script [flash_reply]))
       (Some (junk_msg (repeat "x"%char 16))) (lit "old")
     = Some ({| ec_dev := script [];
                issued :=
                  [call_xfer_status
                     (@flashinfo_request example_abi_show example_ec)] |},
             (61,
              lit "FlashSize 524288" ++ LF ++ lit "WriteSize 4" ++ LF
              ++ lit "EraseSize 4096" ++ LF ++ lit "ProtectSize 4096" ++ LF)).
Proof.
  split; [exact example_flash_info_ok|].
  rewrite (proj2 (@flashinfo_show_all_or_nothing example_abi example_abi_show
                    scripted scripted_proto example_flash_info_ok example_ec
                    (fresh (script [flash_reply]))
                    (junk_msg (repeat "x"%char 16)) (lit "old") eq_refl)).
  vm_compute. reflexivity.
Defined.

Lemma take_receive (n : nat) (p d : list ascii) :
  (n <= length p)%nat -> (n <= length d)%nat -> take n (receive p d) = take n p.
Proof.
  intros Hp Hd. unfold receive. rewrite take_take, Nat.min_l by exact Hd.
  now rewrite take_app_le.
Qed.

Lemma example_store_keeps_size : @store_keeps_size example_abi_show.
Proof.
  intros p b. cbn [store_ec_params_motion_sense example_abi_show].
  now rewrite !length_insert.
Qed.

Lemma example_keeps_wake_angle :
  @keeps_wake_angle example_abi example_abi_show angle_ec angle_ec_proto
    example_ec {| wake_angle := 90 |} 180.
Proof.
  intros d1 r1 E1 _ d2 r2 E2.
  injection E1 as <- <-. injection E2 as <- <-.
  split; [cbn; lia|]. intros b Hb.
  cbn [kb_wake_angle_ret example_abi_show payload].
  rewrite take_receive; [reflexivity|cbn; lia|].
  rewrite Hb. cbn. lia.
Qed.

(** "180" and a newline written to a controller that held 90, then read. *)
Lemma kb_wake_angle_round_trip_witness :
  @store_keeps_size example_abi_show
  /\ example_kstrtou16 (lit "180" ++ LF) 0 = (0, 180)
  /\ let '(io1, ret1) :=
       @kb_wake_angle_store example_abi angle_ec angle_ec_proto
         example_kstrtou16 example_ec
         {| ec_dev := {| wake_angle := 90 |}; issued := [] |}
         (Some (junk_msg (ec_params_motion_sense.mk 9 9))) (lit "180" ++ LF) 4 in
     let '(io2, (ret2, text)) :=
       @kb_wake_angle_show example_abi example_abi_show angle_ec angle_ec_proto
         example_ec io1 (Some fresh_msg) (lit "old") in
     ret1 < 0
     \/ ret1 = 4 /\ text = fmt_d (u16 180) ++ LF
        /\ ret2 = Z.of_nat (length text).
Proof.
  split; [exact example_store_keeps_size|]. split; [reflexivity|].
  exact (@kb_wake_angle_round_trip example_abi example_abi_show angle_ec
           angle_ec_proto example_kstrtou16 example_ec
           {| ec_dev := {| wake_angle := 90 |}; issued := [] |}
           (junk_msg (ec_params_motion_sense.mk 9 9)) fresh_msg
           (lit "180" ++ LF) (lit "old") 4 180
           example_store_keeps_size eq_refl eq_refl example_keeps_wake_angle).
Defined.

(** The primary controller with the wake angle shows all six attributes. *)
Lemma cros_ec_ctrl_visible_attrs_witness :
  @MODE_RW example_abi <> 0 /\ @MODE_RO example_abi <> 0
  /\ @visible_attrs example_abi example_ec
     = [dev_attr_kb_wake_angle; dev_attr_reboot; dev_attr_version;
        dev_attr_flashinfo; dev_attr_usbpdmuxinfo; dev_attr_ap_mode_entry].
Proof.
  assert (Hrw : @MODE_RW example_abi <> 0) by discriminate.
  assert (Hro : @MODE_RO example_abi <> 0) by discriminate.
  split; [exact Hrw|]. split; [exact Hro|].
  rewrite (proj2 (@cros_ec_ctrl_visible_attrs example_abi example_ec Hrw Hro)).
  reflexivity.
Defined.

Lemma three_ports_answer :
  List.filter port_ok (@mux_replies example_abi scripted scripted_proto three_ports)
  <> [].
Proof. vm_compute. discriminate. Qed.

Lemma three_ports_answer' :
  List.filter port_ok (@mux_replies example_abi scripted scripted_proto three_ports')
  <> [].
Proof. vm_compute. discriminate. Qed.

Lemma three_ports_fit :
  @fits_page example_page
    (@mux_text example_abi (@mux_replies example_abi scripted scripted_proto three_ports)).
Proof. apply Nat.ltb_lt. vm_compute. reflexivity. Qed.

Lemma three_ports_fit' :
  @fits_page example_page
    (@mux_text example_abi (@mux_replies example_abi scripted scripted_proto three_ports')).
Proof. apply Nat.ltb_lt. vm_compute. reflexivity. Qed.

(** Three ports of which two answer: 152 characters in two lines. *)
Lemma usbpdmuxinfo_show_line_per_port_witness :
  List.filter port_ok (@mux_replies example_abi scripted scripted_proto three_ports)
  <> []
  /\ @fits_page example_page
       (@mux_text example_abi (@mux_replies example_abi scripted scripted_proto three_ports))
  /\ @fits_page example_page
       (@usbpdmuxinfo_output example_abi scripted scripted_proto example_ec
          three_ports [])
  /\ lines (@usbpdmuxinfo_output example_abi scripted scripted_proto example_ec
              three_ports [])
     = 2%nat.
Proof.
  split; [exact three_ports_answer|]. split; [exact three_ports_fit|].
  destruct (@usbpdmuxinfo_show_line_per_port example_abi scripted scripted_proto
              example_page example_ec three_ports [] three_ports_answer
              three_ports_fit) as [W1 W2].
  split; [exact W1|]. rewrite W2. reflexivity.
Defined.

(** The same two lines from two controllers whose replies differ in status
    and in the bytes after the flags. *)
Lemma usbpdmuxinfo_show_text_lossless_witness :
  @fits_page example_page
    (@mux_text example_abi (@mux_replies example_abi scripted scripted_proto three_ports))
  /\ @fits_page example_page
       (@mux_text example_abi (@mux_replies example_abi scripted scripted_proto three_ports'))
  /\ @usbpdmuxinfo_output example_abi scripted scripted_proto example_ec
       three_ports []
     = @usbpdmuxinfo_output example_abi scripted scripted_proto example_ec
         three_ports' (lit "old")
  /\ map (@port_state example_abi)
       (List.filter port_ok
          (@mux_replies example_abi scripted scripted_proto three_ports))
     = map (@port_state example_abi)
         (List.filter port_ok
            (@mux_replies example_abi scripted scripted_proto three_ports')).
Proof.
  assert (E : @usbpdmuxinfo_output example_abi scripted scripted_proto example_ec
                three_ports []
              = @usbpdmuxinfo_output example_abi scripted scripted_proto example_ec
                  three_ports' (lit "old")) by (vm_compute; reflexivity).
  split; [exact three_ports_fit|]. split; [exact three_ports_fit'|].
  split; [exact E|].
  exact (@usbpdmuxinfo_show_text_lossless example_abi scripted scripted_proto
           example_page example_ec three_ports three_ports' [] (lit "old")
           three_ports_answer three_ports_answer' three_ports_fit
           three_ports_fit' E).
Defined.

Lemma example_replies_known :
  @replies_known example_abi scripted scripted_proto example_ec
    (script [version_reply; build_reply; chip_reply; board_reply]).
Proof.
  unfold replies_known.
  cbn [transport_xfer_status scripted_proto script xfer_script cmd_script].
  split; [split; [cbn; lia|split; [left; cbn; lia|split; [left; cbn; lia|cbn; lia]]]|].
  split; [intros _; right; exists 10%nat; split; [cbn; lia|reflexivity]|].
  split; [intros _; repeat split; left; cbn; lia|].
  intros _. cbn. lia.
Qed.

(** Two allocations and two pages with different contents: the same text. *)
Lemma version_show_no_stale_bytes_witness :
  @layout_ok example_abi
  /\ @version_show example_abi scripted scripted_proto example_ec
       (fresh (script [version_reply; build_reply; chip_reply; board_reply]))
       (Some fresh_msg) []
     = @version_show example_abi scripted scripted_proto example_ec
         (fresh (script [version_reply; build_reply; chip_reply; board_reply]))
         (Some (junk_msg (repeat "y"%char 252))) (lit "old").
Proof.
  split; [exact example_layout_ok|].
  exact (@version_show_no_stale_bytes example_abi example_layout_ok scripted
           scripted_proto example_ec
           (fresh (script [version_reply; build_reply; chip_reply; board_reply]))
           fresh_msg (junk_msg (repeat "y"%char 252)) [] (lit "old")
           eq_refl eq_refl example_replies_known).
Defined.
